(** * dwloader: a shallow embedding of the two download scripts

    [download_data.py] (module [DownloadData]) and
    [streamlit_integrated_app.py] (module [IntegratedApp]) are embedded as
    state-passing functions over a [World]: the hidden state of the outside
    collaborators (market-data provider, symbol directory, disk), the cache
    directory and the chronological log of the observable calls. *)

From Stdlib Require Import Ascii String ZArith QArith Lia.
From stdpp Require Import base option list gmap strings pretty sorting.

Open Scope string_scope.
Open Scope list_scope.
Open Scope nat_scope.

(** ** Python values used by both scripts *)

Module Py.

(** [str.capitalize] on the ASCII range: first character upper-cased, the
    others lower-cased; other bytes are left as they are. *)
Definition upper (c : ascii) : ascii :=
  let n := nat_of_ascii c in
  if (97 <=? n) && (n <=? 122) then ascii_of_nat (n - 32) else c.

Definition lower (c : ascii) : ascii :=
  let n := nat_of_ascii c in
  if (65 <=? n) && (n <=? 90) then ascii_of_nat (n + 32) else c.

Fixpoint lower_all (s : string) : string :=
  match s with
  | EmptyString => EmptyString
  | String c s' => String (lower c) (lower_all s')
  end.

Definition capitalize (s : string) : string :=
  match s with
  | EmptyString => EmptyString
  | String c s' => String (upper c) (lower_all s')
  end.

(** [s.endswith(suf)] *)
Definition endswith (s suf : string) : bool :=
  bool_decide (suf = String.substring (String.length s - String.length suf) (String.length suf) s)
  && (String.length suf <=? String.length s).

(** [c in s] for a single character *)
Fixpoint contains_char (c : ascii) (s : string) : bool :=
  match s with
  | EmptyString => false
  | String c' s' => bool_decide (c = c') || contains_char c s'
  end.

(** The backslash, the double quote and a hexadecimal digit in lower case. *)
Definition backslash : ascii := ascii_of_nat 92.
Definition double_quote : ascii := ascii_of_nat 34.

Definition hex_digit (n : nat) : ascii :=
  ascii_of_nat (if n <? 10 then 48 + n else 87 + n).

(** [repr(s)] of a [str]: in single quotes, or in double quotes when the
    text has a single quote and no double one; the quote in use and the
    backslash are escaped, tab, line feed and carriage return are written
    [\t], [\n], [\r] and the other control characters of the ASCII range
    [\xhh]; the bytes outside that range are left as they are, as Python
    leaves the characters it can print. *)
Definition repr_char (quote c : ascii) : string :=
  let n := nat_of_ascii c in
  if bool_decide (c = quote) || bool_decide (c = backslash) then String backslash (String c "")
  else if n =? 9 then String backslash "t"
  else if n =? 10 then String backslash "n"
  else if n =? 13 then String backslash "r"
  else if (n <? 32) || (n =? 127) then
    String backslash (String "x" (String (hex_digit (n / 16)) (String (hex_digit (n mod 16)) "")))
  else String c "".

Fixpoint repr_chars (quote : ascii) (s : string) : string :=
  match s with
  | EmptyString => EmptyString
  | String c s' => repr_char quote c +:+ repr_chars quote s'
  end.

Definition repr (s : string) : string :=
  let quote := if contains_char "'" s && negb (contains_char double_quote s)
               then double_quote else "'"%char in
  String quote (repr_chars quote s) +:+ String quote "".

(** A raised exception is carried as its text, [str(e)]. *)
Inductive result (A : Type) : Type :=
  | Ok (a : A)
  | Exc (msg : string).
Arguments Ok {A} a.
Arguments Exc {A} msg.

Definition rbind {A B} (r : result A) (k : A → result B) : result B :=
  match r with
  | Ok a => k a
  | Exc msg => Exc msg
  end.

Definition is_ok {A} (r : result A) : bool :=
  match r with Ok _ => true | Exc _ => false end.

(** A [dict] keeps its keys in insertion order: an association list in that
    order, in which assigning an existing key replaces its value in place. *)
Section dict.
Context {V : Type}.

Fixpoint dict_set (k : string) (v : V) (d : list (string * V)) : list (string * V) :=
  match d with
  | [] => [(k, v)]
  | (k', v') :: d' =>
      if bool_decide (k = k') then (k, v) :: d' else (k', v') :: dict_set k v d'
  end.

Definition dict_keys (d : list (string * V)) : list string := d.*1.
End dict.

(** [str.isspace], [str.strip], [str.upper] and [str.split] on the ASCII
    range: the white space is the tab, the line feed, the vertical tab,
    the form feed, the carriage return, the four separators 28 to 31 and
    the space. *)
Definition is_space (c : ascii) : bool :=
  let n := nat_of_ascii c in
  ((9 <=? n) && (n <=? 13)) || ((28 <=? n) && (n <=? 32)).

Fixpoint lstrip (s : string) : string :=
  match s with
  | EmptyString => EmptyString
  | String c s' => if is_space c then lstrip s' else s
  end.

Fixpoint rstrip (s : string) : string :=
  match s with
  | EmptyString => EmptyString
  | String c s' =>
      match rstrip s' with
      | EmptyString => if is_space c then EmptyString else String c EmptyString
      | kept => String c kept
      end
  end.

Definition strip (s : string) : string := rstrip (lstrip s).

Fixpoint upper_all (s : string) : string :=
  match s with
  | EmptyString => EmptyString
  | String c s' => String (upper c) (upper_all s')
  end.

(** [s.split(sep)] for a separator of one character *)
Fixpoint str_split (sep : ascii) (s : string) : list string :=
  match s with
  | EmptyString => [EmptyString]
  | String c s' =>
      if bool_decide (c = sep) then EmptyString :: str_split sep s'
      else match str_split sep s' with
           | [] => [String c EmptyString]
           | field :: fields => String c field :: fields
           end
  end.

(** The line feed, ['\n'] *)
Definition LF : ascii := ascii_of_nat 10.

(** Every character is in the ASCII range. *)
Fixpoint is_ascii (s : string) : bool :=
  match s with
  | EmptyString => true
  | String c s' => (nat_of_ascii c <? 128) && is_ascii s'
  end.

(** [range(0, stop, step)] for [0 < step] *)
Definition range_step (stop step : nat) : list nat :=
  (λ k, k * step) <$> seq 0 ((stop + step - 1) / step).

(** [sorted(l)] for a list of [str] *)
Definition str_le (s1 s2 : string) : Prop := String.leb s1 s2 = true.

#[export] Instance str_le_dec (s1 s2 : string) : Decision (str_le s1 s2) :=
  decide (String.leb s1 s2 = true).

Definition sorted (l : list string) : list string := merge_sort str_le l.


End Py.
Export Py.

(** ** The part of pandas the scripts use *)

Module Pandas.

(** A cell of a frame.  [NA] stands for both [None] and [NaN]; a number is
    the value the float or the integer holds.  The scripts compare numbers
    and compute with them in one place only, the mean of a column, which
    is taken from [Float64] below. *)
Inductive cell : Type :=
  | NA
  | Str (s : string)
  | Num (x : Q)
  | Ts (year month day : N).

(** A frame, row by row.  A row maps a column label to its cell.  A frame
    with a labelled index (the provider's [Date] index) keeps each row's
    label in the row under [index_name]; [index_name = None] is the default
    positional index. *)
Record DataFrame : Type := {
  index_name : option string;
  columns : list string;
  rows : list (gmap string cell);
}.

(** [pd.DataFrame()] *)
Definition empty_frame : DataFrame :=
  {| index_name := None; columns := []; rows := [] |}.

(** [df.empty]: some axis has length zero. *)
Definition df_empty (df : DataFrame) : bool :=
  match rows df, columns df with
  | [], _ | _, [] => true
  | _, _ => false
  end.

(** [len(df)] *)
Definition df_len (df : DataFrame) : nat := length (rows df).

Definition at_ (r : gmap string cell) (c : string) : cell := default NA (r !! c).

(** [df[c]]: the column as a series, [KeyError(c)] when there is no such
    column; the text of a [KeyError] is the [repr] of its key. *)
Definition getitem (df : DataFrame) (c : string) : result (list cell) :=
  if bool_decide (c ∈ columns df) then Ok ((λ r, at_ r c) <$> rows df)
  else Exc (repr c).

(** [series == s] *)
Definition eq_str (s : string) (c : cell) : bool :=
  match c with
  | Str s' => bool_decide (s' = s)
  | _ => false
  end.

(** [df[mask]] *)
Fixpoint mask_rows {A} (mask : list bool) (l : list A) : list A :=
  match mask, l with
  | b :: mask', x :: l' => if b then x :: mask_rows mask' l' else mask_rows mask' l'
  | _, _ => []
  end.

Definition getitem_mask (df : DataFrame) (mask : list bool) : DataFrame :=
  {| index_name := index_name df; columns := columns df; rows := mask_rows mask (rows df) |}.

(** [df[c] = v] with a scalar [v]: overwrite the column or add it last. *)
Definition setitem (df : DataFrame) (c : string) (v : cell) : DataFrame :=
  {| index_name := index_name df;
     columns := if bool_decide (c ∈ columns df) then columns df else columns df ++ [c];
     rows := (λ r, <[c := v]> r) <$> rows df |}.

(** [df[[c1, ..., cn]]]: [KeyError] when one of the labels is no column.
    Its text here names the first such label; the wording pandas gives it
    is not followed, and nothing below reads it. *)
Definition project (cs : list string) (r : gmap string cell) : gmap string cell :=
  filter (λ kv, kv.1 ∈ cs) r.

Definition getitem_list (df : DataFrame) (cs : list string) : result DataFrame :=
  match list_find (λ c, c ∉ columns df) cs with
  | Some (_, c) => Exc ("KeyError: " +:+ c)
  | None => Ok {| index_name := index_name df; columns := cs;
                  rows := (λ r, match index_name df with
                                | Some i => <[i := at_ r i]> (project cs r)
                                | None => project cs r
                                end) <$> rows df |}
  end.

(** [df.rename(columns={old: new})]; a label that is no column is ignored. *)
Definition rename_row (old new : string) (r : gmap string cell) : gmap string cell :=
  match r !! old with
  | Some v => <[new := v]> (delete old r)
  | None => r
  end.

Definition rename (df : DataFrame) (old new : string) : DataFrame :=
  if bool_decide (old ∈ columns df) then
    {| index_name := index_name df;
       columns := (λ c, if bool_decide (c = old) then new else c) <$> columns df;
       rows := rename_row old new <$> rows df |}
  else df.

(** [pd.concat([a, b], ignore_index=True)]: the rows of [a] then those of
    [b]; the columns of [a], then the columns only [b] has. *)
Definition pd_concat (a b : DataFrame) : DataFrame :=
  {| index_name := None;
     columns := columns a ++ filter (λ c, c ∉ columns a) (columns b);
     rows := rows a ++ rows b |}.

(** [df.columns = labels]: relabel the columns by position. *)
Definition set_columns (df : DataFrame) (labels : list string) : DataFrame :=
  {| index_name := index_name df;
     columns := labels;
     rows := (λ r, let relabelled : gmap string cell :=
                     list_to_map (zip labels ((λ c, at_ r c) <$> columns df)) in
                   match index_name df with
                   | Some i => <[i := at_ r i]> relabelled
                   | None => relabelled
                   end) <$> rows df |}.

(** [df.reset_index(inplace=True)]: the index becomes the first column; it
    is an error when a column already has its name. *)
Definition reset_index (df : DataFrame) : result DataFrame :=
  let name := default "index" (index_name df) in
  if bool_decide (name ∈ columns df) then Exc ("ValueError: cannot insert " +:+ name +:+ ", already exists")
  else Ok {| index_name := None; columns := name :: columns df;
             rows := match index_name df with
                     | Some _ => rows df
                     | None => imap (λ i r, <[name := Num (inject_Z (Z.of_nat i))]> r) (rows df)
                     end |}.

(** [series.dt.strftime('%Y%m%d')]: only for a datetime-like column. *)
Definition pad2 (n : N) : string :=
  if (n <? 10)%N then "0" +:+ pretty n else pretty n.

Definition strftime_Ymd (c : cell) : result cell :=
  match c with
  | Ts y m d => Ok (Str (pretty y +:+ pad2 m +:+ pad2 d))
  | NA => Ok NA
  | _ => Exc "AttributeError: Can only use .dt accessor with datetimelike values"
  end.

Fixpoint dt_strftime (s : list cell) : result (list cell) :=
  match s with
  | [] => Ok []
  | c :: s' => rbind (strftime_Ymd c) (λ c', rbind (dt_strftime s') (λ r, Ok (c' :: r)))
  end.

(** [df[c] = series] *)
Definition setitem_series (df : DataFrame) (c : string) (s : list cell) : DataFrame :=
  {| index_name := index_name df;
     columns := if bool_decide (c ∈ columns df) then columns df else columns df ++ [c];
     rows := zip_with (λ r v, <[c := v]> r) (rows df) s |}.

(** [series.iloc[-1]] *)
Definition iloc_last (s : list cell) : result cell :=
  match last s with
  | Some c => Ok c
  | None => Exc "IndexError: single positional indexer is out-of-bounds"
  end.

(** The floating-point arithmetic of pandas, taken as it is: the mean of
    the numbers of a column, as the float64 that [series.mean()] makes of
    them. *)
Class Float64 : Type := {
  float_mean : list Q → Q;
}.

(** [series.mean()]: missing cells are skipped; no number left gives [NaN]. *)
Fixpoint numbers (s : list cell) : result (list Q) :=
  match s with
  | [] => Ok []
  | NA :: s' => numbers s'
  | Num x :: s' => rbind (numbers s') (λ l, Ok (x :: l))
  | _ :: _ => Exc "TypeError: could not convert to numeric"
  end.

Definition mean `{!Float64} (s : list cell) : result cell :=
  rbind (numbers s) (λ l,
    match l with
    | [] => Ok NA
    | _ => Ok (Num (float_mean l))
    end).

(** [series >= threshold], cell by cell; a missing cell compares false. *)
Definition ge_num (threshold : Q) (c : cell) : bool :=
  match c with
  | Num x => Qle_bool threshold x
  | _ => false
  end.

(** [series.fillna(other)], cell by cell. *)
Definition fillna (c other : cell) : cell :=
  match c with
  | NA => other
  | _ => c
  end.

End Pandas.
Export Pandas.

(** ** The outside world *)

Module Host.

(** The range of a [history] request: [period=..., auto_adjust=...] or
    [start=..., end=..., interval='1d'] (dates as day numbers). *)
Inductive RangeSpec : Type :=
  | Period (period : string) (auto_adjust : bool)
  | Between (start_date end_date : Z).

(** pandas' text codecs, taken as they are. *)
Class Codec : Type := {
  (** [pd.read_csv(io.StringIO(text), sep=sep)]: the column labels and the
      rows it reads, or the parser's exception *)
  read_csv : string → string → result (list string * list (gmap string cell));
  (** [df.to_csv(index=...)] *)
  to_csv : bool → DataFrame → string;
}.

(** The frame [pd.read_csv] builds: it has the default positional index. *)
Definition pd_read_csv `{!Codec} (text sep : string) : result DataFrame :=
  rbind (read_csv text sep) (λ table,
    Ok {| index_name := None; columns := table.1; rows := table.2 |}).

(** The collaborators the scripts call into, over their hidden state [E]:
    each call answers and moves that state.  Both are unreliable: a call may
    answer an empty frame or raise. *)
Class External (E : Type) : Type := {
  (** [yf.Ticker(symbol).history(...)] *)
  yf_history : string → RangeSpec → E → result DataFrame * E;
  (** [yf.Ticker(symbol).info], a dict *)
  yf_info : string → E → result (gmap string cell) * E;
  (** [requests.get(url).text] *)
  requests_get : string → E → result string * E;
  (** writing a file of the cache directory *)
  disk_write : string → string → E → result () * E;
  (** [time.sleep]: time passes *)
  elapse : Z → E → E;
}.

(** What the scripts do to the outside, in order. *)
Inductive Event : Type :=
  | EvHistory (symbol : string) (range : RangeSpec)
  | EvInfo (symbol : string)
  | EvGet (url : string)
  | EvToCsv (name : string)
  | EvSleep (ms : Z)
  | EvProgress (done total : nat)
  | EvText (msg : string)
  | EvSuccess (msg : string)
  | EvError (msg : string).

(** [cache_dir] is the content of [CACHE_DIR], by file name relative to it. *)
Record World (E : Type) : Type := {
  env : E;
  cache_dir : gmap string string;
  log : list Event;
}.
Arguments env {E} _.
Arguments cache_dir {E} _.
Arguments log {E} _.

(** State passing: a computation answers and leaves a new world. *)
Definition M (E A : Type) : Type := World E → A * World E.

#[export] Instance M_ret {E} : MRet (M E) := λ A a w, (a, w).
#[export] Instance M_bind {E} : MBind (M E) :=
  λ A B k m w, let '(a, w') := m w in k a w'.

(** A computation that may raise: the statements after a raising one are
    skipped, what was done before it stays done. *)
Definition Try (E A : Type) : Type := World E → result A * World E.

#[export] Instance Try_ret {E} : MRet (Try E) := λ A a w, (Ok a, w).
#[export] Instance Try_bind {E} : MBind (Try E) :=
  λ A B k m w, match m w with
               | (Ok a, w') => k a w'
               | (Exc msg, w') => (Exc msg, w')
               end.

(** A pure step that may raise. *)
Definition lift {E A} (r : result A) : Try E A := λ w, (r, w).

(** The outcome of a [try] body, for the code that inspects it. *)
Definition try_ {E A} (body : Try E A) : M E (result A) := body.

(** [try: body / except Exception as e: handler(str(e))] *)
Definition catch {E A} (body : Try E A) (handler : string → M E A) : M E A :=
  λ w, match body w with
       | (Ok a, w') => (a, w')
       | (Exc msg, w') => handler msg w'
       end.

(** [for x in l: s = body(x, s)], where [s] stands for the variables the
    body assigns. *)
Fixpoint for_each {E A S} (body : A → S → M E S) (l : list A) (s : S) : M E S :=
  match l with
  | [] => mret s
  | x :: l' => s' ← body x s; for_each body l' s'
  end.

(** [enumerate(l)] *)
Definition enumerate {A} (l : list A) : list (nat * A) := zip (seq 0 (length l)) l.

Section actions.
Context {E : Type} `{!External E}.

Definition emit (ev : Event) : M E () :=
  λ w, ((), {| env := env w; cache_dir := cache_dir w; log := log w ++ [ev] |}).

Definition history (symbol : string) (range : RangeSpec) : Try E DataFrame :=
  λ w, let '(r, e) := yf_history symbol range (env w) in
       (r, {| env := e; cache_dir := cache_dir w; log := log w ++ [EvHistory symbol range] |}).

Definition info (symbol : string) : Try E (gmap string cell) :=
  λ w, let '(r, e) := yf_info symbol (env w) in
       (r, {| env := e; cache_dir := cache_dir w; log := log w ++ [EvInfo symbol] |}).

Definition get (url : string) : Try E string :=
  λ w, let '(r, e) := requests_get url (env w) in
       (r, {| env := e; cache_dir := cache_dir w; log := log w ++ [EvGet url] |}).

(** [time.sleep(ms / 1000)] *)
Definition sleep (ms : Z) : M E () :=
  λ w, ((), {| env := elapse ms (env w); cache_dir := cache_dir w; log := log w ++ [EvSleep ms] |}).

(** [path.exists()], where it answers: for a name the file system can
    hold, in a directory that can be read.  For a file name of more than
    255 bytes the call raises [OSError] instead; no definition of this
    file follows that exception, and what is proved of a whole run is
    proved for names that fit. *)
Definition exists_ (name : string) : M E bool :=
  λ w, (bool_decide (is_Some (cache_dir w !! name)), w).

(** Writing [text] to the file [name]: the file is there afterwards when
    the write went through, and the directory is as before when it raised. *)
Definition write_file (name text : string) : Try E () :=
  λ w, let '(r, e) := disk_write name text (env w) in
       (r, {| env := e;
              cache_dir := if is_ok r then <[name := text]> (cache_dir w) else cache_dir w;
              log := log w ++ [EvToCsv name] |}).
End actions.

(** The events of a log that are provider requests or sleeps. *)
Definition is_history (ev : Event) : bool :=
  match ev with EvHistory _ _ => true | _ => false end.

Definition is_sleep (ev : Event) : bool :=
  match ev with EvSleep _ => true | _ => false end.

Definition is_write (ev : Event) : bool :=
  match ev with EvToCsv _ => true | _ => false end.

Definition request_or_sleep (ev : Event) : bool := is_history ev || is_sleep ev.

(** [k] requests with one pause between each two consecutive ones. *)
Fixpoint spaced (request pause : Event) (k : nat) : list Event :=
  match k with
  | 0 => []
  | S k' => request :: match k' with 0 => [] | S _ => pause :: spaced request pause k' end
  end.

(** [Path.unlink], which may raise, over the same hidden state. *)
Class Removal (E : Type) : Type := {
  disk_unlink : string → E → result () * E;
}.

(** Removing the file [name]: it is gone afterwards when the removal went
    through, and the directory is as before when it raised.  The log keeps
    requests, writes, pauses and displays only. *)
Definition unlink {E} `{!Removal E} (name : string) : Try E () :=
  λ w, let '(r, e) := disk_unlink name (env w) in
       (r, {| env := e;
              cache_dir := if is_ok r then delete name (cache_dir w) else cache_dir w;
              log := log w |}).

(** How the application's messages print a ratio:
    [f"{current / total * 100:.1f}"]. *)
Class Formatting : Type := {
  format_percent : nat → nat → string;
}.

Definition is_progress (ev : Event) : bool :=
  match ev with EvProgress _ _ => true | _ => false end.

Definition is_info (ev : Event) : bool :=
  match ev with EvInfo _ => true | _ => false end.

End Host.
Export Host.

(** ** download_data.py *)

Module DownloadData.

(** [Path.stem]: the name without its last suffix. *)
Fixpoint rfind_dot (s : string) : option nat :=
  match s with
  | EmptyString => None
  | String c s' =>
      match rfind_dot s' with
      | Some i => Some (S i)
      | None => if bool_decide (c = "."%char) then Some 0 else None
      end
  end.

Definition stem (name : string) : string :=
  match rfind_dot name with
  | Some i => if (0 <? i) && (i <? String.length name - 1) then String.substring 0 i name else name
  | None => name
  end.

(** [CACHE_DIR.glob("*.csv")]: the files directly in the directory whose
    name ends in [.csv], in the directory's own order. *)
Definition is_csv (name : string) : bool :=
  endswith name ".csv" && negb (contains_char "/"%char name).

Definition glob_csv (dir : gmap string string) : list string :=
  filter (λ name, is_csv name = true) (map_to_list dir).*1.

(** [CACHE_DIR / f"{ticker}.csv"], relative to [CACHE_DIR], as it is
    written: the name of the file in the directory for a ticker without
    [/].  (pathlib drops a leading [./], and an absolute ticker names a
    file outside the directory: two tickers with [/] may name one file.) *)
Definition csv_name (ticker : string) : string := ticker +:+ ".csv".

Section defs.
Context `{!Codec} {E : Type} `{!External E}.

(** The body of the [try] of one attempt, up to its [return] or the end
    of the [if]: [Some n] after [n] rows were fetched and saved, [None]
    for an empty frame; it raises what the [except] clause catches. *)
Definition attempt_body (ticker period : string) : Try E (option nat) :=
  df ← history ticker (Period period false);
  if negb (df_empty df) then
    let df := set_columns df (capitalize <$> columns df) in
    write_file (csv_name ticker) (to_csv true df);;
    mret (Some (df_len df))
  else mret None.

(** [for attempt in attempts: ...] followed by the statement after the loop *)
Fixpoint attempts_loop (attempts : list nat) (ticker period : string) : M E (bool * string) :=
  match attempts with
  | [] => mret (false, "3번 시도 실패")
  | attempt :: rest =>
      r ← try_ (attempt_body ticker period);
      match r with
      | Ok (Some n) => mret (true, pretty n +:+ "개 데이터")
      | Ok None =>
          if attempt <? 2 then (sleep 1000;; attempts_loop rest ticker period)
          else mret (false, "데이터 없음")
      | Exc msg =>
          if attempt <? 2 then (sleep 1000;; attempts_loop rest ticker period)
          else mret (false, msg)
      end
  end.

Definition download_ticker_data (ticker period : string) : M E (bool * string) :=
  cached ← exists_ (csv_name ticker);
  if cached : bool then mret (true, "이미 다운로드됨")
  else attempts_loop (seq 0 3) ticker period.

(** An archive is the list of its entries, (name, data), as written. *)
Definition create_download_zip : M E (option (list (string * string))) :=
  λ w, let csv_files := glob_csv (cache_dir w) in
       match csv_files with
       | [] => (None, w)
       | _ => (Some ((λ name, (name, default "" (cache_dir w !! name))) <$> csv_files), w)
       end.

(** *** [main]: which tickers are downloaded *)

Inductive DownloadMode : Type := Remaining | Test5 | Some20 | Half50 | Everything.

Definition existing_tickers (w : World E) : list string :=
  stem <$> glob_csv (cache_dir w).

Definition selected_tickers (mode : DownloadMode) (all_tickers existing : list string) : list string :=
  match mode with
  | Remaining => filter (λ t, t ∉ existing) all_tickers
  | Test5 => take 5 all_tickers
  | Some20 => take 20 all_tickers
  | Half50 => take 50 all_tickers
  | Everything => all_tickers
  end.

Definition new_tickers (mode : DownloadMode) (all_tickers : list string) (w : World E) : list string :=
  filter (λ t, t ∉ existing_tickers w) (selected_tickers mode all_tickers (existing_tickers w)).

(** *** [main]: the download loop *)

(** [new_tickers[batch_start:batch_end]] *)
Definition slice {A} (l : list A) (i j : nat) : list A := take (j - i) (drop i l).

(** The body of [for i, ticker in enumerate(batch)]; [acc] is
    [(success_list, fail_list)]. *)
Definition download_item (total batch_start : nat) (period : string) (delay : Z)
    (item : nat * string) (acc : list string * list (string * string))
    : M E (list string * list (string * string)) :=
  let '(i, ticker) := item in
  let global_idx := batch_start + i in
  emit (EvProgress (global_idx + 1) total);;
  emit (EvText ("다운로드 중: " +:+ ticker +:+ " (" +:+ pretty (global_idx + 1) +:+ "/" +:+ pretty total +:+ ")"));;
  '(ok, result) ← download_ticker_data ticker period;
  acc' ← (if ok : bool then
            emit (EvSuccess ("✅ " +:+ ticker +:+ ": " +:+ result));;
            mret (acc.1 ++ [ticker], acc.2)
          else
            emit (EvError ("❌ " +:+ ticker +:+ ": " +:+ result));;
            mret (acc.1, acc.2 ++ [(ticker, result)]));
  (if global_idx <? total - 1 then sleep delay else mret ());;
  mret acc'.

(** The body of [for batch_idx in range(total_batches)]. *)
Definition download_batch (total_batches batch_size : nat) (new_tickers : list string)
    (period : string) (delay : Z)
    (batch_idx : nat) (acc : list string * list (string * string))
    : M E (list string * list (string * string)) :=
  let batch_start := batch_idx * batch_size in
  let batch_end := (batch_start + batch_size) `min` length new_tickers in
  let batch := slice new_tickers batch_start batch_end in
  emit (EvText ("**배치 " +:+ pretty (batch_idx + 1) +:+ "/" +:+ pretty total_batches +:+ "**"));;
  for_each (download_item (length new_tickers) batch_start period delay) (enumerate batch) acc.

(** The body of the download button, once there is something to download:
    the answer is [(success_list, fail_list)]. *)
Definition run_download (new_tickers : list string) (period : string) (batch_size : nat) (delay : Z)
    : M E (list string * list (string * string)) :=
  let total_batches := (length new_tickers + batch_size - 1) / batch_size in
  acc ← for_each (download_batch total_batches batch_size new_tickers period delay)
          (seq 0 total_batches) ([], []);
  emit (EvText "✨ 다운로드 완료!");;
  mret acc.
(** *** [main]: the rest of the page *)

(** The tickers of the uploaded file:
    [[line.strip().upper() for line in content.split('\n') if line.strip()]] *)
Definition load_tickers (content : string) : list string :=
  (λ line, upper_all (strip line))
    <$> filter (λ line, strip line ≠ "") (str_split LF content).

(** The third metric, [len(all_tickers) - len(existing_files)] *)
Definition remaining_metric (all_tickers : list string) (w : World E) : Z :=
  Z.of_nat (length all_tickers) - Z.of_nat (length (glob_csv (cache_dir w))).

(** The reset button, once confirmed:
    [for f in CACHE_DIR.glob("*.csv"): f.unlink()] *)
Fixpoint unlink_all `{!Removal E} (names : list string) : Try E () :=
  match names with
  | [] => mret ()
  | name :: rest => unlink name;; unlink_all rest
  end.

Definition clear_cache `{!Removal E} : Try E () :=
  λ w, unlink_all (glob_csv (cache_dir w)) w.

(** The list of the downloaded tickers, ten to a line:
    [downloaded = sorted([f.stem for f in existing_files])], then
    [", ".join(downloaded[i:i+10])] for [i in range(0, len(downloaded), 10)] *)
Definition downloaded_chunks (downloaded : list string) : list (list string) :=
  (λ i, slice downloaded i (i + 10)) <$> range_step (length downloaded) 10.

Definition downloaded_lines (w : World E) : list string :=
  String.concat ", " <$> downloaded_chunks (sorted (existing_tickers w)).
End defs.

End DownloadData.

(** ** streamlit_integrated_app.py *)

Module IntegratedApp.

Definition nasdaq_url : string := "https://www.nasdaqtrader.com/dynamic/SymDir/nasdaqlisted.txt".
Definition other_url : string := "https://www.nasdaqtrader.com/dynamic/SymDir/otherlisted.txt".

(** [pd.DataFrame(records)] for dicts that all have the keys [keys]. *)
Definition frame_of_records (keys : list string) (records : list (gmap string cell)) : DataFrame :=
  {| index_name := None;
     columns := match records with [] => [] | _ => keys end;
     rows := records |}.

(** [df.drop(c, axis=1, inplace=True)]: [KeyError] when there is no such
    column, with a text that names it (pandas' wording is not followed). *)
Definition drop_column (df : DataFrame) (c : string) : result DataFrame :=
  if bool_decide (c ∈ columns df) then
    Ok {| index_name := index_name df;
          columns := filter (λ c', c' ≠ c) (columns df);
          rows := delete c <$> rows df |}
  else Exc ("KeyError: " +:+ c).

(** Two join keys are the same key. *)
Definition same_key (a b : cell) : bool :=
  match a, b with
  | NA, NA => true
  | Str s, Str s' => bool_decide (s = s')
  | Num x, Num y => Qeq_bool x y
  | Ts y m d, Ts y' m' d' => bool_decide (y = y' ∧ m = m' ∧ d = d')
  | _, _ => false
  end.

(** [left.merge(right, on=on, how='inner', suffixes=(lsuffix, rsuffix))]:
    one row for every pair of a left and a right row with the same key, in
    the order of the left rows; a column the two frames share, other than
    the key, is kept from both under suffixed labels. *)
Definition merge_inner (left right : DataFrame) (on lsuffix rsuffix : string) : result DataFrame :=
  if bool_decide (on ∈ columns left ∧ on ∈ columns right) then
    let shared c := bool_decide (c ≠ on ∧ c ∈ columns left ∧ c ∈ columns right) in
    let llabel c := if shared c then c +:+ lsuffix else c in
    let rlabel c := if shared c then c +:+ rsuffix else c in
    let rcolumns := filter (λ c, c ≠ on) (columns right) in
    Ok {| index_name := None;
          columns := (llabel <$> columns left) ++ (rlabel <$> rcolumns);
          rows := l ← rows left;
                  r ← rows right;
                  if same_key (at_ l on) (at_ r on) then
                    [list_to_map (((λ c, (llabel c, at_ l c)) <$> columns left)
                                  ++ ((λ c, (rlabel c, at_ r c)) <$> rcolumns))]
                  else [] |}
  else Exc (repr on).

(** [info.get('longName', info.get('shortName', symbol))] *)
Definition info_name (info : gmap string cell) (symbol : string) : cell :=
  default (default (Str symbol) (info !! "shortName")) (info !! "longName").

Definition info_keys : list string := ["Symbol"; "Name"; "Last Sale"; "Market Cap"; "Volume"].

(** [for filename, df in data_dict.items(): zip_file.writestr(...)]: the
    archive as the list of its entries, (name, data), as written. *)
Definition create_download_zip `{!Codec} (data_dict : list (string * DataFrame)) : list (string * string) :=
  (λ item, (item.1 +:+ ".csv", to_csv false item.2)) <$> data_dict.

(** The merge of the second tab and its [Name] column:
    [ticker_df.merge(info_df, on='Symbol', how='inner', suffixes=('', '_info'))],
    then, when there is a [Name_info] column, [Name] becomes
    [Name_info.fillna(Name)] and [Name_info] is dropped. *)
Definition merge_names (ticker_df info_df : DataFrame) : result DataFrame :=
  rbind (merge_inner ticker_df info_df "Symbol" "" "_info") (λ merged_df,
  if bool_decide ("Name_info" ∈ columns merged_df) then
    rbind (getitem merged_df "Name_info") (λ name_info,
    rbind (getitem merged_df "Name") (λ name,
    drop_column (setitem_series merged_df "Name" (zip_with fillna name_info name)) "Name_info"))
  else Ok merged_df).

(** The filter of the second tab: the rows at or above all three
    thresholds. *)
Definition filter_thresholds (merged_df : DataFrame) (min_price min_market_cap min_volume : Q)
    : result DataFrame :=
  rbind (getitem merged_df "Last Sale") (λ last_sale,
  rbind (getitem merged_df "Market Cap") (λ market_cap,
  rbind (getitem merged_df "Volume") (λ volume,
  let mask := zip_with andb (zip_with andb (ge_num min_price <$> last_sale)
                                           (ge_num min_market_cap <$> market_cap))
                            (ge_num min_volume <$> volume) in
  Ok (getitem_mask merged_df mask)))).

(** The merge and filter block of the second tab, entered when [info_df] is
    not empty: [Some filtered_df]; [None] when it is empty and the block is
    skipped. *)
Definition merge_and_filter (ticker_df info_df : DataFrame) (min_price min_market_cap min_volume : Q)
    : result (option DataFrame) :=
  if negb (df_empty info_df) then
    rbind (merge_names ticker_df info_df) (λ merged_df,
    rbind (filter_thresholds merged_df min_price min_market_cap min_volume) (λ filtered_df,
    Ok (Some filtered_df)))
  else Ok None.

Section defs.
Context `{!Codec} `{!Float64} {E : Type} `{!External E}.

(** The [try] body of [download_nasdaq_tickers]. *)
Definition nasdaq_tickers_body : Try E DataFrame :=
  nasdaq_response ← get nasdaq_url;
  nasdaq_df ← lift (pd_read_csv nasdaq_response "|");
  test_issue ← lift (getitem nasdaq_df "Test Issue");
  let nasdaq_df := getitem_mask nasdaq_df (eq_str "N" <$> test_issue) in
  let nasdaq_df := setitem nasdaq_df "Exchange" (Str "NASDAQ") in
  other_response ← get other_url;
  other_df ← lift (pd_read_csv other_response "|");
  test_issue ← lift (getitem other_df "Test Issue");
  let other_df := getitem_mask other_df (eq_str "N" <$> test_issue) in
  let other_df := setitem other_df "Exchange" (Str "OTHER") in
  nasdaq_clean ← lift (getitem_list nasdaq_df ["Symbol"; "Security Name"; "Market Category"; "Exchange"]);
  other_clean ← lift (getitem_list other_df ["ACT Symbol"; "Security Name"; "Exchange"]);
  let other_clean := rename other_clean "ACT Symbol" "Symbol" in
  let other_clean := setitem other_clean "Market Category" (Str "N/A") in
  let combined_df := pd_concat nasdaq_clean other_clean in
  let combined_df := rename combined_df "Security Name" "Name" in
  mret combined_df.

(** The function as it is written under its decorator
    [@st.cache_data(ttl=86400)]: what a call does when Streamlit runs
    the function.  A call within 24 hours of such a run is answered from
    Streamlit's store and runs nothing of it; that store is not
    modelled. *)
Definition download_nasdaq_tickers : M E DataFrame :=
  catch nasdaq_tickers_body
    (λ e, emit (EvError ("티커 리스트 다운로드 실패: " +:+ e));; mret empty_frame).

(** The [try] body for one symbol: the record appended to [ticker_info],
    or [None] when the recent history is empty. *)
Definition ticker_summary (symbol : string) : Try E (option (gmap string cell)) :=
  info ← info symbol;
  hist ← history symbol (Period "5d" true);
  if negb (df_empty hist) then
    close ← lift (getitem hist "Close");
    last_price ← lift (iloc_last close);
    volume ← lift (getitem hist "Volume");
    avg_volume ← lift (mean volume);
    let market_cap := default (Num 0) (info !! "marketCap") in
    mret (Some (<["Symbol" := Str symbol]>
               (<["Name" := info_name info symbol]>
               (<["Last Sale" := last_price]>
               (<["Market Cap" := market_cap]>
               (<["Volume" := avg_volume]> ∅))))))
  else mret None.

(** The body of [for i, symbol in enumerate(symbols)]; [acc] is
    [(ticker_info, failed_tickers)]. *)
Definition collect_info (total : nat) (progress_callback : option (nat → nat → M E ()))
    (item : nat * string) (acc : list (gmap string cell) * list string)
    : M E (list (gmap string cell) * list string) :=
  let '(i, symbol) := item in
  acc' ← catch
           (r ← ticker_summary symbol;
            match r with
            | Some record => mret (acc.1 ++ [record], acc.2)
            | None => mret (acc.1, acc.2 ++ [symbol])
            end)
           (λ _, mret (acc.1, acc.2 ++ [symbol]));
  match progress_callback with
  | Some callback => callback (i + 1) total
  | None => mret ()
  end;;
  (if (i + 1) mod 10 =? 0 then sleep 1000 else sleep 100);;
  mret acc'.

Definition get_ticker_info_batch (symbols : list string)
    (progress_callback : option (nat → nat → M E ())) : M E (DataFrame * list string) :=
  acc ← for_each (collect_info (length symbols) progress_callback) (enumerate symbols) ([], []);
  mret (frame_of_records info_keys acc.1, acc.2).

Definition fetch_stock_data (symbol : string) (start_date end_date : Z) : M E (option DataFrame) :=
  catch
    (df ← history symbol (Between start_date end_date);
     if df_empty df then mret None
     else
       df ← lift (reset_index df);
       date ← lift (getitem df "Date");
       date ← lift (dt_strftime date);
       let df := setitem_series df "date" date in
       let df := rename df "Open" "open" in
       let df := rename df "High" "high" in
       let df := rename df "Low" "low" in
       let df := rename df "Close" "close" in
       let df := rename df "Volume" "Volume" in
       df ← lift (getitem_list df ["date"; "open"; "high"; "low"; "close"; "Volume"]);
       mret (Some df))
    (λ _, mret None).

(** The body of [for i, symbol in enumerate(selected_symbols)] of the
    third tab; [acc] is [(successful_data, failed_list)]. *)
Definition download_stock (total : nat) (start_date end_date : Z)
    (item : nat * string) (acc : list (string * DataFrame) * list string)
    : M E (list (string * DataFrame) * list string) :=
  let '(i, symbol) := item in
  df ← fetch_stock_data symbol start_date end_date;
  acc' ← match df with
         | Some df =>
             emit (EvSuccess ("✓ " +:+ symbol +:+ ": " +:+ pretty (df_len df) +:+ "행"));;
             mret (dict_set symbol df acc.1, acc.2)
         | None =>
             emit (EvError ("✗ " +:+ symbol +:+ ": 실패"));;
             mret (acc.1, acc.2 ++ [symbol])
         end;
  emit (EvProgress (i + 1) total);;
  emit (EvText (symbol +:+ " 처리 중... (" +:+ pretty (i + 1) +:+ "/" +:+ pretty total +:+ ")"));;
  (if (i + 1) mod 10 =? 0 then sleep 1000 else sleep 100);;
  mret acc'.

(** The body of the download button of the third tab for a non-empty
    selection: [(successful_data, failed_list)] and the archive offered
    for download, if one is. *)
Definition download_stocks (selected_symbols : list string) (start_date end_date : Z)
    : M E (list (string * DataFrame) * list string * option (list (string * string))) :=
  acc ← for_each (download_stock (length selected_symbols) start_date end_date)
          (enumerate selected_symbols) ([], []);
  emit (EvSuccess ("✅ 완료! 성공: " +:+ pretty (length acc.1) +:+ ", 실패: " +:+ pretty (length acc.2)));;
  mret (acc.1, acc.2,
        match acc.1 with
        | [] => None
        | _ => Some (create_download_zip acc.1)
        end).
(** The callback of the second tab, [update_progress], for a [total] that
    is not zero (the loop calls it with the number of its symbols). *)
Definition update_progress `{!Formatting} (current total : nat) : M E () :=
  emit (EvProgress current total);;
  emit (EvText ("처리 중... " +:+ pretty current +:+ "/" +:+ pretty total
                +:+ " (" +:+ format_percent current total +:+ "%)")).
End defs.

End IntegratedApp.

(** ** Scripted collaborators, for running the scripts on concrete inputs *)

Module Scenario.

(** The provider answers each symbol from its own script, one answer per
    request, and an empty frame once the script is used up; the directory
    server and the disk answer by table. *)
Record Script : Type := {
  histories : gmap string (list (result DataFrame));
  infos : gmap string (result (gmap string cell));
  pages : gmap string (result string);
  unwritable : list string;
}.

Definition no_rows : DataFrame :=
  {| index_name := Some "Date"; columns := ["Open"; "High"; "Low"; "Close"; "Volume"]; rows := [] |}.

#[export] Instance script_external : External Script := {|
  yf_history symbol _ e :=
    match histories e !! symbol with
    | Some (r :: rest) =>
        (r, {| histories := <[symbol := rest]> (histories e); infos := infos e;
               pages := pages e; unwritable := unwritable e |})
    | _ => (Ok no_rows, e)
    end;
  yf_info symbol e := (default (Exc "KeyError: quoteSummary") (infos e !! symbol), e);
  requests_get url e := (default (Exc "ConnectionError") (pages e !! url), e);
  disk_write name _ e :=
    (if bool_decide (name ∈ unwritable e) then Exc ("OSError: " +:+ name) else Ok (), e);
  elapse _ e := e;
|}.

(** A reader of delimited text: the first line holds the column labels,
    every other line one row; an empty field is a missing cell. *)
Fixpoint split_on (sep : ascii) (s : string) : list string :=
  match s with
  | EmptyString => [EmptyString]
  | String c s' =>
      if bool_decide (c = sep) then EmptyString :: split_on sep s'
      else match split_on sep s' with
           | [] => [String c EmptyString]
           | field :: fields => String c field :: fields
           end
  end.

Definition field_cell (s : string) : cell :=
  if bool_decide (s = "") then NA else Str s.

Definition newline : ascii := ascii_of_nat 10.

Definition read_table (text sep : string) : result (list string * list (gmap string cell)) :=
  match sep, filter (λ line, line ≠ "") (split_on newline text) with
  | String c EmptyString, header :: lines =>
      let labels := split_on c header in
      Ok (labels, (λ line, list_to_map (zip labels (field_cell <$> split_on c line))) <$> lines)
  | _, _ => Exc "EmptyDataError: No columns to parse from file"
  end.

Definition write_table (index : bool) (df : DataFrame) : string :=
  String.concat "," (columns df) +:+ " (" +:+ pretty (df_len df) +:+ ")".

#[export] Instance script_codec : Codec := {| read_csv := read_table; to_csv := write_table |}.

Definition day (d : nat) : gmap string cell :=
  <["Date" := Ts 2024 (1 + N.of_nat d / 28) (1 + N.of_nat d `mod` 28)]> (<["Open" := Num 150]> (<["High" := Num 152]>
  (<["Low" := Num 149]> (<["Close" := Num 151]> (<["Volume" := Num 50000000]> ∅))))).

(** [n] daily records *)
Definition prices (n : nat) : DataFrame :=
  {| index_name := Some "Date"; columns := ["Open"; "High"; "Low"; "Close"; "Volume"];
     rows := day <$> seq 1 n |}.

Definition world (e : Script) (files : gmap string string) : World Script :=
  {| env := e; cache_dir := files; log := [] |}.

(** [AAPL] answers 250 rows; [BADTICKER] answers an empty frame every time. *)
Definition aapl_and_badticker : Script :=
  {| histories := {[ "AAPL" := [Ok (prices 250)] ]}; infos := ∅; pages := ∅; unwritable := [] |}.

(** The two symbol directories, each with one listed issue and one test
    issue. *)
Definition nasdaq_listed : string :=
  "Symbol|Security Name|Market Category|Test Issue
AAPL|Apple Inc. - Common Stock|Q|N
ZAZZT|Tick Pilot Test Stock Class A|G|Y
".

Definition other_listed : string :=
  "ACT Symbol|Security Name|Exchange|Test Issue
IBM|International Business Machines|N|N
ZTEST|Test Symbol|A|Y
".

Definition directories : Script :=
  {| histories := ∅; infos := ∅;
     pages := {[ IntegratedApp.nasdaq_url := Ok nasdaq_listed;
                 IntegratedApp.other_url := Ok other_listed ]};
     unwritable := [] |}.

(** The second directory cannot be reached. *)
Definition other_unreachable : Script :=
  {| histories := ∅; infos := ∅;
     pages := {[ IntegratedApp.nasdaq_url := Ok nasdaq_listed ]};
     unwritable := [] |}.

(** The ticker list and the collected information of the scenario of the
    specification: one row each for [AAPL]. *)
Definition apple_tickers : DataFrame :=
  {| index_name := None;
     columns := ["Symbol"; "Name"; "Market Category"; "Exchange"];
     rows := [ <["Symbol" := Str "AAPL"]> (<["Name" := Str "Apple Inc"]>
              (<["Market Category" := Str "Q"]> (<["Exchange" := Str "NASDAQ"]> ∅))) ] |}.

Definition apple_info : DataFrame :=
  IntegratedApp.frame_of_records IntegratedApp.info_keys
    [ <["Symbol" := Str "AAPL"]> (<["Name" := Str "Apple Inc."]>
      (<["Last Sale" := Num 150]> (<["Market Cap" := Num 2000000000000]>
      (<["Volume" := Num 50000000]> ∅)))) ].

(** A company the provider knows under an empty long name. *)
Definition acme_tickers : DataFrame :=
  {| index_name := None;
     columns := ["Symbol"; "Name"; "Market Category"; "Exchange"];
     rows := [ <["Symbol" := Str "ACME"]> (<["Name" := Str "Acme Corporation"]>
              (<["Market Category" := Str "Q"]> (<["Exchange" := Str "NASDAQ"]> ∅))) ] |}.

Definition acme : Script :=
  {| histories := {[ "ACME" := [Ok (prices 5)] ]};
     infos := {[ "ACME" := Ok (<["longName" := Str ""]> (<["marketCap" := Num 2000000000000]> ∅)) ]};
     pages := ∅; unwritable := [] |}.

(** The provider raises on every request for [BOOM]. *)
Definition raising : Script :=
  {| histories := {[ "BOOM" := [Exc "boom"; Exc "boom"; Exc "boom"] ]};
     infos := ∅; pages := ∅; unwritable := [] |}.

(** A file of [unwritable] cannot be removed either. *)
#[export] Instance script_removal : Removal Script := {|
  disk_unlink name e :=
    (if bool_decide (name ∈ unwritable e) then Exc ("PermissionError: " +:+ name) else Ok (), e);
|}.

(** Ratios are printed as whole percents followed by [.0]. *)
#[export] Instance script_formatting : Formatting := {|
  format_percent current total := pretty (current * 100 / total) +:+ ".0";
|}.

(** The mean of the scripted volumes: they are equal whole numbers, and
    float64 holds their mean as it is. *)
#[export] Instance script_float64 : Float64 := {|
  float_mean l := Qred (foldr Qplus 0%Q l / inject_Z (Z.of_nat (length l)));
|}.

End Scenario.

(** ** Vocabulary of the properties *)

Module Vocabulary.
Import DownloadData IntegratedApp.

Section vocabulary.
Context `{!Codec} {E : Type} `{!External E}.

(** A relation between the world before and the world after, kept by every
    run of a computation. *)
Definition steps {A} (R : relation (World E)) (m : M E A) : Prop := ∀ w, R w (m w).2.

(** The events one call of [download_ticker_data] may log. *)
Definition own_event (ticker period : string) (ev : Event) : Prop :=
  ev = EvHistory ticker (Period period false) ∨ ev = EvSleep 1000 ∨ ev = EvToCsv (csv_name ticker).

(** From [w] to [w']: no file went away, and the provider was asked only
    for tickers that had no file in [w]. *)
Definition skips_cached (w w' : World E) : Prop :=
  (∀ name, is_Some (cache_dir w !! name) → is_Some (cache_dir w' !! name))
  ∧ ∃ new, log w' = log w ++ new
           ∧ ∀ symbol range, EvHistory symbol range ∈ new → cache_dir w !! csv_name symbol = None.

(** From [w] to [w']: the cache directory is as it was and nothing was
    written. *)
Definition writes_nothing (w w' : World E) : Prop :=
  cache_dir w' = cache_dir w
  ∧ ∃ new, log w' = log w ++ new ∧ Forall (λ ev, is_write ev = false) new.
End vocabulary.

(** The reason a provider answer counts as a failed fetch for: the text of
    the exception, or the script's own text for an empty frame. *)
Definition fetch_failure (r : result DataFrame) : option string :=
  match r with
  | Exc msg => Some msg
  | Ok df => if df_empty df then Some "데이터 없음" else None
  end.

(** The row [download_nasdaq_tickers] makes of a row of the first
    directory, and of a row of the second one. *)
Definition nasdaq_row (source : gmap string cell) : gmap string cell :=
  rename_row "Security Name" "Name"
    (project ["Symbol"; "Security Name"; "Market Category"; "Exchange"]
       (<["Exchange" := Str "NASDAQ"]> source)).

Definition other_row (source : gmap string cell) : gmap string cell :=
  rename_row "Security Name" "Name"
    (<["Market Category" := Str "N/A"]>
       (rename_row "ACT Symbol" "Symbol"
          (project ["ACT Symbol"; "Security Name"; "Exchange"]
             (<["Exchange" := Str "OTHER"]> source)))).

(** The rows of a directory that are no test issues. *)
Definition listed (source_rows : list (gmap string cell)) : list (gmap string cell) :=
  filter (λ source, eq_str "N" (at_ source "Test Issue") = true) source_rows.

(** The columns of the ticker list. *)
Definition ticker_keys : list string := ["Symbol"; "Name"; "Market Category"; "Exchange"].

(** The merged row of a row [l] of the ticker list and a row [s] of the
    collected information, and the same row once its name is settled. *)
Definition joined (l s : gmap string cell) : gmap string cell :=
  list_to_map [("Symbol", at_ l "Symbol"); ("Name", at_ l "Name");
               ("Market Category", at_ l "Market Category"); ("Exchange", at_ l "Exchange");
               ("Name_info", at_ s "Name"); ("Last Sale", at_ s "Last Sale");
               ("Market Cap", at_ s "Market Cap"); ("Volume", at_ s "Volume")].

Definition named (r : gmap string cell) : gmap string cell :=
  delete "Name_info" (<["Name" := fillna (at_ r "Name_info") (at_ r "Name")]> r).

(** The inner join on the symbol: one merged row for every pair of rows
    with the same symbol, in the order of the ticker list. *)
Definition inner_join (ticker_df info_df : DataFrame) : list (gmap string cell) :=
  l ← rows ticker_df;
  s ← rows info_df;
  if IntegratedApp.same_key (at_ l "Symbol") (at_ s "Symbol") then [joined l s] else [].

(** The columns of the merged frame, before and after the name is settled. *)
Definition merged_keys : list string :=
  ["Symbol"; "Name"; "Market Category"; "Exchange"; "Name_info"; "Last Sale"; "Market Cap"; "Volume"].

Definition named_keys : list string :=
  ["Symbol"; "Name"; "Market Category"; "Exchange"; "Last Sale"; "Market Cap"; "Volume"].

(** The row passes the three thresholds. *)
Definition passes (min_price min_market_cap min_volume : Q) (r : gmap string cell) : bool :=
  ge_num min_price (at_ r "Last Sale")
  && ge_num min_market_cap (at_ r "Market Cap")
  && ge_num min_volume (at_ r "Volume").

(** A cell is a number at or above the threshold. *)
Definition at_least (threshold : Q) (c : cell) : Prop :=
  ∃ x, c = Num x ∧ (threshold <= x)%Q.

(** The tickers a download run has recorded, successes first. *)
Definition recorded (acc : list string * list (string * string)) : list string :=
  acc.1 ++ acc.2.*1.

(** The batch of index [batch_idx]. *)
Definition batch_of (new_tickers : list string) (batch_size batch_idx : nat) : list string :=
  slice new_tickers (batch_idx * batch_size)
    ((batch_idx * batch_size + batch_size) `min` length new_tickers).

(** The symbols an information run has recorded, successes first. *)
Definition recorded_info (acc : list (gmap string cell) * list string) : list cell :=
  ((λ record, at_ record "Symbol") <$> acc.1) ++ (Str <$> acc.2).

(** The events of a log that show the pace of a run: the progress
    displays, the provider requests and the pauses. *)
Definition paced (ev : Event) : bool := is_progress ev || request_or_sleep ev.

(** The time a log has slept, in milliseconds, and the number of its
    provider requests. *)
Definition slept (evs : list Event) : Z :=
  foldr (λ ev total, match ev with EvSleep ms => (ms + total)%Z | _ => total end) 0%Z evs.

Definition requests (evs : list Event) : nat :=
  length (filter (λ ev, is_history ev = true) evs).

(** The pace of the download of the ticker of index [g] of [total], asked
    [k] times: its progress display, its requests one second apart, and the
    pause before the next ticker, if there is one. *)
Definition item_trace (total : nat) (period : string) (delay : Z)
    (g : nat) (ticker : string) (k : nat) : list Event :=
  EvProgress (g + 1) total
  :: spaced (EvHistory ticker (Period period false)) (EvSleep 1000) k
  ++ (if g <? total - 1 then [EvSleep delay] else []).

Definition run_trace (new_tickers : list string) (period : string) (delay : Z)
    (ks : list nat) : list Event :=
  concat (imap (λ g tk, item_trace (length new_tickers) period delay g tk.1 tk.2)
               (zip new_tickers ks)).

(** The tickers of [new_tickers] whose outcome in [oks], position by
    position, is [ok]. *)
Definition with_outcome (ok : bool) (new_tickers : list string) (oks : list bool) : list string :=
  (filter (λ item, item.2 = ok) (zip new_tickers oks)).*1.

(** Nothing but white space. *)
Fixpoint blank (s : string) : bool :=
  match s with
  | EmptyString => true
  | String c s' => is_space c && blank s'
  end.

(** A ticker as the file of tickers gives it. *)
Definition clean_ticker (t : string) : Prop :=
  t ≠ "" ∧ strip t = t ∧ upper_all t = t ∧ contains_char LF t = false.

(** A ticker that names a file of its own in the cache directory: it is
    not empty, has no [/] and is in upper case. *)
Definition plain_ticker (t : string) : Prop :=
  t ≠ "" ∧ contains_char "/" t = false ∧ upper_all t = t.

(** A frame whose rows hold nothing but its columns and its index. *)
Definition well_formed (df : DataFrame) : Prop :=
  Forall (λ r : gmap string cell,
            ∀ c, is_Some (r !! c) → c ∈ columns df ∨ index_name df = Some c)
         (rows df).

(** A date, or a missing one; and how [strftime('%Y%m%d')] prints it. *)
Definition is_date (c : cell) : Prop :=
  match c with
  | Ts _ _ _ | NA => True
  | _ => False
  end.

Definition ymd (c : cell) : cell :=
  match strftime_Ymd c with
  | Ok printed => printed
  | Exc _ => NA
  end.

(** The columns of a frame of [fetch_stock_data]. *)
Definition stock_keys : list string := ["date"; "open"; "high"; "low"; "close"; "Volume"].

(** The pause after the item of index [i] of the two loops of the
    application, in milliseconds: a second after every tenth item, a tenth
    of a second after the others. *)
Definition pause_after (i : nat) : Z := if (i + 1) mod 10 =? 0 then 1000%Z else 100%Z.

(** The pace of the download of the third tab: for every symbol its one
    request, the progress display and the pause. *)
Definition stock_trace (selected_symbols : list string) (start_date end_date : Z) : list Event :=
  concat (imap (λ i symbol, [EvHistory symbol (Between start_date end_date);
                             EvProgress (i + 1) (length selected_symbols);
                             EvSleep (pause_after i)])
               selected_symbols).

(** The events that show the pace of the collection of the second tab:
    the progress displays, the requests for information and for the recent
    history, and the pauses. *)
Definition contacts (ev : Event) : bool := paced ev || is_info ev.

(** The pace of the collection for the symbol of index [i] of [total]:
    its request for information, its request for the recent history when
    [asked], the progress display and the pause. *)
Definition info_trace (total : nat) (i : nat) (symbol : string) (asked : bool) : list Event :=
  EvInfo symbol
  :: (if asked then [EvHistory symbol (Period "5d" true)] else [])
  ++ [EvProgress (i + 1) total; EvSleep (pause_after i)].

(** A record of the collected information is the summary of what the
    provider answered for its symbol: the information [info] and, asked
    right after it, the recent history [hist]. *)
Definition summary_of `{!Float64} (symbol : string) (info : gmap string cell) (hist : DataFrame)
    (record : gmap string cell) : Prop :=
  df_empty hist = false
  ∧ at_ record "Symbol" = Str symbol
  ∧ at_ record "Name" = IntegratedApp.info_name info symbol
  ∧ at_ record "Market Cap" = default (Num 0) (info !! "marketCap")
  ∧ rbind (getitem hist "Close") iloc_last = Ok (at_ record "Last Sale")
  ∧ rbind (getitem hist "Volume") mean = Ok (at_ record "Volume")
  ∧ ∀ c, is_Some (record !! c) ↔ c ∈ IntegratedApp.info_keys.

(** A cell of a numeric column: a number, or a missing one. *)
Definition numeric (c : cell) : Prop := c = NA ∨ ∃ x, c = Num x.

(** No two rows of the frame have the same symbol. *)
Definition distinct_symbols (df : DataFrame) : Prop :=
  ∀ i j l1 l2, rows df !! i = Some l1 → rows df !! j = Some l2 →
    IntegratedApp.same_key (at_ l1 "Symbol") (at_ l2 "Symbol") = true → i = j.

(** The file of the ticker has a name the file system can hold: at most
    255 bytes, so at most 251 for the ticker.  For a longer one
    [path.exists()] raises at once, outside every [try]. *)
Definition file_name_fits (ticker : string) : Prop :=
  String.length (DownloadData.csv_name ticker) ≤ 255.

(** The world in which attempt number [k] of a call of
    [download_ticker_data] starts, when the attempts before it failed: the
    call sleeps a second after each of them. *)
Fixpoint retried `{!Codec} {E : Type} `{!External E} (ticker period : string) (k : nat)
    (w : World E) : World E :=
  match k with
  | 0 => w
  | S k' => (sleep 1000 (DownloadData.attempt_body ticker period (retried ticker period k' w)).2).2
  end.

(** The attempt fetched a frame and saved it. *)
Definition saves {A} (r : result (option A)) : bool :=
  match r with Ok (Some _) => true | _ => false end.

(** The collection of the second tab when it reaches the symbol of index
    [i]: what it has recorded so far, and the world the symbols before it
    left. *)
Definition collecting `{!Float64} {E : Type} `{!External E} (symbols : list string)
    (progress_callback : option (nat → nat → M E ())) (i : nat) (w : World E)
    : (list (gmap string cell) * list string) * World E :=
  for_each (IntegratedApp.collect_info (length symbols) progress_callback)
    (take i (enumerate symbols)) ([], []) w.

End Vocabulary.

(** * Properties *)

Import DownloadData IntegratedApp Scenario Vocabulary.

(** ** Loops *)

Section loops.
Context `{!Codec} {E : Type} `{!External E}.

(** The invariant rule of [for]: what holds of the items done so far and
    is kept by the body holds of all of them after the loop. *)
Lemma for_each_inv {A S} (body : A → S → M E S) (I : list A → S → World E → Prop) (l : list A) :
  (∀ pre x suf s w, l = pre ++ x :: suf → I pre s w →
                    I (pre ++ [x]) (body x s w).1 (body x s w).2) →
  ∀ s w, I [] s w → I l (for_each body l s w).1 (for_each body l s w).2.
Proof.
  intros Hbody.
  assert (Hgen : ∀ suf pre s w, l = pre ++ suf → I pre s w →
                   I l (for_each body suf s w).1 (for_each body suf s w).2).
  { induction suf as [|x suf IH]; intros pre s w Hl Hpre; simpl.
    - by rewrite Hl, app_nil_r.
    - unfold mbind, M_bind. specialize (Hbody pre x suf s w Hl Hpre).
      destruct (body x s w) as [s' w']. apply (IH (pre ++ [x])); [|done].
      by rewrite <-app_assoc. }
  intros s w. by apply (Hgen l []).
Qed.

Lemma enumerate_snd {A} (l : list A) : (enumerate l).*2 = l.
Proof. unfold enumerate. apply snd_zip. by rewrite length_seq. Qed.

Context (R : relation (World E)) `{!PreOrder R}.

Lemma steps_ret {A} (a : A) : steps R (mret a : M E A).
Proof. intros w. reflexivity. Qed.

Lemma steps_bind {A B} (m : M E A) (k : A → M E B) :
  steps R m → (∀ a, steps R (k a)) → steps R (m ≫= k).
Proof.
  intros Hm Hk w. unfold mbind, M_bind. specialize (Hm w).
  destruct (m w) as [a w1]. etrans; [exact Hm|apply Hk].
Qed.

Lemma steps_for_each {A S} (body : A → S → M E S) (l : list A) (s : S) :
  (∀ x s, steps R (body x s)) → steps R (for_each body l s).
Proof.
  intros Hbody. revert s. induction l as [|x l IH]; intros s; simpl.
  - apply steps_ret.
  - apply steps_bind; [apply Hbody|done].
Qed.

Lemma steps_try_ret {A} (a : A) : steps R (mret a : Try E A).
Proof. intros w. reflexivity. Qed.

Lemma steps_try_bind {A B} (m : Try E A) (k : A → Try E B) :
  steps R m → (∀ a, steps R (k a)) → steps R (m ≫= k).
Proof.
  intros Hm Hk w. unfold mbind, Try_bind. specialize (Hm w).
  destruct (m w) as [[a|msg] w1]; [|done]. etrans; [exact Hm|apply Hk].
Qed.

Lemma steps_lift {A} (r : result A) : steps R (lift r : Try E A).
Proof. intros w. reflexivity. Qed.

Lemma steps_catch {A} (body : Try E A) (handler : string → M E A) :
  steps R body → (∀ msg, steps R (handler msg)) → steps R (catch body handler).
Proof.
  intros Hbody Hhandler w. unfold catch. specialize (Hbody w).
  destruct (body w) as [[a|msg] w1]; [done|]. etrans; [exact Hbody|apply Hhandler].
Qed.
End loops.

(** ** The retry loop of [download_ticker_data] *)

Lemma spaced_requests request pause k :
  is_history request = true → is_history pause = false →
  length (filter (λ ev, is_history ev = true) (spaced request pause k)) = k.
Proof.
  intros Hr Hp. induction k as [|k IH]; [done|].
  cbn [spaced]. rewrite filter_cons_True by done. simpl. f_equal.
  destruct k as [|k]; [done|].
  rewrite filter_cons_False by (rewrite Hp; done). exact IH.
Qed.

Section download_ticker_data.
Context `{!Codec} {E : Type} `{!External E}.
Implicit Types (w : World E) (ticker period : string).

Lemma attempt_body_eq ticker period w :
  attempt_body ticker period w =
    let '(r, e1) := yf_history ticker (Period period false) (env w) in
    let w1 := {| env := e1; cache_dir := cache_dir w;
                 log := log w ++ [EvHistory ticker (Period period false)] |} in
    match r with
    | Exc msg => (Exc msg, w1)
    | Ok df =>
        if df_empty df then (Ok None, w1)
        else
          let df' := set_columns df (capitalize <$> columns df) in
          let '(saved, e2) := disk_write (csv_name ticker) (to_csv true df') e1 in
          (match saved with Ok _ => Ok (Some (df_len df')) | Exc msg => Exc msg end,
           {| env := e2;
              cache_dir := if is_ok saved then <[csv_name ticker := to_csv true df']> (cache_dir w)
                           else cache_dir w;
              log := log w ++ [EvHistory ticker (Period period false); EvToCsv (csv_name ticker)] |})
    end.
Proof.
  unfold attempt_body, mbind, Try_bind, history, write_file, mret, Try_ret.
  destruct (yf_history _ _ _) as [[df|msg] e1]; simpl; [|done].
  destruct (df_empty df); simpl; [done|].
  destruct (disk_write _ _ _) as [[[]|msg] e2]; simpl; by rewrite <-app_assoc.
Qed.

(** What one attempt adds to the log: the request, then possibly the write. *)
Lemma attempt_body_log ticker period w :
  ∃ writes, log (attempt_body ticker period w).2
            = log w ++ EvHistory ticker (Period period false) :: writes
    ∧ filter (λ ev, request_or_sleep ev = true) writes = [].
Proof.
  rewrite attempt_body_eq.
  destruct (yf_history _ _ _) as [[df|msg] e1]; simpl; [|by exists []].
  destruct (df_empty df); simpl; [by exists []|].
  destruct (disk_write _ _ _) as [saved e2]; simpl.
  by exists [EvToCsv (csv_name ticker)].
Qed.

Lemma attempts_loop_trace n : ∀ a ticker period w,
  a + n = 3 → 0 < n →
  ∃ new k,
    log (attempts_loop (seq a n) ticker period w).2 = log w ++ new
    ∧ 1 ≤ k ≤ n
    ∧ filter (λ ev, request_or_sleep ev = true) new
      = spaced (EvHistory ticker (Period period false)) (EvSleep 1000) k.
Proof.
  induction n as [|n IH]; intros a ticker period w Ha Hn; [lia|].
  cbn [seq attempts_loop]. unfold mbind at 1, M_bind at 1, try_.
  destruct (attempt_body_log ticker period w) as (writes & Hlog & Hwrites).
  destruct (attempt_body ticker period w) as [r w1]; simpl in Hlog.
  assert (Hone : ∃ new k, log w1 = log w ++ new ∧ 1 ≤ k ≤ S n
    ∧ filter (λ ev, request_or_sleep ev = true) new
      = spaced (EvHistory ticker (Period period false)) (EvSleep 1000) k).
  { exists (EvHistory ticker (Period period false) :: writes), 1.
    split; [done|]. split; [lia|].
    rewrite filter_cons_True by done. by rewrite Hwrites. }
  assert (Hagain : (a <? 2) = true →
    ∃ new k, log ((sleep 1000;; attempts_loop (seq (S a) n) ticker period) w1).2 = log w ++ new
      ∧ 1 ≤ k ≤ S n
      ∧ filter (λ ev, request_or_sleep ev = true) new
        = spaced (EvHistory ticker (Period period false)) (EvSleep 1000) k).
  { intros Hlt%Nat.ltb_lt.
    unfold mbind, M_bind, sleep.
    edestruct (IH (S a) ticker period) as (new & k & Hnew & Hk & Hshape); [lia|lia|].
    rewrite Hnew. simpl. rewrite Hlog.
    exists ((EvHistory ticker (Period period false) :: writes) ++ [EvSleep 1000] ++ new), (S k).
    split; [by rewrite <-!app_assoc|]. split; [lia|].
    rewrite !filter_app, filter_cons_True by done. rewrite Hwrites, Hshape.
    destruct k as [|k]; [lia|]. done. }
  destruct r as [[rows|]|msg]; simpl; [done| |];
    (destruct (a <? 2) eqn:Hlt; [by apply Hagain|done]).
Qed.

Lemma history_of_requests (new : list Event) :
  filter (λ ev, is_history ev = true) (filter (λ ev, request_or_sleep ev = true) new)
  = filter (λ ev, is_history ev = true) new.
Proof.
  induction new as [|ev new IH]; [done|].
  destruct ev; rewrite ?filter_cons_True, ?filter_cons_False by (by compute);
    rewrite ?filter_cons_True, ?filter_cons_False by (by compute); by rewrite ?IH.
Qed.

Lemma download_ticker_data_cached ticker period w :
  is_Some (cache_dir w !! csv_name ticker) →
  download_ticker_data ticker period w = ((true, "이미 다운로드됨"), w).
Proof.
  intros Hfile. unfold download_ticker_data, mbind, M_bind, exists_.
  by rewrite bool_decide_eq_true_2.
Qed.

Lemma download_ticker_data_fresh ticker period w :
  cache_dir w !! csv_name ticker = None →
  download_ticker_data ticker period w = attempts_loop (seq 0 3) ticker period w.
Proof.
  intros Hfile. unfold download_ticker_data, mbind, M_bind, exists_.
  rewrite bool_decide_eq_false_2; [done|]. rewrite Hfile. by intros [? ?].
Qed.

Lemma first_attempt_succeeds ticker period w df e1 e2 :
  let df' := set_columns df (capitalize <$> columns df) in
  cache_dir w !! csv_name ticker = None →
  yf_history ticker (Period period false) (env w) = (Ok df, e1) →
  df_empty df = false →
  disk_write (csv_name ticker) (to_csv true df') e1 = (Ok (), e2) →
  download_ticker_data ticker period w
  = ((true, pretty (df_len df') +:+ "개 데이터"),
     {| env := e2;
        cache_dir := <[csv_name ticker := to_csv true df']> (cache_dir w);
        log := log w ++ [EvHistory ticker (Period period false); EvToCsv (csv_name ticker)] |}).
Proof.
  intros df' Hfile Hfetch Hdata Hsave. rewrite download_ticker_data_fresh by done.
  cbn [seq attempts_loop]. unfold mbind at 1, M_bind at 1, try_.
  rewrite attempt_body_eq, Hfetch, Hdata. simpl. fold df'. by rewrite Hsave.
Qed.

Lemma attempts_loop_cons attempt rest ticker period w :
  attempts_loop (attempt :: rest) ticker period w =
    let '(r, w1) := attempt_body ticker period w in
    match r with
    | Ok (Some n) => ((true, pretty n +:+ "개 데이터"), w1)
    | Ok None =>
        if attempt <? 2 then (sleep 1000;; attempts_loop rest ticker period) w1
        else ((false, "데이터 없음"), w1)
    | Exc msg =>
        if attempt <? 2 then (sleep 1000;; attempts_loop rest ticker period) w1
        else ((false, msg), w1)
    end.
Proof.
  cbn [attempts_loop]. unfold mbind at 1, M_bind at 1, try_.
  destruct (attempt_body ticker period w) as [[[n|]|msg] w1]; try done;
    by destruct (attempt <? 2).
Qed.

(** What the retry loop does to the world: it logs only its own requests,
    sleeps and writes; it leaves the cache directory as it was when it
    fails, and with its own file written when it succeeds. *)
Lemma attempts_loop_effects attempts : ∀ ticker period w,
  let res := attempts_loop attempts ticker period w in
  (∃ new, log res.2 = log w ++ new ∧ Forall (own_event ticker period) new)
  ∧ (res.1.1 = true → ∃ text, cache_dir res.2 = <[csv_name ticker := text]> (cache_dir w))
  ∧ (res.1.1 = false → cache_dir res.2 = cache_dir w).
Proof.
  induction attempts as [|attempt rest IH]; intros ticker period w; cbn zeta.
  - simpl. split_and!; [|done|done]. exists []. by rewrite app_nil_r.
  - rewrite attempts_loop_cons, attempt_body_eq.
    assert (Hretry : ∀ w1 evs,
              cache_dir w1 = cache_dir w → log w1 = log w ++ evs →
              Forall (own_event ticker period) evs →
              let res := (sleep 1000;; attempts_loop rest ticker period) w1 in
              (∃ new, log res.2 = log w ++ new ∧ Forall (own_event ticker period) new)
              ∧ (res.1.1 = true → ∃ text, cache_dir res.2 = <[csv_name ticker := text]> (cache_dir w))
              ∧ (res.1.1 = false → cache_dir res.2 = cache_dir w)).
    { intros w1 evs Hdir Hlog Hevs. cbn zeta. unfold mbind, M_bind, sleep. cbn beta iota.
      match goal with |- context [attempts_loop rest ticker period ?w2] =>
        destruct (IH ticker period w2) as ((new & Hnew & Hown) & Hok & Hfail) end.
      cbn [cache_dir log] in Hnew, Hok, Hfail. split_and!;
        [|intros Hres; destruct (Hok Hres) as [text Htext]; exists text; by rewrite Htext, Hdir
         |intros Hres; by rewrite (Hfail Hres)].
      exists (evs ++ [EvSleep 1000] ++ new). split.
      - rewrite Hnew, Hlog. by rewrite <-!app_assoc.
      - rewrite !Forall_app. split_and!; [done| |done].
        apply Forall_singleton. right. by left. }
    assert (Hreq : own_event ticker period (EvHistory ticker (Period period false))) by by left.
    assert (Hwr : own_event ticker period (EvToCsv (csv_name ticker))) by (right; by right).
    destruct (yf_history _ _ _) as [[df|msg] e1]; simpl.
    + destruct (df_empty df); simpl.
      * destruct (attempt <? 2).
        -- apply (Hretry _ [EvHistory ticker (Period period false)]); [done|done|by apply Forall_singleton].
        -- simpl. split_and!; [|done|done]. eexists. split; [done|]. by apply Forall_singleton.
      * destruct (disk_write _ _ _) as [[[]|msg] e2]; simpl.
        -- split_and!; [|eauto|done]. eexists. split; [done|]. by repeat constructor.
        -- destruct (attempt <? 2).
           ++ apply (Hretry _ [EvHistory ticker (Period period false); EvToCsv (csv_name ticker)]);
                [done|done|by repeat constructor].
           ++ simpl. split_and!; [|done|done]. eexists. split; [done|]. by repeat constructor.
    + destruct (attempt <? 2).
      * apply (Hretry _ [EvHistory ticker (Period period false)]); [done|done|by apply Forall_singleton].
      * simpl. split_and!; [|done|done]. eexists. split; [done|]. by apply Forall_singleton.
Qed.

(** What one call does to the world: the same, and nothing at all when
    the file of the ticker is already there. *)
Lemma download_ticker_data_effects ticker period w :
  let res := download_ticker_data ticker period w in
  (∃ new, log res.2 = log w ++ new ∧ Forall (own_event ticker period) new
          ∧ (is_Some (cache_dir w !! csv_name ticker) → new = []))
  ∧ (res.1.1 = true → cache_dir w !! csv_name ticker = None →
     ∃ text, cache_dir res.2 = <[csv_name ticker := text]> (cache_dir w))
  ∧ (res.1.1 = false ∨ is_Some (cache_dir w !! csv_name ticker) → cache_dir res.2 = cache_dir w).
Proof.
  destruct (cache_dir w !! csv_name ticker) as [text|] eqn:Hfile.
  - rewrite download_ticker_data_cached by (by rewrite Hfile). cbn zeta.
    split_and!; [|done|done]. exists []. by rewrite app_nil_r.
  - unfold download_ticker_data, mbind, M_bind, exists_.
    rewrite bool_decide_eq_false_2 by (rewrite Hfile; by intros [? ?]).
    destruct (attempts_loop_effects (seq 0 3) ticker period w) as ((new & Hnew & Hown) & Hok & Hfail).
    cbn zeta. split_and!.
    + exists new. split_and!; [done|done|]. by intros [? ?].
    + intros Hres _. by apply Hok.
    + intros [Hres|[? ?]]; [by apply Hfail|done].
Qed.

(** A failed fetch ends the attempt with the world changed by the request
    only. *)
Lemma attempt_body_failure ticker period w r e1 reason :
  yf_history ticker (Period period false) (env w) = (r, e1) →
  fetch_failure r = Some reason →
  attempt_body ticker period w
  = (match r with Exc msg => Exc msg | Ok _ => Ok None end,
     {| env := e1; cache_dir := cache_dir w;
        log := log w ++ [EvHistory ticker (Period period false)] |}).
Proof.
  intros Hfetch Hfailure. rewrite attempt_body_eq, Hfetch.
  destruct r as [df|msg]; [|done]. simpl in Hfailure. by destruct (df_empty df).
Qed.

(** A failed attempt is followed by the pause and the next attempt, or,
    for the last attempt, ends the call with its own reason. *)
Lemma attempts_loop_failed attempt rest ticker period w r e1 reason :
  let request := EvHistory ticker (Period period false) in
  yf_history ticker (Period period false) (env w) = (r, e1) →
  fetch_failure r = Some reason →
  attempts_loop (attempt :: rest) ticker period w
  = if attempt <? 2 then
      attempts_loop rest ticker period
        {| env := elapse 1000 e1; cache_dir := cache_dir w;
           log := log w ++ [request; EvSleep 1000] |}
    else ((false, reason), {| env := e1; cache_dir := cache_dir w; log := log w ++ [request] |}).
Proof.
  intros request Hfetch Hfailure.
  rewrite attempts_loop_cons, (attempt_body_failure _ _ w r e1 reason) by done.
  unfold mbind, M_bind, sleep. cbn [env cache_dir log]. rewrite <-app_assoc.
  destruct r as [df|msg]; simpl in Hfailure.
  - destruct (df_empty df); [|done]. by injection Hfailure as <-.
  - by injection Hfailure as <-.
Qed.

(** Three failed fetches in a row: the answer carries the reason of the
    third, and the statement after the loop is not reached. *)
Lemma three_failures ticker period w r1 e1 m1 r2 e2 m2 r3 e3 m3 :
  let request := EvHistory ticker (Period period false) in
  cache_dir w !! csv_name ticker = None →
  yf_history ticker (Period period false) (env w) = (r1, e1) →
  fetch_failure r1 = Some m1 →
  yf_history ticker (Period period false) (elapse 1000 e1) = (r2, e2) →
  fetch_failure r2 = Some m2 →
  yf_history ticker (Period period false) (elapse 1000 e2) = (r3, e3) →
  fetch_failure r3 = Some m3 →
  download_ticker_data ticker period w
  = ((false, m3),
     {| env := e3; cache_dir := cache_dir w;
        log := log w ++ [request; EvSleep 1000; request; EvSleep 1000; request] |}).
Proof.
  intros request Hfile Hfetch1 Hfail1 Hfetch2 Hfail2 Hfetch3 Hfail3.
  rewrite download_ticker_data_fresh by done. cbn [seq].
  rewrite (attempts_loop_failed 0 _ _ _ w r1 e1 m1) by done.
  rewrite (attempts_loop_failed 1 _ _ _ _ r2 e2 m2) by done.
  rewrite (attempts_loop_failed 2 _ _ _ _ r3 e3 m3) by done.
  cbn [Nat.ltb Nat.leb env cache_dir log]. by rewrite <-!app_assoc.
Qed.

(** C2: whatever the provider and the disk do, one call of
    [download_ticker_data] requests the history at most 3 times, always
    for its own ticker and period, with exactly one sleep of 1 second
    between two consecutive requests and no other sleep; when the first
    attempt succeeds (the file is not cached, the provider answers a
    non-empty frame and the frame is saved) it requests it exactly once. *)
Theorem retry_at_most_three_attempts ticker period w :
  ∃ new k,
    log (download_ticker_data ticker period w).2 = log w ++ new
    ∧ k ≤ 3
    ∧ filter (λ ev, request_or_sleep ev = true) new
      = spaced (EvHistory ticker (Period period false)) (EvSleep 1000) k
    ∧ length (filter (λ ev, is_history ev = true) new) = k
    ∧ (∀ df e1 e2,
         cache_dir w !! csv_name ticker = None →
         yf_history ticker (Period period false) (env w) = (Ok df, e1) →
         df_empty df = false →
         disk_write (csv_name ticker)
           (to_csv true (set_columns df (capitalize <$> columns df))) e1 = (Ok (), e2) →
         k = 1 ∧ (download_ticker_data ticker period w).1.1 = true).
Proof.
  destruct (cache_dir w !! csv_name ticker) as [text|] eqn:Hfile.
  - rewrite download_ticker_data_cached by (by rewrite Hfile).
    exists [], 0. simpl. rewrite app_nil_r. split_and!; [done|lia|done|done|congruence].
  - rewrite download_ticker_data_fresh by done.
    destruct (attempts_loop_trace 3 0 ticker period w) as (new & k & Hlog & Hk & Hshape);
      [done|lia|].
    assert (Hcount : length (filter (λ ev, is_history ev = true) new) = k).
    { rewrite <-history_of_requests, Hshape. by apply spaced_requests. }
    exists new, k. split_and!; [done|lia|done|done|].
    intros df e1 e2 _ Hfetch Hdata Hsave. rewrite <-Hcount.
    rewrite <-download_ticker_data_fresh in Hlog |- * by done.
    rewrite (first_attempt_succeeds _ _ _ _ _ _ Hfile Hfetch Hdata Hsave) in Hlog |- *.
    simpl in Hlog. by apply app_inv_head in Hlog as <-.
Qed.
End download_ticker_data.

Lemma retry_at_most_three_attempts_witness :
  ∃ new, log (download_ticker_data "AAPL" "8y" (world aapl_and_badticker ∅)).2 = new
         ∧ length (filter (λ ev, is_history ev = true) new) = 1.
Proof.
  destruct (retry_at_most_three_attempts "AAPL" "8y" (world aapl_and_badticker ∅))
    as (new & k & Hlog & _ & _ & Hcount & Hfirst).
  exists new. split; [exact Hlog|]. rewrite Hcount.
  eapply (Hfirst (prices 250)); reflexivity.
Defined.

(** ** File names of the cache directory *)

Section file_names.
Lemma append_nil_l (s : string) : "" +:+ s = s.
Proof. done. Qed.

Lemma append_cons (c : ascii) (s1 s2 : string) : String c s1 +:+ s2 = String c (s1 +:+ s2).
Proof. done. Qed.

Lemma length_append (s1 s2 : string) :
  String.length (s1 +:+ s2) = String.length s1 + String.length s2.
Proof.
  induction s1 as [|c s1 IH]; [done|]. rewrite append_cons. simpl. by rewrite IH.
Qed.

Lemma substring_all (s : string) : String.substring 0 (String.length s) s = s.
Proof. induction s as [|c s IH]; simpl; [done|by rewrite IH]. Qed.

Lemma substring_append_r (s1 s2 : string) :
  String.substring (String.length s1) (String.length s2) (s1 +:+ s2) = s2.
Proof.
  induction s1 as [|c s1 IH]; [by rewrite append_nil_l, substring_all|].
  rewrite append_cons. simpl. exact IH.
Qed.

Lemma substring_append_l (s1 s2 : string) :
  String.substring 0 (String.length s1) (s1 +:+ s2) = s1.
Proof.
  induction s1 as [|c s1 IH]; [rewrite append_nil_l; by destruct s2|].
  rewrite append_cons. simpl. by rewrite IH.
Qed.

Lemma rfind_dot_csv_name (ticker : string) :
  rfind_dot (csv_name ticker) = Some (String.length ticker).
Proof.
  unfold csv_name. induction ticker as [|c ticker IH]; [done|].
  rewrite append_cons. simpl. by rewrite IH.
Qed.

Lemma stem_csv_name (ticker : string) : ticker ≠ "" → stem (csv_name ticker) = ticker.
Proof.
  intros Hne. unfold stem. rewrite rfind_dot_csv_name.
  unfold csv_name. rewrite length_append.
  destruct ticker as [|c ticker]; [done|].
  replace (0 <? String.length (String c ticker)) with true by done.
  replace (String.length (String c ticker) <? String.length (String c ticker) + String.length ".csv" - 1)
    with true by (symmetry; apply Nat.ltb_lt; simpl; lia).
  cbn [andb]. apply substring_append_l.
Qed.

Lemma contains_char_append (c : ascii) (s1 s2 : string) :
  contains_char c (s1 +:+ s2) = contains_char c s1 || contains_char c s2.
Proof.
  induction s1 as [|c' s1 IH]; [done|].
  rewrite append_cons. simpl. by rewrite IH, orb_assoc.
Qed.

Lemma is_csv_csv_name (ticker : string) :
  contains_char "/" ticker = false → is_csv (csv_name ticker) = true.
Proof.
  intros Hslash. unfold is_csv, endswith, csv_name.
  rewrite contains_char_append, Hslash, length_append.
  replace (String.length ticker + String.length ".csv" - String.length ".csv")
    with (String.length ticker) by lia.
  rewrite (substring_append_r ticker ".csv"), bool_decide_eq_true_2 by done.
  by rewrite (proj2 (Nat.leb_le _ _)) by lia.
Qed.

Lemma elem_of_glob_csv (dir : gmap string string) (name : string) :
  name ∈ glob_csv dir ↔ is_Some (dir !! name) ∧ is_csv name = true.
Proof.
  unfold glob_csv. rewrite list_elem_of_filter, list_elem_of_fmap. split.
  - intros [Hcsv ([name' text] & -> & Hin%elem_of_map_to_list)]. eauto.
  - intros [[text Hin] Hcsv]. split; [done|]. exists (name, text).
    split; [done|]. by apply elem_of_map_to_list.
Qed.
End file_names.

(** ** Cached tickers are skipped *)

Section cached.
Context `{!Codec} {E : Type} `{!External E}.
Implicit Types (w : World E) (ticker period : string).

Lemma skips_cached_preorder : PreOrder (@skips_cached E).
Proof.
  split.
  - intros w. split; [done|]. exists []. rewrite app_nil_r. split; [done|].
    intros symbol range Hin. by apply elem_of_nil in Hin.
  - intros w1 w2 w3 [Hdir12 (new12 & Hlog12 & Hnew12)] [Hdir23 (new23 & Hlog23 & Hnew23)].
    split; [by eauto|]. exists (new12 ++ new23). split.
    + by rewrite Hlog23, Hlog12, app_assoc.
    + intros symbol range [Hin|Hin]%elem_of_app; [by eauto|].
      apply Hnew23 in Hin. destruct (cache_dir w1 !! csv_name symbol) eqn:Hfile; [|done].
      destruct (Hdir12 (csv_name symbol)) as [text Htext]; [by rewrite Hfile|congruence].
Qed.

#[local] Existing Instance skips_cached_preorder.

Lemma emit_skips_cached ev : is_history ev = false → steps (E:=E) skips_cached (emit ev).
Proof.
  intros Hev w. split; [done|]. exists [ev]. split; [done|].
  intros symbol range <-%list_elem_of_singleton. done.
Qed.

Lemma sleep_skips_cached ms : steps (E:=E) skips_cached (sleep ms).
Proof.
  intros w. split; [done|]. exists [EvSleep ms]. split; [done|].
  intros symbol range [=]%list_elem_of_singleton.
Qed.

Lemma download_ticker_data_skips_cached ticker period :
  steps (E:=E) skips_cached (download_ticker_data ticker period).
Proof.
  intros w.
  destruct (download_ticker_data_effects ticker period w) as ((new & Hnew & Hown & Hcached) & Hok & Hsame).
  cbn zeta in *. split.
  - intros name Hname.
    destruct (download_ticker_data ticker period w) as [[[] reason] w1]; cbn [fst snd] in *.
    + destruct (cache_dir w !! csv_name ticker) as [text|] eqn:Hfile.
      * rewrite Hsame; [done|]. right. eauto.
      * destruct Hok as [text ->]; [done|done|].
        destruct (decide (csv_name ticker = name)) as [->|Hne].
        -- rewrite lookup_insert_eq. eauto.
        -- by rewrite lookup_insert_ne.
    + rewrite Hsame; [done|by left].
  - exists new. split; [done|]. intros symbol range Hin.
    destruct (cache_dir w !! csv_name symbol) as [text|] eqn:Hfile; [|done].
    rewrite Forall_forall in Hown. destruct (Hown _ Hin) as [[= -> _]|[[=]|[=]]].
    rewrite Hcached in Hin; [by apply elem_of_nil in Hin|by rewrite Hfile].
Qed.

Lemma run_download_skips_cached new_tickers period batch_size delay :
  steps (E:=E) skips_cached (run_download new_tickers period batch_size delay).
Proof.
  unfold run_download. apply steps_bind; [apply _| |].
  - apply steps_for_each; [apply _|]. intros batch_idx acc. unfold download_batch.
    apply steps_bind; [apply _|by apply emit_skips_cached|]. intros _.
    apply steps_for_each; [apply _|]. intros [i ticker] acc'. unfold download_item.
    apply steps_bind; [apply _|by apply emit_skips_cached|]. intros _.
    apply steps_bind; [apply _|by apply emit_skips_cached|]. intros _.
    apply steps_bind; [apply _|apply download_ticker_data_skips_cached|]. intros [ok result].
    apply steps_bind; [apply _| |].
    + destruct ok; (apply steps_bind; [apply _|by apply emit_skips_cached|]);
        intros _; apply steps_ret; apply _.
    + intros acc''. apply steps_bind; [apply _| |].
      * destruct (_ <? _); [apply sleep_skips_cached|apply steps_ret; apply _].
      * intros _. apply steps_ret; apply _.
  - intros acc. apply steps_bind; [apply _|by apply emit_skips_cached|].
    intros _. apply steps_ret; apply _.
Qed.

(** C4: when the file of a ticker is in the cache directory, whatever its
    content, [download_ticker_data] answers success at once and leaves
    the world as it is (no request, no sleep, no write); a whole download
    run started in that world never asks the provider for that ticker;
    and [main] does not even select it (a ticker with a name and no [/]). *)
Theorem cached_ticker_is_never_fetched w ticker :
  is_Some (cache_dir w !! csv_name ticker) →
  (∀ period, download_ticker_data ticker period w = ((true, "이미 다운로드됨"), w))
  ∧ (∀ tickers period batch_size delay,
       ∃ new, log (run_download tickers period batch_size delay w).2 = log w ++ new
              ∧ ∀ range, EvHistory ticker range ∉ new)
  ∧ (ticker ≠ "" → contains_char "/" ticker = false →
     ∀ mode all_tickers, ticker ∉ new_tickers mode all_tickers w).
Proof.
  intros Hfile. split_and!.
  - intros period. by apply download_ticker_data_cached.
  - intros tickers period batch_size delay.
    destruct (run_download_skips_cached tickers period batch_size delay w)
      as [_ (new & Hnew & Hasked)].
    exists new. split; [done|]. intros range Hin.
    apply Hasked in Hin. rewrite Hin in Hfile. by destruct Hfile.
  - intros Hname Hslash mode all_tickers. unfold new_tickers.
    rewrite list_elem_of_filter. intros [Hnew _]. apply Hnew.
    unfold existing_tickers. rewrite <-(stem_csv_name ticker Hname).
    apply list_elem_of_fmap_2, elem_of_glob_csv. split; [done|by apply is_csv_csv_name].
Qed.
End cached.

Lemma cached_ticker_is_never_fetched_witness :
  let w := world aapl_and_badticker {[ "AAPL.csv" := "Date,Open" ]} in
  is_Some (cache_dir w !! csv_name "AAPL")
  ∧ download_ticker_data "AAPL" "8y" w = ((true, "이미 다운로드됨"), w)
  ∧ "AAPL" ∉ new_tickers Everything ["AAPL"; "MSFT"] w.
Proof.
  intros w. assert (Hfile : is_Some (cache_dir w !! csv_name "AAPL")) by (by eexists).
  destruct (cached_ticker_is_never_fetched w "AAPL" Hfile) as (Hskip & _ & Hselect).
  split_and!; [done|apply Hskip|by apply Hselect].
Defined.

(** ** Every symbol of a batch is recorded *)

Section run_download.
Context `{!Codec} {E : Type} `{!External E}.
Implicit Types (w : World E) (ticker period : string).

Lemma download_item_recorded total batch_start period delay i ticker acc w :
  recorded (download_item total batch_start period delay (i, ticker) acc w).1
  ≡ₚ recorded acc ++ [ticker].
Proof.
  unfold download_item, mbind, M_bind, emit. cbn beta iota.
  destruct (download_ticker_data _ _ _) as [[ok result] w1].
  destruct ok; cbn beta iota; destruct (_ <? _); unfold recorded; simpl;
    rewrite ?fmap_app; simpl; solve_Permutation.
Qed.

Lemma batch_recorded total batch_start period delay batch acc w :
  recorded (for_each (download_item total batch_start period delay) (enumerate batch) acc w).1
  ≡ₚ recorded acc ++ batch.
Proof.
  rewrite <-(enumerate_snd batch) at 2.
  apply (for_each_inv _ (λ pre acc' _, recorded acc' ≡ₚ recorded acc ++ pre.*2)).
  - intros pre [i ticker] suf acc' w' _ Hpre.
    rewrite download_item_recorded, Hpre, fmap_app. simpl. by rewrite <-app_assoc.
  - simpl. by rewrite app_nil_r.
Qed.

(** The first [k] batches are the first [k * batch_size] tickers. *)
Lemma batches_take (new_tickers : list string) batch_size k :
  concat (batch_of new_tickers batch_size <$> seq 0 k) = take (k * batch_size) new_tickers.
Proof.
  induction k as [|k IH]; [done|].
  rewrite seq_S, fmap_app, concat_app, IH. simpl. rewrite app_nil_r.
  unfold batch_of, slice. rewrite take_take_drop.
  destruct (decide (k * batch_size + batch_size ≤ length new_tickers)) as [Hle|Hgt].
  - f_equal. lia.
  - rewrite (take_ge _ (batch_size + k * batch_size)) by lia. apply take_ge. lia.
Qed.

Lemma batches_cover (new_tickers : list string) batch_size :
  1 ≤ batch_size →
  concat (batch_of new_tickers batch_size
            <$> seq 0 ((length new_tickers + batch_size - 1) / batch_size))
  = new_tickers.
Proof.
  intros Hsize. rewrite batches_take. apply take_ge.
  pose proof (Nat.div_mod (length new_tickers + batch_size - 1) batch_size) as Hdiv.
  pose proof (Nat.mod_upper_bound (length new_tickers + batch_size - 1) batch_size) as Hmod.
  nia.
Qed.

Lemma download_batch_recorded total_batches batch_size new_tickers period delay batch_idx acc w :
  recorded (download_batch total_batches batch_size new_tickers period delay batch_idx acc w).1
  ≡ₚ recorded acc ++ batch_of new_tickers batch_size batch_idx.
Proof.
  unfold download_batch, mbind, M_bind, emit. cbn beta iota. apply batch_recorded.
Qed.

(** The two lists of a run hold the tickers of the run, each as often as
    the run was given it. *)
Lemma run_download_recorded new_tickers period batch_size delay w :
  1 ≤ batch_size →
  recorded (run_download new_tickers period batch_size delay w).1 ≡ₚ new_tickers.
Proof.
  intros Hsize. unfold run_download.
  set (total_batches := (length new_tickers + batch_size - 1) / batch_size).
  assert (Hinv : recorded (for_each (download_batch total_batches batch_size new_tickers period delay)
                   (seq 0 total_batches) ([], []) w).1
                 ≡ₚ concat (batch_of new_tickers batch_size <$> seq 0 total_batches)).
  { apply (for_each_inv _ (λ pre acc _,
      recorded acc ≡ₚ concat (batch_of new_tickers batch_size <$> pre))); [|done].
    intros pre batch_idx suf acc' w' _ Hpre.
    rewrite download_batch_recorded, Hpre, fmap_app, concat_app. simpl. by rewrite app_nil_r. }
  unfold total_batches in Hinv at 2. rewrite batches_cover in Hinv by done.
  unfold mbind at 1, M_bind at 1. by destruct (for_each _ _ _ w) as [acc w1].
Qed.
End run_download.

Section get_ticker_info_batch.
Context `{!Codec} `{!Float64} {E : Type} `{!External E}.
Implicit Types (w : World E) (symbol : string).

Lemma ticker_summary_symbol symbol w record w1 :
  ticker_summary symbol w = (Ok (Some record), w1) → at_ record "Symbol" = Str symbol.
Proof.
  unfold ticker_summary, mbind, Try_bind, info, history, lift, mret, Try_ret.
  destruct (yf_info _ _) as [[i|msg] e1]; cbn beta iota; [|done].
  destruct (yf_history _ _ _) as [[hist|msg] e2]; cbn beta iota; [|done].
  destruct (df_empty hist); cbn beta iota; [done|].
  destruct (getitem hist "Close") as [close|msg]; cbn beta iota; [|done].
  destruct (iloc_last close) as [last_price|msg]; cbn beta iota; [|done].
  destruct (getitem hist "Volume") as [volume|msg]; cbn beta iota; [|done].
  destruct (mean volume) as [avg_volume|msg]; cbn beta iota; [|done].
  intros [= <- _]. unfold at_. by rewrite lookup_insert_eq.
Qed.

Lemma collect_info_recorded total callback i symbol acc w :
  recorded_info (collect_info total callback (i, symbol) acc w).1
  ≡ₚ recorded_info acc ++ [Str symbol].
Proof.
  unfold collect_info.
  match goal with |- context [mbind _ ?c] => set (collected := c) end.
  assert (Hfst : ∀ (m1 m2 : M E ()),
            ((acc' ← collected; m1;; m2;; mret acc') w).1 = (collected w).1).
  { intros m1 m2. unfold mbind, M_bind. destruct (collected w) as [acc' w1].
    destruct (m1 w1) as [[] w2]. by destruct (m2 w2) as [[] w3]. }
  rewrite Hfst. unfold collected, catch, mbind, Try_bind.
  destruct (ticker_summary symbol w) as [[[record|]|msg] w1] eqn:Hsummary;
    unfold recorded_info; simpl; rewrite fmap_app; simpl;
    [apply ticker_summary_symbol in Hsummary as ->| |]; solve_Permutation.
Qed.

Lemma get_ticker_info_batch_recorded symbols callback w :
  let '(info_df, failed_tickers) := (get_ticker_info_batch symbols callback w).1 in
  ((λ record, at_ record "Symbol") <$> rows info_df) ++ (Str <$> failed_tickers)
  ≡ₚ Str <$> symbols.
Proof.
  unfold get_ticker_info_batch.
  assert (Hinv : recorded_info (for_each (collect_info (length symbols) callback)
                   (enumerate symbols) ([], []) w).1 ≡ₚ Str <$> symbols).
  { rewrite <-(enumerate_snd symbols) at 3.
    apply (for_each_inv _ (λ pre acc _, recorded_info acc ≡ₚ Str <$> pre.*2)); [|done].
    intros pre [i symbol] suf acc' w' _ Hpre.
    by rewrite collect_info_recorded, Hpre, !fmap_app. }
  unfold mbind at 1, M_bind at 1. by destruct (for_each _ _ _ w) as [acc w1].
Qed.
End get_ticker_info_batch.

(** X24: over distinct symbols, each of the two batch runners records every
    symbol in exactly one of its two collections: the collections together
    are a rearrangement of the input without repetition, so their sizes add
    up to the number of symbols.  This holds in every world, whatever the
    provider and the disk do: no failed fetch or write ends the run before
    the last symbol.  For the download run the tickers are such that their
    files have names the file system can hold: [path.exists()] stands
    outside the [try] and raises for another one, which ends the run
    there; the collection of the second tab has no such limit. *)
Theorem every_symbol_recorded_exactly_once `{!Codec} `{!Float64} {E : Type} `{!External E}
    (w : World E) :
  (∀ new_tickers period batch_size delay,
     1 ≤ batch_size → NoDup new_tickers → Forall file_name_fits new_tickers →
     let '(success_list, fail_list) := (run_download new_tickers period batch_size delay w).1 in
     success_list ++ fail_list.*1 ≡ₚ new_tickers
     ∧ NoDup (success_list ++ fail_list.*1)
     ∧ length success_list + length fail_list = length new_tickers
     ∧ ∀ ticker, ticker ∈ new_tickers →
         (ticker ∈ success_list ∧ ticker ∉ fail_list.*1)
         ∨ ((ticker ∉ success_list) ∧ ticker ∈ fail_list.*1))
  ∧ (∀ symbols progress_callback,
       NoDup symbols →
       let '(info_df, failed_tickers) := (get_ticker_info_batch symbols progress_callback w).1 in
       let succeeded := (λ record, at_ record "Symbol") <$> rows info_df in
       succeeded ++ (Str <$> failed_tickers) ≡ₚ Str <$> symbols
       ∧ NoDup (succeeded ++ (Str <$> failed_tickers))
       ∧ length (rows info_df) + length failed_tickers = length symbols
       ∧ ∀ symbol, symbol ∈ symbols →
           (Str symbol ∈ succeeded ∧ symbol ∉ failed_tickers)
           ∨ ((Str symbol ∉ succeeded) ∧ symbol ∈ failed_tickers)).
Proof.
  split.
  - intros new_tickers period batch_size delay Hsize Hdistinct _.
    pose proof (run_download_recorded new_tickers period batch_size delay w Hsize) as Hperm.
    destruct (run_download _ _ _ _ w).1 as [success_list fail_list]. unfold recorded in Hperm.
    simpl in Hperm. assert (Hnodup : NoDup (success_list ++ fail_list.*1)) by by rewrite Hperm.
    split_and!; [done|done| |].
    + by rewrite <-Hperm, length_app, length_fmap.
    + intros ticker Hin. rewrite <-Hperm in Hin.
      apply NoDup_app in Hnodup as (_ & Hdisjoint & _).
      apply elem_of_app in Hin as [Hin|Hin]; [left; by eauto|right].
      split; [|done]. intros Hin'. by apply (Hdisjoint ticker).
  - intros symbols progress_callback Hdistinct.
    pose proof (get_ticker_info_batch_recorded symbols progress_callback w) as Hperm.
    destruct (get_ticker_info_batch _ _ w).1 as [info_df failed_tickers]. cbn zeta.
    set (succeeded := (λ record, at_ record "Symbol") <$> rows info_df) in *.
    assert (Hnodup : NoDup (succeeded ++ (Str <$> failed_tickers))).
    { rewrite Hperm. apply NoDup_fmap_2; [|done]. by intros s1 s2 [=]. }
    split_and!; [done|done| |].
    + apply Permutation_length in Hperm.
      rewrite length_app, !length_fmap in Hperm. unfold succeeded in Hperm.
      by rewrite length_fmap in Hperm.
    + intros symbol Hin.
      assert (Hin' : Str symbol ∈ succeeded ++ (Str <$> failed_tickers)).
      { rewrite Hperm. by apply list_elem_of_fmap_2. }
      apply NoDup_app in Hnodup as (_ & Hdisjoint & _).
      apply elem_of_app in Hin' as [Hin'|Hin'].
      * left. split; [done|]. intros Hfailed. apply (Hdisjoint _ Hin').
        by apply list_elem_of_fmap_2.
      * right. split.
        -- intros Hok. by apply (Hdisjoint _ Hok).
        -- apply list_elem_of_fmap in Hin' as (symbol' & [= ->] & Hin'). done.
Qed.

Lemma every_symbol_recorded_exactly_once_witness :
  let w := world aapl_and_badticker ∅ in
  (let '(success_list, fail_list) := (run_download ["AAPL"; "BADTICKER"] "8y" 10 500 w).1 in
   success_list ++ fail_list.*1 ≡ₚ ["AAPL"; "BADTICKER"]
   ∧ length success_list + length fail_list = 2)
  ∧ (let '(info_df, failed_tickers) := (get_ticker_info_batch ["AAPL"; "BADTICKER"] None w).1 in
     length (rows info_df) + length failed_tickers = 2).
Proof.
  intros w. destruct (every_symbol_recorded_exactly_once w) as [Hdownload Hinfo].
  assert (Hdistinct : NoDup ["AAPL"; "BADTICKER"]) by (by apply (bool_decide_unpack _)).
  assert (Hfit : Forall file_name_fits ["AAPL"; "BADTICKER"]).
  { repeat constructor; unfold file_name_fits; simpl; lia. }
  specialize (Hdownload ["AAPL"; "BADTICKER"] "8y" 10 500%Z ltac:(lia) Hdistinct Hfit).
  specialize (Hinfo ["AAPL"; "BADTICKER"] None Hdistinct).
  destruct (run_download _ _ _ _ w).1 as [success_list fail_list].
  destruct (get_ticker_info_batch _ _ w).1 as [info_df failed_tickers].
  split; [by destruct Hdownload as (? & _ & ? & _)|by destruct Hinfo as (_ & _ & ? & _)].
Defined.

(** ** What a run reports for a symbol whose fetch keeps failing *)

Section failures.
Context `{!Codec} {E : Type} `{!External E}.
Implicit Types (w : World E) (ticker period : string).

(** C3 (amended): when the fetch of a ticker without a cached file fails
    three times in a row, by an empty frame or by an exception,
    [download_ticker_data] answers failure with the reason of the third
    failure itself, the script's text for an empty frame or the text of
    the exception, and not with a reason that stands for used-up retries;
    the loop over a batch then appends the ticker with that reason to
    [fail_list], leaves [success_list] alone and goes on. *)
Theorem exhausted_retries_report_last_failure w ticker period r1 e1 m1 r2 e2 m2 r3 e3 m3 :
  cache_dir w !! csv_name ticker = None →
  yf_history ticker (Period period false) (env w) = (r1, e1) →
  fetch_failure r1 = Some m1 →
  yf_history ticker (Period period false) (elapse 1000 e1) = (r2, e2) →
  fetch_failure r2 = Some m2 →
  yf_history ticker (Period period false) (elapse 1000 e2) = (r3, e3) →
  fetch_failure r3 = Some m3 →
  (download_ticker_data ticker period w).1 = (false, m3)
  ∧ ((∃ df, r3 = Ok df ∧ m3 = "데이터 없음") ∨ r3 = Exc m3)
  ∧ ∀ total batch_start delay i acc,
      (download_item total batch_start period delay (i, ticker) acc w).1
      = (acc.1, acc.2 ++ [(ticker, m3)]).
Proof.
  intros Hfile Hfetch1 Hfail1 Hfetch2 Hfail2 Hfetch3 Hfail3. split_and!.
  - by rewrite (three_failures _ _ w r1 e1 m1 r2 e2 m2 r3 e3 m3).
  - destruct r3 as [df|msg]; simpl in Hfail3.
    + left. exists df. destruct (df_empty df); [|done]. by injection Hfail3 as <-.
    + right. by injection Hfail3 as <-.
  - intros total batch_start delay i acc.
    unfold download_item, mbind, M_bind, emit. cbn beta iota.
    rewrite (three_failures _ _ _ r1 e1 m1 r2 e2 m2 r3 e3 m3) by done.
    cbn beta iota. by destruct (_ <? _).
Qed.
End failures.

Lemma exhausted_retries_report_last_failure_witness :
  let w := world aapl_and_badticker ∅ in
  (download_ticker_data "BADTICKER" "8y" w).1 = (false, "데이터 없음")
  ∧ (download_item 2 0 "8y" 500 (1, "BADTICKER") (["AAPL"], []) w).1
    = (["AAPL"], [("BADTICKER", "데이터 없음")]).
Proof.
  intros w.
  destruct (exhausted_retries_report_last_failure w "BADTICKER" "8y"
              (Ok no_rows) aapl_and_badticker "데이터 없음"
              (Ok no_rows) aapl_and_badticker "데이터 없음"
              (Ok no_rows) aapl_and_badticker "데이터 없음")
    as (Hanswer & _ & Hrecorded); [reflexivity..|].
  split; [exact Hanswer|]. apply (Hrecorded 2 0 500%Z 1 (["AAPL"], [])).
Defined.

(** C3, as stated, fails on its own scenario: with [AAPL] answering 250
    rows and [BADTICKER] an empty frame on each of the three attempts, the
    run records [BADTICKER] with the reason of the empty frame, neither
    with [RetriesExhausted] nor with the text of the statement after the
    retry loop. *)
Lemma retries_exhausted_reason_counterexample :
  let result := (run_download ["AAPL"; "BADTICKER"] "8y" 10 500
                   (world aapl_and_badticker ∅)).1 in
  result = (["AAPL"], [("BADTICKER", "데이터 없음")])
  ∧ result ≠ (["AAPL"], [("BADTICKER", "RetriesExhausted")])
  ∧ result ≠ (["AAPL"], [("BADTICKER", "3번 시도 실패")]).
Proof.
  intros result. assert (Hresult : result = (["AAPL"], [("BADTICKER", "데이터 없음")])) by reflexivity.
  split_and!; [done| |]; rewrite Hresult; intros [=].
Qed.

(** ** The fetchers: what they return on failure, and what they write *)

Section fetch.
Context `{!Codec} {E : Type} `{!External E}.
Implicit Types (w : World E) (symbol ticker period : string).

Lemma writes_nothing_preorder : PreOrder (@writes_nothing E).
Proof.
  split.
  - intros w. split; [done|]. exists []. by rewrite app_nil_r.
  - intros w1 w2 w3 [Hdir12 (new12 & Hlog12 & Hnew12)] [Hdir23 (new23 & Hlog23 & Hnew23)].
    split; [congruence|]. exists (new12 ++ new23). split.
    + by rewrite Hlog23, Hlog12, app_assoc.
    + by apply Forall_app.
Qed.

#[local] Existing Instance writes_nothing_preorder.

Lemma emit_writes_nothing ev : is_write ev = false → steps (E:=E) writes_nothing (emit ev).
Proof. intros Hev w. split; [done|]. exists [ev]. split; [done|]. by apply Forall_singleton. Qed.

Lemma sleep_writes_nothing ms : steps (E:=E) writes_nothing (sleep ms).
Proof. intros w. split; [done|]. exists [EvSleep ms]. split; [done|]. by apply Forall_singleton. Qed.

Lemma history_writes_nothing symbol range : steps (E:=E) writes_nothing (history symbol range).
Proof.
  intros w. unfold history. destruct (yf_history _ _ _) as [r e1]. split; [done|].
  exists [EvHistory symbol range]. split; [done|]. by apply Forall_singleton.
Qed.

Lemma fetch_stock_data_writes_nothing symbol start_date end_date :
  steps (E:=E) writes_nothing (fetch_stock_data symbol start_date end_date).
Proof.
  unfold fetch_stock_data. apply steps_catch; [apply _| |].
  - apply steps_try_bind; [apply _|apply history_writes_nothing|]. intros df.
    destruct (df_empty df); [apply steps_try_ret; apply _|].
    repeat (apply steps_try_bind; [apply _|apply steps_lift; apply _|]; intros ?).
    apply steps_try_ret; apply _.
  - intros msg. apply steps_ret; apply _.
Qed.

Lemma download_stocks_writes_nothing selected_symbols start_date end_date :
  steps (E:=E) writes_nothing (download_stocks selected_symbols start_date end_date).
Proof.
  unfold download_stocks. apply steps_bind; [apply _| |].
  - apply steps_for_each; [apply _|]. intros [i symbol] acc. unfold download_stock.
    apply steps_bind; [apply _|apply fetch_stock_data_writes_nothing|]. intros df.
    apply steps_bind; [apply _| |].
    + destruct df as [df|]; (apply steps_bind; [apply _|by apply emit_writes_nothing|]);
        intros _; apply steps_ret; apply _.
    + intros acc'.
      apply steps_bind; [apply _|by apply emit_writes_nothing|]. intros _.
      apply steps_bind; [apply _|by apply emit_writes_nothing|]. intros _.
      apply steps_bind; [apply _| |].
      * destruct (_ =? _); apply sleep_writes_nothing.
      * intros _. apply steps_ret; apply _.
  - intros acc. apply steps_bind; [apply _|by apply emit_writes_nothing|].
    intros _. apply steps_ret; apply _.
Qed.

(** C5 (amended): [fetch_stock_data] returns the same value, [None], for an
    empty answer of the provider and for an exception, so its caller
    cannot tell the two apart; [download_ticker_data], when its three
    attempts fail, reports the third failure as [(False, "데이터 없음")]
    for an empty answer and as [(False, str(e))] for an exception. *)
Theorem failures_as_returned w symbol :
  (∀ start_date end_date r e1,
     yf_history symbol (Between start_date end_date) (env w) = (r, e1) →
     is_Some (fetch_failure r) →
     (fetch_stock_data symbol start_date end_date w).1 = None)
  ∧ (∀ period r1 e1 m1 r2 e2 m2 r3 e3,
       cache_dir w !! csv_name symbol = None →
       yf_history symbol (Period period false) (env w) = (r1, e1) →
       fetch_failure r1 = Some m1 →
       yf_history symbol (Period period false) (elapse 1000 e1) = (r2, e2) →
       fetch_failure r2 = Some m2 →
       yf_history symbol (Period period false) (elapse 1000 e2) = (r3, e3) →
       (∀ df, r3 = Ok df → df_empty df = true →
              (download_ticker_data symbol period w).1 = (false, "데이터 없음"))
       ∧ (∀ msg, r3 = Exc msg →
                 (download_ticker_data symbol period w).1 = (false, msg))).
Proof.
  split.
  - intros start_date end_date r e1 Hfetch [reason Hfailure].
    unfold fetch_stock_data, catch, mbind, Try_bind, history. rewrite Hfetch.
    destruct r as [df|msg]; [|done]. simpl in Hfailure |- *.
    by destruct (df_empty df).
  - intros period r1 e1 m1 r2 e2 m2 r3 e3 Hfile Hfetch1 Hfail1 Hfetch2 Hfail2 Hfetch3. split.
    + intros df -> Hempty.
      rewrite (three_failures _ _ w r1 e1 m1 r2 e2 m2 (Ok df) e3 "데이터 없음"); try done.
      simpl. by rewrite Hempty.
    + intros msg ->.
      by rewrite (three_failures _ _ w r1 e1 m1 r2 e2 m2 (Exc msg) e3 msg).
Qed.

(** C9 (amended): [fetch_stock_data] leaves the cache directory as it is
    and writes nothing, and so does its caller, which keeps what was
    fetched in memory; [download_ticker_data] is a fetch that persists by
    itself: when it answers success the file of its ticker is in the
    cache directory, written by the call if it was not there before; it
    never touches another file, and changes nothing when it fails. *)
Theorem fetch_and_persistence w :
  (∀ symbol start_date end_date,
     writes_nothing w (fetch_stock_data symbol start_date end_date w).2)
  ∧ (∀ selected_symbols start_date end_date,
       writes_nothing w (download_stocks selected_symbols start_date end_date w).2)
  ∧ (∀ ticker period,
       let res := download_ticker_data ticker period w in
       (∀ name, name ≠ csv_name ticker → cache_dir res.2 !! name = cache_dir w !! name)
       ∧ (res.1.1 = true → is_Some (cache_dir res.2 !! csv_name ticker))
       ∧ (res.1.1 = false → cache_dir res.2 = cache_dir w)).
Proof.
  split_and!.
  - intros symbol start_date end_date. apply fetch_stock_data_writes_nothing.
  - intros selected_symbols start_date end_date. apply download_stocks_writes_nothing.
  - intros ticker period.
    destruct (download_ticker_data_effects ticker period w) as (_ & Hok & Hsame).
    cbn zeta in *. destruct (download_ticker_data ticker period w) as [[ok reason] w1].
    cbn [fst snd] in *.
    destruct (cache_dir w !! csv_name ticker) as [text|] eqn:Hfile.
    + rewrite Hsame by (right; eauto). split_and!; [done|by rewrite Hfile|done].
    + destruct ok.
      * destruct Hok as [text ->]; [done|done|]. split_and!; [|by rewrite lookup_insert_eq|done].
        intros name Hname. by rewrite lookup_insert_ne.
      * rewrite Hsame by (by left). by rewrite Hfile.
Qed.
End fetch.

Lemma failures_as_returned_witness :
  (fetch_stock_data "BADTICKER" 0 365 (world aapl_and_badticker ∅)).1 = None
  ∧ (fetch_stock_data "BOOM" 0 365 (world raising ∅)).1 = None
  ∧ (download_ticker_data "BADTICKER" "8y" (world aapl_and_badticker ∅)).1 = (false, "데이터 없음")
  ∧ (download_ticker_data "BOOM" "8y" (world raising ∅)).1 = (false, "boom").
Proof.
  destruct (failures_as_returned (world aapl_and_badticker ∅) "BADTICKER") as [Hnone1 Hlast1].
  destruct (failures_as_returned (world raising ∅) "BOOM") as [Hnone2 Hlast2].
  split_and!.
  - by eapply (Hnone1 0%Z 365%Z (Ok no_rows)).
  - by eapply (Hnone2 0%Z 365%Z (Exc "boom")).
  - destruct (Hlast1 "8y" (Ok no_rows) aapl_and_badticker "데이터 없음"
                (Ok no_rows) aapl_and_badticker "데이터 없음" (Ok no_rows) aapl_and_badticker)
      as [Hempty _]; [reflexivity..|].
    by apply (Hempty no_rows).
  - destruct (Hlast2 "8y" (Exc "boom")
                {| histories := {[ "BOOM" := [Exc "boom"; Exc "boom"] ]};
                   infos := ∅; pages := ∅; unwritable := [] |} "boom"
                (Exc "boom")
                {| histories := {[ "BOOM" := [Exc "boom"] ]};
                   infos := ∅; pages := ∅; unwritable := [] |} "boom"
                (Exc "boom")
                {| histories := {[ "BOOM" := [] ]};
                   infos := ∅; pages := ∅; unwritable := [] |})
      as [_ Hraised]; [reflexivity..|].
    by apply (Hraised "boom").
Defined.

(** C5, as stated, fails for [fetch_stock_data]: the provider answers an
    empty frame in one world and raises in the other, and the two calls
    return the same value. *)
Lemma indistinguishable_failures_counterexample :
  (yf_history "BADTICKER" (Between 0 365) aapl_and_badticker).1 = Ok no_rows
  ∧ df_empty no_rows = true
  ∧ (yf_history "BOOM" (Between 0 365) raising).1 = Exc "boom"
  ∧ (fetch_stock_data "BADTICKER" 0 365 (world aapl_and_badticker ∅)).1
    = (fetch_stock_data "BOOM" 0 365 (world raising ∅)).1.
Proof. split_and!; reflexivity. Qed.

Lemma fetch_and_persistence_witness :
  let w := world aapl_and_badticker ∅ in
  cache_dir (fetch_stock_data "AAPL" 0 365 w).2 = cache_dir w
  ∧ is_Some (cache_dir (download_ticker_data "AAPL" "8y" w).2 !! csv_name "AAPL").
Proof.
  intros w. destruct (fetch_and_persistence w) as (Hfetch & _ & Hdownload).
  split; [apply Hfetch|]. by apply Hdownload.
Defined.

(** C9, as stated, fails for the fetch of [download_data.py]: the call that
    fetches [AAPL] also writes [AAPL.csv] into the cache directory, which
    was empty before. *)
Lemma fetch_writes_cache_counterexample :
  let w := world aapl_and_badticker ∅ in
  let w' := (download_ticker_data "AAPL" "8y" w).2 in
  cache_dir w !! "AAPL.csv" = None
  ∧ is_Some (cache_dir w' !! "AAPL.csv")
  ∧ cache_dir w' ≠ cache_dir w
  ∧ log w' = [EvHistory "AAPL" (Period "8y" false); EvToCsv "AAPL.csv"].
Proof.
  intros w w'. assert (Hfile : is_Some (cache_dir w' !! "AAPL.csv")) by (by eexists).
  split_and!; [done|done| |done].
  intros Hsame. rewrite Hsame in Hfile. by destruct Hfile.
Qed.

(** ** The archives *)

Section archive.
Context `{!Codec} {E : Type} `{!External E}.
Implicit Types (w : World E).

Lemma csv_name_inj : Inj (=) (=) csv_name.
Proof.
  intros s1 s2 Heq. unfold csv_name in Heq.
  assert (Hlen : String.length s1 = String.length s2).
  { apply (f_equal String.length) in Heq. rewrite !length_append in Heq. lia. }
  rewrite <-(substring_append_l s1 ".csv"), <-(substring_append_l s2 ".csv").
  by rewrite Heq, Hlen.
Qed.

Lemma glob_csv_NoDup (dir : gmap string string) : NoDup (glob_csv dir).
Proof. unfold glob_csv. apply NoDup_filter, NoDup_fst_map_to_list. Qed.

Lemma dict_set_keys {V} (k : string) (v : V) (d : list (string * V)) :
  dict_keys (dict_set k v d) = if bool_decide (k ∈ dict_keys d) then dict_keys d else dict_keys d ++ [k].
Proof.
  unfold dict_keys. induction d as [|[k' v'] d IH]; [done|]. csimpl.
  destruct (decide (k = k')) as [->|Hne].
  - rewrite !bool_decide_eq_true_2; [done|by left|done].
  - rewrite (bool_decide_eq_false_2 (k = k')) by done. csimpl. rewrite IH.
    destruct (decide (k ∈ d.*1)) as [Hin|Hnotin].
    + rewrite !bool_decide_eq_true_2; [done|by right|done].
    + rewrite !bool_decide_eq_false_2; [done| |done].
      by intros [?|?]%elem_of_cons.
Qed.

Lemma dict_set_NoDup {V} (k : string) (v : V) (d : list (string * V)) :
  NoDup (dict_keys d) → NoDup (dict_keys (dict_set k v d)).
Proof.
  intros Hd. rewrite dict_set_keys. case_bool_decide; [done|].
  apply NoDup_app. split_and!; [done| |apply NoDup_singleton].
  intros k' Hin ->%list_elem_of_singleton. done.
Qed.

Lemma download_stocks_offer selected_symbols start_date end_date w :
  let '(successful_data, failed_list, offered) :=
    (download_stocks selected_symbols start_date end_date w).1 in
  NoDup (dict_keys successful_data)
  ∧ offered = match successful_data with
              | [] => None
              | _ => Some (IntegratedApp.create_download_zip successful_data)
              end.
Proof.
  unfold download_stocks.
  assert (Hinv : NoDup (dict_keys
            (for_each (download_stock (length selected_symbols) start_date end_date)
               (enumerate selected_symbols) ([], []) w).1.1)).
  { apply (for_each_inv _ (λ _ acc _, NoDup (dict_keys acc.1))); [|apply NoDup_nil_2].
    intros pre [i symbol] suf acc w' _ Hacc.
    unfold download_stock, mbind, M_bind, emit.
    destruct (fetch_stock_data symbol start_date end_date w') as [[df|] w1];
      cbn beta iota; destruct (_ =? _); simpl; [by apply dict_set_NoDup..|done|done]. }
  unfold mbind at 1, M_bind at 1. by destruct (for_each _ _ _ w) as [acc w1].
Qed.

(** C6: the archive of [streamlit_integrated_app.py] has one entry for each
    key of the mapping it is given, named [{key}.csv], in the order of the
    keys, so none for the empty mapping, for which the third tab offers no
    archive at all; the archive of [download_data.py] is absent when the
    cache directory has no [.csv] file, and has otherwise one entry for
    each of these files, under the name of the file and with its content,
    in the order the directory lists them. *)
Theorem archive_has_one_entry_per_key w :
  (∀ data_dict,
     (IntegratedApp.create_download_zip data_dict).*1 = csv_name <$> dict_keys data_dict
     ∧ (NoDup (dict_keys data_dict) → NoDup (IntegratedApp.create_download_zip data_dict).*1))
  ∧ IntegratedApp.create_download_zip [] = []
  ∧ (∀ selected_symbols start_date end_date,
       let '(successful_data, failed_list, offered) :=
         (download_stocks selected_symbols start_date end_date w).1 in
       NoDup (dict_keys successful_data)
       ∧ (successful_data = [] → offered = None)
       ∧ (successful_data ≠ [] →
          offered = Some (IntegratedApp.create_download_zip successful_data)))
  ∧ (DownloadData.create_download_zip w).2 = w
  ∧ match (DownloadData.create_download_zip w).1 with
    | None => glob_csv (cache_dir w) = []
    | Some entries =>
        entries ≠ []
        ∧ entries.*1 = glob_csv (cache_dir w)
        ∧ NoDup entries.*1
        ∧ ∀ name data, (name, data) ∈ entries →
            cache_dir w !! name = Some data ∧ is_csv name = true
    end.
Proof.
  split_and!.
  - intros data_dict.
    assert (Hnames : (IntegratedApp.create_download_zip data_dict).*1
                     = csv_name <$> dict_keys data_dict).
    { unfold IntegratedApp.create_download_zip, dict_keys.
      rewrite <-!list_fmap_compose. by apply list_fmap_ext. }
    split; [done|]. intros Hkeys. rewrite Hnames.
    apply NoDup_fmap_2; [apply csv_name_inj|done].
  - done.
  - intros selected_symbols start_date end_date.
    pose proof (download_stocks_offer selected_symbols start_date end_date w) as Hoffer.
    destruct (download_stocks _ _ _ w).1 as [[successful_data failed_list] offered].
    destruct Hoffer as [Hkeys ->]. split_and!; [done|by intros ->|].
    by destruct successful_data.
  - unfold DownloadData.create_download_zip. by destruct (glob_csv (cache_dir w)).
  - unfold DownloadData.create_download_zip.
    pose proof (glob_csv_NoDup (cache_dir w)) as Hnodup.
    pose proof (λ name, proj1 (elem_of_glob_csv (cache_dir w) name)) as Hglob.
    destruct (glob_csv (cache_dir w)) as [|name0 names] eqn:Hfiles; [done|].
    cbn [fst]. set (entry := λ name, (name, default "" (cache_dir w !! name))).
    assert (Hnames : (entry <$> name0 :: names).*1 = name0 :: names).
    { rewrite <-list_fmap_compose. by rewrite <-(list_fmap_id (name0 :: names)) at 2. }
    split_and!; [done|done|by rewrite Hnames|].
    intros name data (name' & [= -> ->] & Hin)%list_elem_of_fmap.
    destruct (Hglob name' Hin) as [[text Htext] Hcsv]. by rewrite Htext.
Qed.
End archive.

Lemma archive_has_one_entry_per_key_witness :
  (IntegratedApp.create_download_zip [("AAPL", prices 5); ("MSFT", prices 5)]).*1
  = ["AAPL.csv"; "MSFT.csv"]
  ∧ NoDup (IntegratedApp.create_download_zip [("AAPL", prices 5); ("MSFT", prices 5)]).*1
  ∧ (download_stocks ["BADTICKER"] 0 365 (world aapl_and_badticker ∅)).1.2 = None.
Proof.
  destruct (archive_has_one_entry_per_key (world aapl_and_badticker ∅))
    as (Hentries & _ & Hoffer & _).
  destruct (Hentries [("AAPL", prices 5); ("MSFT", prices 5)]) as [Hnames Hnodup].
  split_and!; [exact Hnames|apply Hnodup; by apply (bool_decide_unpack _)|].
  specialize (Hoffer ["BADTICKER"] 0%Z 365%Z).
  destruct (download_stocks _ _ _ _).1 as [[successful_data failed_list] offered] eqn:Hrun.
  destruct Hoffer as (_ & Hnone & _). apply Hnone.
  by injection (eq_trans (eq_sym Hrun) (eq_refl : _ = ([], ["BADTICKER"], None))).
Defined.

(** ** The ticker list *)

Section nasdaq.
Context `{!Codec} {E : Type} `{!External E}.
Implicit Types (w : World E) (r : gmap string cell).

(** Decide a membership test between closed labels by computation. *)
Ltac eval_mem :=
  match goal with
  | |- context [bool_decide (?c ∈ ?cs)] =>
      let b := eval vm_compute in (bool_decide (c ∈ cs)) in
      change (bool_decide (c ∈ cs)) with b; cbv iota
  end.

Lemma mask_rows_fmap {A} (f : A → bool) (l : list A) :
  mask_rows (f <$> l) l = filter (λ x, f x = true) l.
Proof.
  induction l as [|x l IH]; [done|]. csimpl. rewrite IH.
  destruct (f x) eqn:Hx; [by rewrite filter_cons_True|by rewrite filter_cons_False by congruence].
Qed.

Lemma at_insert_eq r c v : at_ (<[c := v]> r) c = v.
Proof. unfold at_. by rewrite lookup_insert_eq. Qed.

Lemma at_insert_ne r c c' v : c ≠ c' → at_ (<[c := v]> r) c' = at_ r c'.
Proof. intros Hne. unfold at_. by rewrite lookup_insert_ne. Qed.

Lemma lookup_project r cs c :
  project cs r !! c = if bool_decide (c ∈ cs) then r !! c else None.
Proof.
  unfold project. case_bool_decide as Hc.
  - destruct (r !! c) as [v|] eqn:Hr.
    + by apply map_lookup_filter_Some.
    + apply map_lookup_filter_None. left. done.
  - apply map_lookup_filter_None. right. intros v _. done.
Qed.

Lemma at_rename_row_new r old new :
  r !! new = None → at_ (rename_row old new r) new = at_ r old.
Proof.
  intros Hnew. unfold rename_row, at_. destruct (r !! old) as [v|] eqn:Hold.
  - by rewrite lookup_insert_eq.
  - by rewrite Hnew.
Qed.

Lemma at_rename_row_ne r old new c :
  c ≠ old → c ≠ new → at_ (rename_row old new r) c = at_ r c.
Proof.
  intros Hold Hnew. unfold rename_row, at_. destruct (r !! old) as [v|]; [|done].
  by rewrite lookup_insert_ne, lookup_delete_ne.
Qed.

(** The cells of a row of the result, by the cells of its source row. *)
Lemma nasdaq_row_cells source :
  at_ (nasdaq_row source) "Symbol" = at_ source "Symbol"
  ∧ at_ (nasdaq_row source) "Name" = at_ source "Security Name"
  ∧ at_ (nasdaq_row source) "Market Category" = at_ source "Market Category"
  ∧ at_ (nasdaq_row source) "Exchange" = Str "NASDAQ".
Proof.
  unfold nasdaq_row. split_and!.
  - rewrite at_rename_row_ne by done. unfold at_. rewrite lookup_project.
    eval_mem. by rewrite lookup_insert_ne.
  - rewrite at_rename_row_new.
    + unfold at_. rewrite lookup_project.
      eval_mem. by rewrite lookup_insert_ne.
    + rewrite lookup_project. by eval_mem.
  - rewrite at_rename_row_ne by done. unfold at_. rewrite lookup_project.
    eval_mem. by rewrite lookup_insert_ne.
  - rewrite at_rename_row_ne by done. unfold at_. rewrite lookup_project.
    eval_mem. by rewrite lookup_insert_eq.
Qed.

Lemma other_row_cells source :
  at_ (other_row source) "Symbol" = at_ source "ACT Symbol"
  ∧ at_ (other_row source) "Name" = at_ source "Security Name"
  ∧ at_ (other_row source) "Market Category" = Str "N/A"
  ∧ at_ (other_row source) "Exchange" = Str "OTHER".
Proof.
  unfold other_row. split_and!.
  - rewrite at_rename_row_ne, at_insert_ne by done. rewrite at_rename_row_new.
    + unfold at_. rewrite lookup_project.
      eval_mem. by rewrite lookup_insert_ne.
    + rewrite lookup_project. by eval_mem.
  - rewrite at_rename_row_new.
    + rewrite at_insert_ne, at_rename_row_ne by done. unfold at_. rewrite lookup_project.
      eval_mem. by rewrite lookup_insert_ne.
    + rewrite lookup_insert_ne by done. unfold rename_row.
      destruct (project _ _ !! "ACT Symbol") as [v|].
      * rewrite lookup_insert_ne, lookup_delete_ne by done.
        rewrite lookup_project. by eval_mem.
      * rewrite lookup_project. by eval_mem.
  - rewrite at_rename_row_ne by done. by rewrite at_insert_eq.
  - rewrite at_rename_row_ne, at_insert_ne, at_rename_row_ne by done.
    unfold at_. rewrite lookup_project.
    eval_mem. by rewrite lookup_insert_eq.
Qed.

Lemma eq_str_N (c : cell) : eq_str "N" c = true ↔ c = Str "N".
Proof.
  destruct c as [|s| |]; simpl; try (split; [done|intros [=]]).
  rewrite bool_decide_eq_true. split; [by intros ->|by intros [= ->]].
Qed.

(** When the [try] body comes to its end, both directories were fetched
    and read, and the result has the rows made of their listed rows, those
    of the first directory first. *)
Lemma nasdaq_tickers_body_Ok w df w' :
  nasdaq_tickers_body w = (Ok df, w') →
  ∃ text1 e1 table1 text2 e2 table2,
    requests_get nasdaq_url (env w) = (Ok text1, e1)
    ∧ read_csv text1 "|" = Ok table1
    ∧ "Test Issue" ∈ table1.1
    ∧ requests_get other_url e1 = (Ok text2, e2)
    ∧ read_csv text2 "|" = Ok table2
    ∧ "Test Issue" ∈ table2.1
    ∧ columns df = ticker_keys
    ∧ rows df = (nasdaq_row <$> listed table1.2) ++ (other_row <$> listed table2.2).
Proof.
  unfold nasdaq_tickers_body, mbind, Try_bind, get, lift, mret, Try_ret, pd_read_csv.
  destruct (requests_get nasdaq_url (env w)) as [[text1|msg] e1] eqn:Hget1;
    cbn beta iota; [|done].
  destruct (read_csv text1 "|") as [table1|msg] eqn:Hread1; cbn beta iota delta [rbind]; [|done].
  unfold getitem at 1. cbn [columns rows].
  case_bool_decide as Hissue1; cbn beta iota; [|done]. cbn [env].
  destruct (requests_get other_url e1) as [[text2|msg] e2] eqn:Hget2; cbn beta iota; [|done].
  destruct (read_csv text2 "|") as [table2|msg] eqn:Hread2; cbn beta iota delta [rbind]; [|done].
  unfold getitem at 1. cbn [columns rows].
  case_bool_decide as Hissue2; cbn beta iota; [|done].
  unfold getitem_list. cbn [columns rows index_name setitem getitem_mask].
  destruct (list_find _ ["Symbol"; "Security Name"; "Market Category"; "Exchange"])
    as [[? ?]|]; cbn beta iota; [done|].
  destruct (list_find _ ["ACT Symbol"; "Security Name"; "Exchange"])
    as [[? ?]|]; cbn beta iota; [done|].
  intros [= <- _]. exists text1, e1, table1, text2, e2, table2.
  split_and!; try done.
  unfold rename, setitem, pd_concat. cbn [columns rows index_name].
  repeat eval_mem. cbn [columns rows index_name].
  by rewrite !fmap_app, <-!list_fmap_compose, !mask_rows_fmap.
Qed.

(** A ticker list that is not the empty frame has the four columns the
    merge of the second tab relies on. *)
Lemma ticker_list_columns w :
  (download_nasdaq_tickers w).1 = empty_frame
  ∨ columns (download_nasdaq_tickers w).1 = ticker_keys.
Proof.
  unfold download_nasdaq_tickers, catch.
  destruct (nasdaq_tickers_body w) as [[df|msg] w'] eqn:Hbody; [right|by left].
  by destruct (nasdaq_tickers_body_Ok w df w' Hbody)
    as (? & ? & ? & ? & ? & ? & _ & _ & _ & _ & _ & _ & ? & _).
Qed.

(** C10: [download_nasdaq_tickers] answers a frame in every world.  When
    its [try] body raises, the answer is the empty frame: so it is when
    either directory cannot be fetched, cannot be read, or has no
    [Test Issue] column.  Every row of an answer comes from a row of one
    of the two directories whose [Test Issue] is ['N'], and has its
    symbol and name; the rows of test issues are left out. *)
Theorem ticker_list_never_raises w :
  let result := (download_nasdaq_tickers w).1 in
  (∀ msg w', nasdaq_tickers_body w = (Exc msg, w') → result = empty_frame)
  ∧ (∀ answer1 e1, requests_get nasdaq_url (env w) = (answer1, e1) →
       (∀ msg, answer1 = Exc msg → result = empty_frame)
       ∧ (∀ text msg, answer1 = Ok text → read_csv text "|" = Exc msg → result = empty_frame)
       ∧ (∀ text table, answer1 = Ok text → read_csv text "|" = Ok table →
                        "Test Issue" ∉ table.1 → result = empty_frame)
       ∧ ∀ answer2 e2, requests_get other_url e1 = (answer2, e2) →
           (∀ msg, answer2 = Exc msg → result = empty_frame)
           ∧ (∀ text msg, answer2 = Ok text → read_csv text "|" = Exc msg → result = empty_frame)
           ∧ (∀ text table, answer2 = Ok text → read_csv text "|" = Ok table →
                            "Test Issue" ∉ table.1 → result = empty_frame))
  ∧ (∀ row, row ∈ rows result →
       ∃ text1 e1 table1 text2 e2 table2,
         requests_get nasdaq_url (env w) = (Ok text1, e1)
         ∧ read_csv text1 "|" = Ok table1
         ∧ requests_get other_url e1 = (Ok text2, e2)
         ∧ read_csv text2 "|" = Ok table2
         ∧ ((∃ source, source ∈ table1.2
               ∧ at_ source "Test Issue" = Str "N"
               ∧ at_ row "Symbol" = at_ source "Symbol"
               ∧ at_ row "Name" = at_ source "Security Name"
               ∧ at_ row "Market Category" = at_ source "Market Category"
               ∧ at_ row "Exchange" = Str "NASDAQ")
            ∨ (∃ source, source ∈ table2.2
                 ∧ at_ source "Test Issue" = Str "N"
                 ∧ at_ row "Symbol" = at_ source "ACT Symbol"
                 ∧ at_ row "Name" = at_ source "Security Name"
                 ∧ at_ row "Market Category" = Str "N/A"
                 ∧ at_ row "Exchange" = Str "OTHER"))).
Proof.
  intros result.
  assert (Hcases : result = empty_frame
            ∨ ∃ w', nasdaq_tickers_body w = (Ok result, w')).
  { unfold result, download_nasdaq_tickers, catch.
    destruct (nasdaq_tickers_body w) as [[df|msg] w']; [right; by exists w'|by left]. }
  assert (Hok : ∀ w', nasdaq_tickers_body w = (Ok result, w') →
            ∃ text1 e1 table1 text2 e2 table2,
              requests_get nasdaq_url (env w) = (Ok text1, e1)
              ∧ read_csv text1 "|" = Ok table1
              ∧ "Test Issue" ∈ table1.1
              ∧ requests_get other_url e1 = (Ok text2, e2)
              ∧ read_csv text2 "|" = Ok table2
              ∧ "Test Issue" ∈ table2.1
              ∧ rows result = (nasdaq_row <$> listed table1.2) ++ (other_row <$> listed table2.2)).
  { intros w' Hbody.
    destruct (nasdaq_tickers_body_Ok w result w' Hbody)
      as (text1 & e1 & table1 & text2 & e2 & table2 & ? & ? & ? & ? & ? & ? & _ & ?).
    by exists text1, e1, table1, text2, e2, table2. }
  split_and!.
  - intros msg w' Hbody. destruct Hcases as [Hempty|[w'' Hbody']]; [done|congruence].
  - intros answer1 e1 Hget1.
    assert (Hfirst : ∀ w', nasdaq_tickers_body w = (Ok result, w') →
              ∃ text1 table1 text2 e2 table2,
                answer1 = Ok text1 ∧ read_csv text1 "|" = Ok table1 ∧ "Test Issue" ∈ table1.1
                ∧ requests_get other_url e1 = (Ok text2, e2)
                ∧ read_csv text2 "|" = Ok table2 ∧ "Test Issue" ∈ table2.1).
    { intros w' Hbody.
      destruct (Hok w' Hbody) as (text1 & e1' & table1 & text2 & e2 & table2
                                  & Hget1' & Hread1 & Hissue1 & Hget2 & Hread2 & Hissue2 & _).
      rewrite Hget1 in Hget1'. injection Hget1' as -> ->.
      by exists text1, table1, text2, e2, table2. }
    destruct Hcases as [Hempty|[w' Hbody]]; [by repeat split|].
    destruct (Hfirst w' Hbody) as (text1 & table1 & text2 & e2 & table2
                                   & -> & Hread1 & Hissue1 & Hget2 & Hread2 & Hissue2).
    split_and!; [done|intros ? ? [= <-]; congruence|intros ? ? [= <-]; congruence|].
    intros answer2 e2' Hget2'. rewrite Hget2 in Hget2'. injection Hget2' as <- <-.
    split_and!; [done|intros ? ? [= <-]; congruence|intros ? ? [= <-]; congruence].
  - intros row Hrow. destruct Hcases as [Hempty|[w' Hbody]].
    { rewrite Hempty in Hrow. by apply elem_of_nil in Hrow. }
    destruct (Hok w' Hbody) as (text1 & e1 & table1 & text2 & e2 & table2
                                & Hget1 & Hread1 & _ & Hget2 & Hread2 & _ & Hrows).
    exists text1, e1, table1, text2, e2, table2. split_and!; try done.
    rewrite Hrows in Hrow. apply elem_of_app in Hrow as [Hrow|Hrow];
      apply list_elem_of_fmap in Hrow as (source & -> & Hsource);
      apply list_elem_of_filter in Hsource as [Hlisted%eq_str_N Hsource].
    + left. exists source. destruct (nasdaq_row_cells source) as (? & ? & ? & ?). by split_and!.
    + right. exists source. destruct (other_row_cells source) as (? & ? & ? & ?). by split_and!.
Qed.
End nasdaq.

Lemma ticker_list_never_raises_witness :
  (download_nasdaq_tickers (world other_unreachable ∅)).1 = empty_frame
  ∧ ∀ row, row ∈ rows (download_nasdaq_tickers (world directories ∅)).1 →
      at_ row "Exchange" = Str "NASDAQ" ∨ at_ row "Exchange" = Str "OTHER".
Proof.
  split.
  - destruct (ticker_list_never_raises (world other_unreachable ∅)) as (_ & Hfailures & _).
    destruct (Hfailures (Ok nasdaq_listed) other_unreachable eq_refl) as (_ & _ & _ & Hother).
    destruct (Hother (Exc "ConnectionError") other_unreachable eq_refl) as (Hunreachable & _).
    by apply (Hunreachable "ConnectionError").
  - intros row Hrow.
    destruct (ticker_list_never_raises (world directories ∅)) as (_ & _ & Hsource).
    destruct (Hsource row Hrow) as (? & ? & ? & ? & ? & ? & _ & _ & _ & _ & Hfrom).
    destruct Hfrom as [(? & _ & _ & _ & _ & _ & ?)|(? & _ & _ & _ & _ & _ & ?)]; eauto.
Defined.

(** ** Merge and filter *)

Section merge.
Implicit Types (ticker_df info_df merged_df : DataFrame) (l s r : gmap string cell).

Lemma merge_inner_schema ticker_df info_df :
  columns ticker_df = ticker_keys → columns info_df = info_keys →
  merge_inner ticker_df info_df "Symbol" "" "_info"
  = Ok {| index_name := None; columns := merged_keys; rows := inner_join ticker_df info_df |}.
Proof.
  intros Hticker Hinfo. unfold merge_inner. rewrite Hticker, Hinfo.
  replace (bool_decide ("Symbol" ∈ ticker_keys ∧ "Symbol" ∈ info_keys)) with true
    by (by vm_compute).
  reflexivity.
Qed.

Lemma zip_with_fmap_same {A B C D} (f : B → C → D) (g : A → B) (h : A → C) (xs : list A) :
  zip_with f (g <$> xs) (h <$> xs) = (λ x, f (g x) (h x)) <$> xs.
Proof. induction xs as [|x xs IH]; [done|]. csimpl. by rewrite IH. Qed.

Lemma zip_with_fmap_r {A B C} (f : A → B → C) (g : A → B) (xs : list A) :
  zip_with f xs (g <$> xs) = (λ x, f x (g x)) <$> xs.
Proof. induction xs as [|x xs IH]; [done|]. csimpl. by rewrite IH. Qed.

(** With the columns the application gives them, the two frames merge
    without an exception into the named rows of their inner join. *)
Lemma merge_names_schema ticker_df info_df :
  columns ticker_df = ticker_keys → columns info_df = info_keys →
  merge_names ticker_df info_df
  = Ok {| index_name := None; columns := named_keys;
          rows := named <$> inner_join ticker_df info_df |}.
Proof.
  intros Hticker Hinfo. unfold merge_names. rewrite merge_inner_schema by done.
  cbn [rbind columns].
  replace (bool_decide ("Name_info" ∈ merged_keys)) with true by (by vm_compute).
  unfold getitem. cbn [columns rows].
  replace (bool_decide ("Name_info" ∈ merged_keys)) with true by (by vm_compute).
  replace (bool_decide ("Name" ∈ merged_keys)) with true by (by vm_compute).
  cbn [rbind]. unfold drop_column, setitem_series. cbn [columns rows index_name].
  replace (bool_decide ("Name" ∈ merged_keys)) with true by (by vm_compute). cbv iota.
  replace (bool_decide ("Name_info" ∈ merged_keys)) with true by (by vm_compute).
  f_equal. f_equal.
  by rewrite zip_with_fmap_same, zip_with_fmap_r, <-list_fmap_compose.
Qed.

Lemma filter_thresholds_rows merged_df min_price min_market_cap min_volume :
  "Last Sale" ∈ columns merged_df → "Market Cap" ∈ columns merged_df →
  "Volume" ∈ columns merged_df →
  filter_thresholds merged_df min_price min_market_cap min_volume
  = Ok {| index_name := index_name merged_df; columns := columns merged_df;
          rows := filter (λ r, passes min_price min_market_cap min_volume r = true)
                    (rows merged_df) |}.
Proof.
  intros Hsale Hcap Hvolume. unfold filter_thresholds, getitem.
  rewrite !bool_decide_eq_true_2 by done. cbn [rbind]. unfold getitem_mask.
  rewrite <-!list_fmap_compose, !zip_with_fmap_same, mask_rows_fmap. done.
Qed.

Lemma ge_num_at_least threshold (c : cell) : ge_num threshold c = true ↔ at_least threshold c.
Proof.
  unfold at_least. destruct c as [| |x|]; simpl;
    try (split; [done|by intros (x' & [=] & _)]).
  rewrite Qle_bool_iff. split; [by exists x|by intros (x' & [= <-] & ?)].
Qed.

Lemma elem_of_inner_join ticker_df info_df r :
  r ∈ inner_join ticker_df info_df ↔
  ∃ l s, l ∈ rows ticker_df ∧ s ∈ rows info_df
         ∧ same_key (at_ l "Symbol") (at_ s "Symbol") = true ∧ r = joined l s.
Proof.
  unfold inner_join. rewrite list_elem_of_bind. split.
  - intros (l & (s & Hr & Hs)%list_elem_of_bind & Hl).
    destruct (same_key _ _) eqn:Hkey; [|by apply elem_of_nil in Hr].
    apply list_elem_of_singleton in Hr. by exists l, s.
  - intros (l & s & Hl & Hs & Hkey & ->). exists l. split; [|done].
    apply list_elem_of_bind. exists s. split; [|done]. rewrite Hkey. by left.
Qed.

(** The cells of a named merged row, by the cells of the two rows it is
    made of. *)
Lemma named_joined_cells l s :
  let r := named (joined l s) in
  at_ r "Symbol" = at_ l "Symbol"
  ∧ at_ r "Market Category" = at_ l "Market Category"
  ∧ at_ r "Exchange" = at_ l "Exchange"
  ∧ at_ r "Last Sale" = at_ s "Last Sale"
  ∧ at_ r "Market Cap" = at_ s "Market Cap"
  ∧ at_ r "Volume" = at_ s "Volume"
  ∧ at_ r "Name" = fillna (at_ s "Name") (at_ l "Name").
Proof. cbn zeta. split_and!; reflexivity. Qed.

Lemma append_nil_r (c : string) : c +:+ "" = c.
Proof. induction c as [|a c IH]; [done|]. by rewrite append_cons, IH. Qed.

Lemma elem_of_zip_with {A B C} (f : A → B → C) (xs : list A) (ys : list B) (z : C) :
  z ∈ zip_with f xs ys → ∃ x y, x ∈ xs ∧ y ∈ ys ∧ z = f x y.
Proof.
  revert ys. induction xs as [|x xs IH]; intros [|y ys]; simpl;
    try (by intros ?%elem_of_nil).
  intros [->|Hz]%elem_of_cons.
  - exists x, y. split_and!; [by left|by left|done].
  - destruct (IH ys Hz) as (x' & y' & ? & ? & ->). exists x', y'.
    split_and!; [by right|by right|done].
Qed.

(** Whatever the columns of the two frames, a row of their merge comes
    from a row of each with the same symbol, and has that symbol. *)
Lemma merge_inner_rows ticker_df info_df merged_df r :
  merge_inner ticker_df info_df "Symbol" "" "_info" = Ok merged_df →
  r ∈ rows merged_df →
  ∃ l s, l ∈ rows ticker_df ∧ s ∈ rows info_df
         ∧ same_key (at_ l "Symbol") (at_ s "Symbol") = true
         ∧ at_ r "Symbol" = at_ l "Symbol".
Proof.
  unfold merge_inner. case_bool_decide as Hon; [|done]. destruct Hon as [Hon _].
  intros [= <-]. cbn [rows].
  intros (l & (s & Hr & Hs)%list_elem_of_bind & Hl)%list_elem_of_bind.
  destruct (same_key _ _) eqn:Hkey; [|by apply elem_of_nil in Hr].
  apply list_elem_of_singleton in Hr as ->. exists l, s. split_and!; [done..|].
  unfold at_ at 1. rewrite list_to_map_app, lookup_union_l'.
  - rewrite (elem_of_list_to_map_1' _ _ (at_ l "Symbol")); [done| |].
    + intros y (c & [= Hlabel ->] & _)%list_elem_of_fmap.
      assert (c = "Symbol") as -> by (case_bool_decide; by rewrite ?append_nil_r in Hlabel).
      done.
    + apply list_elem_of_fmap. exists "Symbol". split; [|done].
      by rewrite bool_decide_eq_false_2 by (by intros [? _]).
  - rewrite (elem_of_list_to_map_1' _ _ (at_ l "Symbol")); [done| |].
    + intros y (c & [= Hlabel ->] & _)%list_elem_of_fmap.
      assert (c = "Symbol") as -> by (case_bool_decide; by rewrite ?append_nil_r in Hlabel).
      done.
    + apply list_elem_of_fmap. exists "Symbol". split; [|done].
      by rewrite bool_decide_eq_false_2 by (by intros [? _]).
Qed.

Lemma merge_names_rows ticker_df info_df merged_df r :
  merge_names ticker_df info_df = Ok merged_df →
  r ∈ rows merged_df →
  ∃ l s, l ∈ rows ticker_df ∧ s ∈ rows info_df
         ∧ same_key (at_ l "Symbol") (at_ s "Symbol") = true
         ∧ at_ r "Symbol" = at_ l "Symbol".
Proof.
  unfold merge_names.
  destruct (merge_inner ticker_df info_df "Symbol" "" "_info") as [joined_df|msg] eqn:Hmerge;
    [|done].
  cbn [rbind]. case_bool_decide; [|intros [= <-]; by apply merge_inner_rows].
  unfold getitem. repeat case_bool_decide; cbn [rbind]; try done.
  unfold drop_column. case_bool_decide; [|done]. intros [= <-]. cbn [rows setitem_series].
  intros (r' & -> & (j & v & Hj & _ & ->)%elem_of_zip_with)%list_elem_of_fmap.
  destruct (merge_inner_rows _ _ _ j Hmerge Hj) as (l & s & ? & ? & ? & Hsymbol).
  exists l, s. split_and!; [done..|]. rewrite <-Hsymbol. unfold at_.
  by rewrite lookup_delete_ne, lookup_insert_ne.
Qed.

Lemma filter_thresholds_Ok merged_df min_price min_market_cap min_volume filtered_df :
  filter_thresholds merged_df min_price min_market_cap min_volume = Ok filtered_df →
  rows filtered_df
  = filter (λ r, passes min_price min_market_cap min_volume r = true) (rows merged_df).
Proof.
  intros Hfilter.
  destruct (decide ("Last Sale" ∈ columns merged_df ∧ "Market Cap" ∈ columns merged_df
                    ∧ "Volume" ∈ columns merged_df)) as [(? & ? & ?)|Hmissing].
  - rewrite filter_thresholds_rows in Hfilter by done. by injection Hfilter as <-.
  - exfalso. apply Hmissing. revert Hfilter. unfold filter_thresholds, getitem.
    by repeat case_bool_decide.
Qed.

(** C7: whatever the two tables and the thresholds, every row the merge
    and filter block puts out comes from a row of the ticker list and a
    row of the collected information with the same symbol (a row without
    a match on the other side gives no output row), has that symbol, and
    is at or above all three thresholds at once.  For the two tables as
    the application builds them, the block does not raise; it is skipped
    when no information was collected; otherwise its rows are rows of the
    inner join on [Symbol], in its order, with the cells of the two rows
    they are made of. *)
Theorem merge_and_filter_sound ticker_df info_df min_price min_market_cap min_volume :
  (∀ filtered_df r,
     merge_and_filter ticker_df info_df min_price min_market_cap min_volume
     = Ok (Some filtered_df) →
     r ∈ rows filtered_df →
     (∃ l s, l ∈ rows ticker_df ∧ s ∈ rows info_df
             ∧ same_key (at_ l "Symbol") (at_ s "Symbol") = true
             ∧ at_ r "Symbol" = at_ l "Symbol")
     ∧ at_least min_price (at_ r "Last Sale")
     ∧ at_least min_market_cap (at_ r "Market Cap")
     ∧ at_least min_volume (at_ r "Volume"))
  ∧ (columns ticker_df = ticker_keys →
     (df_empty info_df = false → columns info_df = info_keys) →
     match merge_and_filter ticker_df info_df min_price min_market_cap min_volume with
     | Exc _ => False
     | Ok None => df_empty info_df = true
     | Ok (Some filtered_df) =>
         df_empty info_df = false
         ∧ rows filtered_df `sublist_of` (named <$> inner_join ticker_df info_df)
         ∧ ∀ r, r ∈ rows filtered_df →
             ∃ l s, l ∈ rows ticker_df ∧ s ∈ rows info_df
                    ∧ same_key (at_ l "Symbol") (at_ s "Symbol") = true
                    ∧ at_ r "Symbol" = at_ l "Symbol"
                    ∧ at_ r "Market Category" = at_ l "Market Category"
                    ∧ at_ r "Exchange" = at_ l "Exchange"
                    ∧ at_ r "Last Sale" = at_ s "Last Sale"
                    ∧ at_ r "Market Cap" = at_ s "Market Cap"
                    ∧ at_ r "Volume" = at_ s "Volume"
     end).
Proof.
  split.
  - intros filtered_df r. unfold merge_and_filter.
    destruct (df_empty info_df); [done|]. cbn [negb].
    destruct (merge_names ticker_df info_df) as [merged_df|msg] eqn:Hmerge; [|done].
    cbn [rbind].
    destruct (filter_thresholds merged_df _ _ _) as [filtered_df'|msg] eqn:Hfilter; [|done].
    cbn [rbind]. intros [= <-]. rewrite (filter_thresholds_Ok _ _ _ _ _ Hfilter).
    intros [Hpasses Hr]%list_elem_of_filter.
    apply andb_prop in Hpasses as [[Hprice Hcap]%andb_prop Hvolume].
    split_and!; [by eapply merge_names_rows|by apply ge_num_at_least..].
  - intros Hticker Hinfo. unfold merge_and_filter.
    destruct (df_empty info_df) eqn:Hempty; [done|]. cbn [negb].
    rewrite merge_names_schema by auto. cbn [rbind].
    rewrite filter_thresholds_rows by (cbn [columns]; by apply (bool_decide_unpack _)).
    cbn [rbind rows]. split_and!; [done|apply sublist_filter|].
    intros r [_ (j & -> & Hj)%list_elem_of_fmap]%list_elem_of_filter.
    apply elem_of_inner_join in Hj as (l & s & Hl & Hs & Hkey & ->).
    destruct (named_joined_cells l s) as (? & ? & ? & ? & ? & ? & _).
    by exists l, s.
Qed.

(** C8 (amended): in every row of the merge, for the row [l] of the ticker
    list and the row [s] of the collected information it is made of,
    [Name] is the name of [s] whenever that name is not missing, the empty
    text included, and the name of [l] when it is missing; the name of
    [s] is the [longName] of the provider's information when it has that
    key, else its [shortName] when it has that key, else the symbol. *)
Theorem merged_name_prefers_summary ticker_df info_df :
  columns ticker_df = ticker_keys → columns info_df = info_keys →
  (∃ merged_df,
     merge_names ticker_df info_df = Ok merged_df
     ∧ ∀ r, r ∈ rows merged_df →
         ∃ l s, l ∈ rows ticker_df ∧ s ∈ rows info_df
                ∧ same_key (at_ l "Symbol") (at_ s "Symbol") = true
                ∧ (at_ s "Name" ≠ NA → at_ r "Name" = at_ s "Name")
                ∧ (at_ s "Name" = NA → at_ r "Name" = at_ l "Name"))
  ∧ ∀ (info : gmap string cell) symbol,
      info_name info symbol
      = match info !! "longName", info !! "shortName" with
        | Some long_name, _ => long_name
        | None, Some short_name => short_name
        | None, None => Str symbol
        end.
Proof.
  intros Hticker Hinfo. split.
  - rewrite merge_names_schema by done. eexists. split; [done|]. cbn [rows].
    intros r (j & -> & Hj)%list_elem_of_fmap.
    apply elem_of_inner_join in Hj as (l & s & Hl & Hs & Hkey & ->).
    destruct (named_joined_cells l s) as (_ & _ & _ & _ & _ & _ & Hname).
    exists l, s. split_and!; [done|done|done| |]; rewrite Hname.
    + by destruct (at_ s "Name").
    + by intros ->.
  - intros info symbol. unfold info_name.
    by destruct (info !! "longName"), (info !! "shortName").
Qed.
End merge.

Lemma merge_and_filter_sound_witness :
  ∃ filtered_df,
    merge_and_filter apple_tickers apple_info 5 10000000000 100000 = Ok (Some filtered_df)
    ∧ (∀ r, r ∈ rows filtered_df → at_least 5 (at_ r "Last Sale"))
    ∧ rows filtered_df `sublist_of` (named <$> inner_join apple_tickers apple_info).
Proof.
  destruct (merge_and_filter_sound apple_tickers apple_info 5 10000000000 100000)
    as [Hrows Hschema].
  specialize (Hschema eq_refl (λ _, eq_refl)).
  destruct (merge_and_filter _ _ _ _ _) as [[filtered_df|]|msg]; [|done|done].
  exists filtered_df. split_and!; [done| |by destruct Hschema as (_ & ? & _)].
  intros r Hr. by destruct (Hrows filtered_df r eq_refl Hr) as (_ & ? & _).
Defined.

Lemma merged_name_prefers_summary_witness :
  ∃ merged_df,
    merge_names apple_tickers apple_info = Ok merged_df
    ∧ ∀ r, r ∈ rows merged_df →
        ∃ l s, l ∈ rows apple_tickers ∧ s ∈ rows apple_info
               ∧ (at_ s "Name" ≠ NA → at_ r "Name" = at_ s "Name").
Proof.
  destruct (merged_name_prefers_summary apple_tickers apple_info eq_refl eq_refl)
    as [(merged_df & Hmerge & Hrows) _].
  exists merged_df. split; [done|]. intros r Hr.
  destruct (Hrows r Hr) as (l & s & ? & ? & _ & ? & _). by exists l, s.
Defined.

(** C8, as stated, fails for a summary name that is present and empty: the
    provider knows [ACME] under the long name [''], the ticker list under
    [Acme Corporation], and the merged row has the empty name, not the one
    of the ticker list. *)
Lemma empty_summary_name_counterexample :
  let info_df := (get_ticker_info_batch ["ACME"] None (world acme ∅)).1.1 in
  (λ s, at_ s "Name") <$> rows info_df = [Str ""]
  ∧ (λ l, at_ l "Name") <$> rows acme_tickers = [Str "Acme Corporation"]
  ∧ ∃ merged_df,
      merge_names acme_tickers info_df = Ok merged_df
      ∧ (λ r, at_ r "Name") <$> rows merged_df = [Str ""]
      ∧ (λ r, at_ r "Name") <$> rows merged_df ≠ [Str "Acme Corporation"].
Proof.
  intros info_df. split_and!; [reflexivity|reflexivity|].
  eexists. split_and!; [reflexivity|reflexivity|]. intros [=].
Qed.

(** ** Loop rules by position *)

Section loop_rules.
Context `{!Codec} {E : Type} `{!External E}.

Lemma enumerate_lookup {A} (l : list A) pre i x suf :
  enumerate l = pre ++ (i, x) :: suf → i = length pre ∧ l !! i = Some x.
Proof.
  intros Hl. assert (Hat : enumerate l !! length pre = Some (i, x)).
  { rewrite Hl. apply list_lookup_middle. done. }
  unfold enumerate in Hat.
  apply lookup_zip_with_Some in Hat as (i' & x' & [= -> ->] & Hi & Hx).
  apply lookup_seq in Hi as [-> _]. done.
Qed.

Lemma seq_lookup_middle n pre x suf :
  seq 0 n = pre ++ x :: suf → x = length pre ∧ x < n.
Proof.
  intros Hl. assert (Hat : seq 0 n !! length pre = Some x).
  { rewrite Hl. apply list_lookup_middle. done. }
  apply lookup_seq in Hat as [-> ?]. done.
Qed.

(** The invariant rule of [for i, x in enumerate(l)]: [P i] holds before
    the item of index [i], and [P (len(l))] after the loop. *)
Lemma for_each_enumerate_inv {A St} (body : nat * A → St → M E St)
    (P : nat → St → World E → Prop) (l : list A) :
  (∀ i x s w, l !! i = Some x → P i s w →
              P (S i) (body (i, x) s w).1 (body (i, x) s w).2) →
  ∀ s w, P 0 s w →
         P (length l) (for_each body (enumerate l) s w).1 (for_each body (enumerate l) s w).2.
Proof.
  intros Hbody s w Hstart.
  assert (Hlen : length (enumerate l) = length l).
  { unfold enumerate. rewrite length_zip_with, length_seq. lia. }
  pose proof (for_each_inv body (λ pre s w, P (length pre) s w) (enumerate l)) as Hinv.
  cbn beta in Hinv. rewrite Hlen in Hinv. apply Hinv; [|done].
  intros pre [i x] suf s' w' [-> Hx]%enumerate_lookup Hpre.
  rewrite length_app. simpl. rewrite Nat.add_1_r. by apply Hbody.
Qed.

Lemma slice_lookup {A} (l : list A) (i j k : nat) (x : A) :
  slice l i j !! k = Some x → l !! (i + k) = Some x.
Proof.
  unfold slice. intros Hk. apply lookup_take_Some in Hk as [Hk _].
  by rewrite lookup_drop in Hk.
Qed.

Lemma slice_length {A} (l : list A) (i j : nat) :
  i ≤ j → j ≤ length l → length (slice l i j) = j - i.
Proof. intros Hi Hj. unfold slice. rewrite length_take, length_drop. lia. Qed.

Lemma batches_before n batch_size k :
  1 ≤ batch_size → k < (n + batch_size - 1) / batch_size → k * batch_size < n.
Proof.
  intros Hsize Hk.
  pose proof (Nat.div_mod (n + batch_size - 1) batch_size) as Hdiv.
  pose proof (Nat.mod_upper_bound (n + batch_size - 1) batch_size) as Hmod.
  nia.
Qed.

Lemma batches_after n batch_size :
  1 ≤ batch_size → n ≤ (n + batch_size - 1) / batch_size * batch_size.
Proof.
  intros Hsize.
  pose proof (Nat.div_mod (n + batch_size - 1) batch_size) as Hdiv.
  pose proof (Nat.mod_upper_bound (n + batch_size - 1) batch_size) as Hmod.
  nia.
Qed.

Lemma download_batch_eq total_batches batch_size (new_tickers : list string) period delay
    batch_idx acc (w : World E) :
  download_batch total_batches batch_size new_tickers period delay batch_idx acc w
  = for_each (download_item (length new_tickers) (batch_idx * batch_size) period delay)
      (enumerate (batch_of new_tickers batch_size batch_idx)) acc
      (emit (EvText ("**배치 " +:+ pretty (batch_idx + 1) +:+ "/"
                     +:+ pretty total_batches +:+ "**")) w).2.
Proof. reflexivity. Qed.

Lemma run_download_eq (new_tickers : list string) period batch_size delay (w : World E) :
  let total_batches := (length new_tickers + batch_size - 1) / batch_size in
  let r := for_each (download_batch total_batches batch_size new_tickers period delay)
             (seq 0 total_batches) ([], []) w in
  run_download new_tickers period batch_size delay w
  = (r.1, (emit (EvText "✨ 다운로드 완료!") r.2).2).
Proof.
  cbn zeta. unfold run_download, mbind, M_bind.
  by destruct (for_each _ _ _ w) as [acc w1].
Qed.

(** The invariant rule of the download loop of [main], batches and items
    together: [P g] holds before the ticker of index [g] of the whole
    list, whatever batch it falls in, is kept by the texts the loop
    displays, and [P (len(new_tickers))] holds when the run is over. *)
Lemma run_download_inv (P : nat → list string * list (string * string) → World E → Prop)
    (new_tickers : list string) (period : string) (batch_size : nat) (delay : Z) :
  1 ≤ batch_size →
  (∀ g acc w msg, P g acc w → P g acc (emit (EvText msg) w).2) →
  (∀ g ticker acc w batch_start i,
     batch_start + i = g → new_tickers !! g = Some ticker → P g acc w →
     P (S g)
       (download_item (length new_tickers) batch_start period delay (i, ticker) acc w).1
       (download_item (length new_tickers) batch_start period delay (i, ticker) acc w).2) →
  ∀ w, P 0 ([], []) w →
       P (length new_tickers)
         (run_download new_tickers period batch_size delay w).1
         (run_download new_tickers period batch_size delay w).2.
Proof.
  intros Hsize Htext Hitem w Hstart. rewrite run_download_eq. cbn zeta.
  set (total_batches := (length new_tickers + batch_size - 1) / batch_size).
  cbn [fst snd]. apply Htext.
  pose proof (for_each_inv
                (download_batch total_batches batch_size new_tickers period delay)
                (λ pre acc w, P ((length pre * batch_size) `min` length new_tickers) acc w)
                (seq 0 total_batches)) as Hinv.
  cbn beta in Hinv. rewrite length_seq in Hinv.
  assert (Hmin : (total_batches * batch_size) `min` length new_tickers = length new_tickers).
  { pose proof (batches_after (length new_tickers) batch_size Hsize) as Hafter.
    fold total_batches in Hafter. clear -Hafter. clearbody total_batches. lia. }
  assert (Hstep : ∀ pre x suf s w,
            seq 0 total_batches = pre ++ x :: suf →
            P ((length pre * batch_size) `min` length new_tickers) s w →
            P ((length (pre ++ [x]) * batch_size) `min` length new_tickers)
              (download_batch total_batches batch_size new_tickers period delay x s w).1
              (download_batch total_batches batch_size new_tickers period delay x s w).2).
  { clear Hinv. intros pre batch_idx suf acc w' [-> Hidx]%seq_lookup_middle Hpre.
    pose proof (batches_before (length new_tickers) batch_size _ Hsize Hidx) as Hbefore.
    assert (Hle : length pre * batch_size ≤ length new_tickers) by (clear -Hbefore; lia).
    rewrite Nat.min_l in Hpre by done.
    rewrite length_app, download_batch_eq. simpl length.
    set (batch_start := length pre * batch_size) in *.
    assert (Hlen : ((length pre + 1) * batch_size) `min` length new_tickers
                   = batch_start + length (batch_of new_tickers batch_size (length pre))).
    { unfold batch_of. fold batch_start. rewrite slice_length by (clear -Hle; lia).
      unfold batch_start. clear -Hle. lia. }
    rewrite Hlen.
    apply (for_each_enumerate_inv _ (λ i acc w, P (batch_start + i) acc w)).
    - intros i ticker acc' w'' Hticker%slice_lookup Hi.
      rewrite Nat.add_succ_r. by apply Hitem.
    - rewrite Nat.add_0_r. by apply Htext. }
  specialize (Hinv Hstep ([], []) w Hstart). by rewrite Hmin in Hinv.
Qed.
End loop_rules.

(** ** More about the retry loop *)

Section retry.
Context `{!Codec} {E : Type} `{!External E}.
Implicit Types (w : World E) (ticker period : string).

(** A failure ends the loop only at its last attempt. *)
Lemma attempts_loop_failure_trace n : ∀ a ticker period w,
  a + n = 3 → 0 < n →
  (attempts_loop (seq a n) ticker period w).1.1 = false →
  ∃ new,
    log (attempts_loop (seq a n) ticker period w).2 = log w ++ new
    ∧ filter (λ ev, request_or_sleep ev = true) new
      = spaced (EvHistory ticker (Period period false)) (EvSleep 1000) n.
Proof.
  induction n as [|n IH]; intros a ticker period w Ha Hn; [lia|].
  cbn [seq]. rewrite attempts_loop_cons.
  destruct (attempt_body_log ticker period w) as (writes & Hlog & Hwrites).
  destruct (attempt_body ticker period w) as [r w1]; simpl in Hlog.
  assert (Hagain : (a <? 2) = true →
    ((sleep 1000;; attempts_loop (seq (S a) n) ticker period) w1).1.1 = false →
    ∃ new, log ((sleep 1000;; attempts_loop (seq (S a) n) ticker period) w1).2 = log w ++ new
      ∧ filter (λ ev, request_or_sleep ev = true) new
        = spaced (EvHistory ticker (Period period false)) (EvSleep 1000) (S n)).
  { intros Hlt%Nat.ltb_lt. unfold mbind, M_bind, sleep. intros Hfailed.
    edestruct (IH (S a) ticker period) as (new & Hnew & Hshape); [lia|lia|exact Hfailed|].
    rewrite Hnew. simpl. rewrite Hlog.
    exists ((EvHistory ticker (Period period false) :: writes) ++ [EvSleep 1000] ++ new).
    split; [by rewrite <-!app_assoc|].
    rewrite !filter_app, filter_cons_True by done. rewrite Hwrites, Hshape.
    destruct n as [|n]; [lia|]. done. }
  assert (Hlast : (a <? 2) = false →
    ∃ new, log w1 = log w ++ new
      ∧ filter (λ ev, request_or_sleep ev = true) new
        = spaced (EvHistory ticker (Period period false)) (EvSleep 1000) (S n)).
  { intros Hge%Nat.ltb_ge. assert (n = 0) as -> by lia.
    exists (EvHistory ticker (Period period false) :: writes). split; [done|].
    rewrite filter_cons_True by done. by rewrite Hwrites. }
  destruct r as [[rows|]|msg]; simpl; [done| |];
    (destruct (a <? 2) eqn:Hlt; [by apply Hagain|intros _; by apply Hlast]).
Qed.

(** X1: [download_ticker_data] answers failure only for a ticker without a
    cached file, and only after it has asked the provider three times,
    with a pause of one second after the first and after the second
    request: no failure is reported on fewer attempts. *)
Theorem failure_only_after_three_attempts w ticker period :
  (download_ticker_data ticker period w).1.1 = false →
  cache_dir w !! csv_name ticker = None
  ∧ ∃ new,
      log (download_ticker_data ticker period w).2 = log w ++ new
      ∧ filter (λ ev, request_or_sleep ev = true) new
        = [EvHistory ticker (Period period false); EvSleep 1000;
           EvHistory ticker (Period period false); EvSleep 1000;
           EvHistory ticker (Period period false)].
Proof.
  destruct (cache_dir w !! csv_name ticker) as [text|] eqn:Hfile.
  - rewrite download_ticker_data_cached by (by rewrite Hfile). done.
  - rewrite download_ticker_data_fresh by done. intros Hfailed. split; [done|].
    apply (attempts_loop_failure_trace 3 0); [done|lia|done].
Qed.

Lemma retried_S ticker period k w :
  retried ticker period (S k) w
  = retried ticker period k (sleep 1000 (attempt_body ticker period w).2).2.
Proof.
  induction k as [|k IH]; [done|]. cbn [retried] in *. by rewrite IH.
Qed.

(** An attempt that does not save leaves the directory as it is. *)
Lemma attempt_body_not_saved ticker period w :
  saves (attempt_body ticker period w).1 = false →
  cache_dir (attempt_body ticker period w).2 = cache_dir w.
Proof.
  rewrite attempt_body_eq.
  destruct (yf_history _ _ _) as [[df|msg] e1]; simpl; [|done].
  destruct (df_empty df); simpl; [done|].
  by destruct (disk_write _ _ _) as [[[]|msg] e2].
Qed.

(** What a success of the retry loop leaves behind: the frame of its last
    request, which the attempts before it led to. *)
Lemma attempts_loop_success attempts : ∀ ticker period w,
  (attempts_loop attempts ticker period w).1.1 = true →
  ∃ k df e1 e2,
    k < length attempts
    ∧ (∀ j, j < k → saves (attempt_body ticker period (retried ticker period j w)).1 = false)
    ∧ cache_dir (retried ticker period k w) = cache_dir w
    ∧ yf_history ticker (Period period false) (env (retried ticker period k w)) = (Ok df, e1)
    ∧ df_empty df = false
    ∧ disk_write (csv_name ticker)
        (to_csv true (set_columns df (capitalize <$> columns df))) e1 = (Ok (), e2)
    ∧ (attempts_loop attempts ticker period w).1.2 = pretty (length (rows df)) +:+ "개 데이터"
    ∧ (attempts_loop attempts ticker period w).2
      = {| env := e2;
           cache_dir := <[csv_name ticker := to_csv true (set_columns df (capitalize <$> columns df))]>
                          (cache_dir w);
           log := log (retried ticker period k w)
                  ++ [EvHistory ticker (Period period false); EvToCsv (csv_name ticker)] |}.
Proof.
  induction attempts as [|attempt rest IH]; intros ticker period w; [done|].
  rewrite attempts_loop_cons.
  assert (Hretry :
            saves (attempt_body ticker period w).1 = false →
            ((sleep 1000;; attempts_loop rest ticker period) (attempt_body ticker period w).2).1.1
            = true →
            ∃ k df e1 e2,
              k < length (attempt :: rest)
              ∧ (∀ j, j < k →
                      saves (attempt_body ticker period (retried ticker period j w)).1 = false)
              ∧ cache_dir (retried ticker period k w) = cache_dir w
              ∧ yf_history ticker (Period period false) (env (retried ticker period k w))
                = (Ok df, e1)
              ∧ df_empty df = false
              ∧ disk_write (csv_name ticker)
                  (to_csv true (set_columns df (capitalize <$> columns df))) e1 = (Ok (), e2)
              ∧ ((sleep 1000;; attempts_loop rest ticker period)
                   (attempt_body ticker period w).2).1.2
                = pretty (length (rows df)) +:+ "개 데이터"
              ∧ ((sleep 1000;; attempts_loop rest ticker period)
                   (attempt_body ticker period w).2).2
                = {| env := e2;
                     cache_dir := <[csv_name ticker :=
                                      to_csv true (set_columns df (capitalize <$> columns df))]>
                                    (cache_dir w);
                     log := log (retried ticker period k w)
                            ++ [EvHistory ticker (Period period false);
                                EvToCsv (csv_name ticker)] |}).
  { intros Hfailed. unfold mbind, M_bind. cbn beta iota.
    change (sleep 1000 (attempt_body ticker period w).2)
      with ((), (sleep 1000 (attempt_body ticker period w).2).2).
    cbn beta iota. intros Hok.
    destruct (IH ticker period _ Hok)
      as (k & df & e1 & e2 & Hk & Hbefore & Hdir & Hfetch & Hdata & Hwrite & Hmsg & Hend).
    exists (S k), df, e1, e2. rewrite !retried_S.
    split_and!; [simpl; lia| |..|done|done|done|done|].
    - intros [|j] Hj; [done|]. rewrite retried_S. apply Hbefore. lia.
    - rewrite Hdir. cbn [sleep snd cache_dir]. by apply attempt_body_not_saved.
    - rewrite Hend. f_equal. f_equal. cbn [sleep snd cache_dir].
      by apply attempt_body_not_saved. }
  destruct (attempt_body ticker period w) as [r w1] eqn:Hattempt. cbn [fst snd] in *.
  destruct r as [[n|]|msg]; cbn [saves] in *.
  - intros _. exists 0. cbn [retried]. clear Hretry IH.
    rewrite attempt_body_eq in Hattempt.
    destruct (yf_history _ _ _) as [[df|msg] e1]; simpl in Hattempt; [|done].
    destruct (df_empty df) eqn:Hdata; simpl in Hattempt; [done|].
    destruct (disk_write _ _ _) as [[[]|msg] e2] eqn:Hwrite; simpl in Hattempt; [|done].
    injection Hattempt as <- <-. exists df, e1, e2.
    split_and!; [simpl; lia|intros j Hj; lia|done|done|done|done| |done].
    simpl. unfold df_len, set_columns. cbn [rows]. by rewrite length_fmap.
  - destruct (attempt <? 2); [by apply Hretry|done].
  - destruct (attempt <? 2); [by apply Hretry|done].
Qed.

(** X2: when [download_ticker_data] answers success for a ticker that had
    no cached file, the file it leaves holds the frame the provider
    answered to the last request of this call: the attempts before it,
    two at most, did not save; the provider, in the state these attempts
    and the pauses after them left it in, answered a frame that is not
    empty, and the disk took it, with every column label capitalized and
    the index written.  The message counts the rows of that frame; the
    request and the write are the last things the call does, and no
    other file changes. *)
Theorem success_saves_what_it_reports w ticker period :
  cache_dir w !! csv_name ticker = None →
  (download_ticker_data ticker period w).1.1 = true →
  ∃ k df e1 e2,
    k < 3
    ∧ (∀ j, j < k → saves (attempt_body ticker period (retried ticker period j w)).1 = false)
    ∧ yf_history ticker (Period period false) (env (retried ticker period k w)) = (Ok df, e1)
    ∧ df_empty df = false
    ∧ disk_write (csv_name ticker)
        (to_csv true (set_columns df (capitalize <$> columns df))) e1 = (Ok (), e2)
    ∧ (download_ticker_data ticker period w).1.2 = pretty (length (rows df)) +:+ "개 데이터"
    ∧ (download_ticker_data ticker period w).2
      = {| env := e2;
           cache_dir := <[csv_name ticker := to_csv true (set_columns df (capitalize <$> columns df))]>
                          (cache_dir w);
           log := log (retried ticker period k w)
                  ++ [EvHistory ticker (Period period false); EvToCsv (csv_name ticker)] |}.
Proof.
  intros Hfile. rewrite download_ticker_data_fresh by done. intros Hok.
  destruct (attempts_loop_success _ _ _ _ Hok)
    as (k & df & e1 & e2 & Hk & Hbefore & _ & Hfetch & Hdata & Hwrite & Hmsg & Hend).
  exists k, df, e1, e2. rewrite length_seq in Hk. done.
Qed.

#[local] Existing Instance skips_cached_preorder.

(** X3: once [download_ticker_data] has answered success for a ticker, the
    ticker stays skipped: after any later download run, over any tickers,
    a call for it, for any period, answers "already downloaded" and does
    nothing, so a file is never fetched again for another period. *)
Theorem downloaded_ticker_stays_skipped w ticker period :
  (download_ticker_data ticker period w).1.1 = true →
  ∀ tickers period' batch_size delay period'',
    let w1 := (download_ticker_data ticker period w).2 in
    let w2 := (run_download tickers period' batch_size delay w1).2 in
    download_ticker_data ticker period'' w1 = ((true, "이미 다운로드됨"), w1)
    ∧ download_ticker_data ticker period'' w2 = ((true, "이미 다운로드됨"), w2).
Proof.
  intros Hok tickers period' batch_size delay period'' w1 w2.
  assert (Hfile : is_Some (cache_dir w1 !! csv_name ticker)).
  { destruct (download_ticker_data_effects ticker period w) as (_ & Hnew & Hsame).
    cbn zeta in *. fold w1 in Hnew, Hsame.
    destruct (cache_dir w !! csv_name ticker) as [text|] eqn:Hcached.
    - rewrite Hsame by (right; eauto). by rewrite Hcached.
    - destruct (Hnew Hok eq_refl) as [text ->]. by rewrite lookup_insert_eq. }
  split; [by apply download_ticker_data_cached|].
  apply download_ticker_data_cached.
  by apply (run_download_skips_cached tickers period' batch_size delay w1).
Qed.
End retry.

Lemma failure_only_after_three_attempts_witness :
  cache_dir (world aapl_and_badticker ∅) !! csv_name "BADTICKER" = None
  ∧ length (filter (λ ev, is_history ev = true)
              (log (download_ticker_data "BADTICKER" "8y" (world aapl_and_badticker ∅)).2)) = 3.
Proof.
  destruct (failure_only_after_three_attempts (world aapl_and_badticker ∅) "BADTICKER" "8y")
    as (Hfile & new & Hlog & Hshape); [reflexivity|].
  split; [exact Hfile|]. rewrite Hlog. simpl.
  by rewrite <-history_of_requests, Hshape.
Defined.

Lemma success_saves_what_it_reports_witness :
  ∃ df, (download_ticker_data "AAPL" "8y" (world aapl_and_badticker ∅)).1.2
        = pretty (length (rows df)) +:+ "개 데이터"
        ∧ df_empty df = false.
Proof.
  destruct (success_saves_what_it_reports (world aapl_and_badticker ∅) "AAPL" "8y")
    as (k & df & e1 & e2 & _ & _ & _ & Hdata & _ & Hmsg & _); [reflexivity..|].
  by exists df.
Defined.

Lemma downloaded_ticker_stays_skipped_witness :
  let w1 := (download_ticker_data "AAPL" "8y" (world aapl_and_badticker ∅)).2 in
  download_ticker_data "AAPL" "max" w1 = ((true, "이미 다운로드됨"), w1).
Proof.
  intros w1.
  assert (Hok : (download_ticker_data "AAPL" "8y" (world aapl_and_badticker ∅)).1.1 = true)
    by reflexivity.
  exact (proj1 (downloaded_ticker_stays_skipped (world aapl_and_badticker ∅) "AAPL" "8y"
                  Hok [] "1y" 10 500%Z "max")).
Defined.

(** ** The download loop of [main], item by item *)

Section download_loop.
Context `{!Codec} {E : Type} `{!External E}.
Implicit Types (w : World E) (ticker period : string).

(** One item of the loop, by the call it makes. *)
Lemma download_item_eq total batch_start period delay i ticker acc w :
  let g := batch_start + i in
  let w0 := (emit (EvText ("다운로드 중: " +:+ ticker +:+ " (" +:+ pretty (g + 1) +:+ "/"
                           +:+ pretty total +:+ ")"))
               (emit (EvProgress (g + 1) total) w).2).2 in
  let call := download_ticker_data ticker period w0 in
  let report := if call.1.1 then EvSuccess ("✅ " +:+ ticker +:+ ": " +:+ call.1.2)
                else EvError ("❌ " +:+ ticker +:+ ": " +:+ call.1.2) in
  download_item total batch_start period delay (i, ticker) acc w
  = (if call.1.1 then (acc.1 ++ [ticker], acc.2) else (acc.1, acc.2 ++ [(ticker, call.1.2)]),
     ((if g <? total - 1 then sleep delay else mret ()) (emit report call.2).2).2).
Proof.
  cbn zeta. unfold download_item, mbind, M_bind, emit. cbn beta iota.
  destruct (download_ticker_data _ _ _) as [[[] result] w1]; cbn beta iota;
    by destruct (_ <? _).
Qed.

Lemma filter_ext_Forall {A} (P1 P2 : A → Prop)
    `{!∀ x, Decision (P1 x)} `{!∀ x, Decision (P2 x)} (l : list A) :
  Forall (λ x, P1 x ↔ P2 x) l → filter P1 l = filter P2 l.
Proof.
  induction 1 as [|x l Hx _ IH]; [done|].
  destruct (decide (P1 x)) as [HP|HP].
  - rewrite !filter_cons_True by tauto. by rewrite IH.
  - rewrite !filter_cons_False by tauto. done.
Qed.

(** The pace of one call: at most three requests, one second apart. *)
Lemma download_ticker_data_trace ticker period w :
  ∃ new k,
    log (download_ticker_data ticker period w).2 = log w ++ new
    ∧ k ≤ 3
    ∧ filter (λ ev, paced ev = true) new
      = spaced (EvHistory ticker (Period period false)) (EvSleep 1000) k.
Proof.
  assert (Hpaced : ∀ new, Forall (own_event ticker period) new →
            filter (λ ev, paced ev = true) new
            = filter (λ ev, request_or_sleep ev = true) new).
  { intros new Hown. apply filter_ext_Forall. eapply Forall_impl; [exact Hown|].
    by intros ev [->|[->| ->]]. }
  destruct (cache_dir w !! csv_name ticker) as [text|] eqn:Hfile.
  - rewrite download_ticker_data_cached by (by rewrite Hfile).
    exists [], 0. simpl. rewrite app_nil_r. split_and!; [done|lia|done].
  - destruct (download_ticker_data_effects ticker period w) as ((new & Hnew & Hown & _) & _).
    rewrite download_ticker_data_fresh in * by done.
    destruct (attempts_loop_trace 3 0 ticker period w) as (new' & k & Hlog & Hk & Hshape);
      [done|lia|].
    cbn zeta in Hnew. rewrite Hlog in Hnew. apply app_inv_head in Hnew as <-.
    exists new', k. split_and!; [done|lia|]. by rewrite Hpaced.
Qed.

(** The pace of one item of the loop. *)
Lemma download_item_trace total batch_start period delay i ticker acc w :
  ∃ new k,
    log (download_item total batch_start period delay (i, ticker) acc w).2 = log w ++ new
    ∧ k ≤ 3
    ∧ filter (λ ev, paced ev = true) new
      = item_trace total period delay (batch_start + i) ticker k.
Proof.
  rewrite download_item_eq. cbn zeta.
  match goal with |- context [download_ticker_data ticker period ?w0] =>
    destruct (download_ticker_data_trace ticker period w0) as (new & k & Hnew & Hk & Hshape);
    destruct (download_ticker_data ticker period w0) as [[ok result] w1] end.
  cbn [fst snd log emit] in *.
  exists ([EvProgress (batch_start + i + 1) total;
           EvText ("다운로드 중: " +:+ ticker +:+ " (" +:+ pretty (batch_start + i + 1) +:+ "/"
                   +:+ pretty total +:+ ")")]
          ++ new
          ++ [if ok then EvSuccess ("✅ " +:+ ticker +:+ ": " +:+ result)
              else EvError ("❌ " +:+ ticker +:+ ": " +:+ result)]
          ++ (if batch_start + i <? total - 1 then [EvSleep delay] else [])), k.
  split_and!; [|done|].
  - destruct (_ <? _); simpl; rewrite Hnew; simpl; rewrite <-?app_assoc; simpl;
      by rewrite ?app_nil_r.
  - unfold item_trace. rewrite !filter_app, Hshape. 
    rewrite filter_cons_True by done. rewrite filter_cons_False by (by intros [=]).
    rewrite filter_nil. simpl. f_equal. f_equal.
    rewrite (filter_cons_False _ (if ok then _ else _)) by (by destruct ok; intros [=]).
    rewrite filter_nil. simpl.
    destruct (_ <? _); [|done]. by rewrite filter_cons_True.
Qed.

Lemma item_trace_last n period delay g ticker k (ks : list nat) (done_ : list string) :
  length done_ = g → length ks = g →
  concat (imap (λ g tk, item_trace n period delay g tk.1 tk.2) (zip (done_ ++ [ticker]) (ks ++ [k])))
  = concat (imap (λ g tk, item_trace n period delay g tk.1 tk.2) (zip done_ ks))
    ++ item_trace n period delay g ticker k.
Proof.
  intros Hdone Hks. rewrite (zip_with_app pair) by lia.
  rewrite imap_app, concat_app. simpl. rewrite app_nil_r.
  rewrite length_zip_with, Hdone, Hks, Nat.min_id, Nat.add_0_r. done.
Qed.

(** X9: the pace of a whole download run.  Ticker by ticker, in the order
    of the list and whatever the batch size, the run displays the progress
    [(g + 1, n)] before it asks for the ticker of index [g], asks the
    provider at most three times with one second between two requests,
    and pauses for [delay] before the next ticker, but not after the
    last one; it makes no other request and takes no other pause.  The
    tickers are such that their files have names the file system can
    hold: [path.exists()] raises for another one, and the run ends
    there. *)
Theorem download_run_is_paced w new_tickers period batch_size delay :
  1 ≤ batch_size →
  Forall file_name_fits new_tickers →
  ∃ new ks,
    log (run_download new_tickers period batch_size delay w).2 = log w ++ new
    ∧ length ks = length new_tickers
    ∧ Forall (λ k, k ≤ 3) ks
    ∧ filter (λ ev, paced ev = true) new = run_trace new_tickers period delay ks.
Proof.
  intros Hsize _. unfold run_trace.
  set (P := λ g (_ : list string * list (string * string)) (w' : World E),
         ∃ new ks,
           log w' = log w ++ new ∧ length ks = g ∧ Forall (λ k, k ≤ 3) ks
           ∧ filter (λ ev, paced ev = true) new
             = concat (imap (λ g tk, item_trace (length new_tickers) period delay g tk.1 tk.2)
                         (zip (take g new_tickers) ks))).
  assert (Hend : P (length new_tickers)
                   (run_download new_tickers period batch_size delay w).1
                   (run_download new_tickers period batch_size delay w).2).
  { apply run_download_inv; [done| | |].
    - intros g acc w' msg (new & ks & Hnew & Hks & Hbound & Hshape).
      exists (new ++ [EvText msg]), ks. split_and!; [|done|done|].
      + simpl. by rewrite Hnew, app_assoc.
      + rewrite filter_app, filter_cons_False by (by intros [=]).
        by rewrite filter_nil, app_nil_r.
    - intros g ticker acc w' batch_start i <- Hticker (new & ks & Hnew & Hks & Hbound & Hshape).
      destruct (download_item_trace (length new_tickers) batch_start period delay i ticker acc w')
        as (new' & k & Hnew' & Hk & Hshape').
      exists (new ++ new'), (ks ++ [k]). split_and!.
      + by rewrite Hnew', Hnew, app_assoc.
      + rewrite length_app. simpl. lia.
      + apply Forall_app. split; [done|]. by apply Forall_singleton.
      + rewrite filter_app, Hshape, Hshape'. rewrite (take_S_r _ _ ticker) by done.
        rewrite (item_trace_last _ _ _ (batch_start + i)); [done| |done].
        apply lookup_lt_Some in Hticker. rewrite length_take. lia.
    - exists [], []. rewrite app_nil_r. done. }
  destruct Hend as (new & ks & Hnew & Hks & Hbound & Hshape).
  rewrite firstn_all in Hshape. by exists new, ks.
Qed.
End download_loop.

(** ** The cost and the outcome of a download run *)

Section download_cost.
Context `{!Codec} {E : Type} `{!External E}.
Implicit Types (w : World E) (ticker period : string) (evs : list Event).

Lemma slept_app evs1 evs2 : slept (evs1 ++ evs2) = (slept evs1 + slept evs2)%Z.
Proof.
  induction evs1 as [|ev evs1 IH]; [done|]. simpl. rewrite IH. destruct ev; lia.
Qed.

Lemma requests_app evs1 evs2 : requests (evs1 ++ evs2) = requests evs1 + requests evs2.
Proof. unfold requests. by rewrite filter_app, length_app. Qed.

Lemma slept_paced evs : slept (filter (λ ev, paced ev = true) evs) = slept evs.
Proof.
  induction evs as [|ev evs IH]; [done|].
  destruct ev; rewrite ?filter_cons_True, ?filter_cons_False by (by compute);
    simpl; by rewrite IH.
Qed.

Lemma requests_paced evs : requests (filter (λ ev, paced ev = true) evs) = requests evs.
Proof.
  unfold requests. induction evs as [|ev evs IH]; [done|].
  destruct ev; rewrite ?filter_cons_True, ?filter_cons_False by (by compute);
    rewrite ?filter_cons_True, ?filter_cons_False by (by compute); simpl; by rewrite ?IH.
Qed.

Lemma slept_spaced request k :
  is_sleep request = false →
  slept (spaced request (EvSleep 1000) k) = (1000 * Z.of_nat (k - 1))%Z.
Proof.
  intros Hrequest. induction k as [|k IH]; [done|].
  cbn [spaced]. destruct k as [|k]; [by destruct request|].
  replace (slept (request :: EvSleep 1000 :: spaced request (EvSleep 1000) (S k)))
    with (1000 + slept (spaced request (EvSleep 1000) (S k)))%Z by (by destruct request).
  rewrite IH. lia.
Qed.

(** The cost of one item of the loop: its requests, its retries and the
    time it sleeps. *)
Lemma download_item_cost total batch_start period delay i ticker acc w :
  ∃ new retries,
    log (download_item total batch_start period delay (i, ticker) acc w).2 = log w ++ new
    ∧ retries ≤ 2
    ∧ requests new ≤ 1 + retries
    ∧ slept new = ((if (batch_start + i <? total - 1)%nat then delay else 0)
                   + 1000 * Z.of_nat retries)%Z.
Proof.
  destruct (download_item_trace total batch_start period delay i ticker acc w)
    as (new & k & Hnew & Hk & Hshape).
  exists new, (k - 1). split_and!; [done|lia| |].
  - rewrite <-requests_paced, Hshape. unfold item_trace.
    change (EvProgress ?a ?b :: ?l) with ([EvProgress a b] ++ l).
    rewrite !requests_app. unfold requests at 2. rewrite spaced_requests by done.
    replace (requests [EvProgress (batch_start + i + 1) total]) with 0 by done.
    destruct (_ <? _);
      [replace (requests [EvSleep delay]) with 0 by done
      |replace (requests []) with 0 by done]; lia.
  - rewrite <-slept_paced, Hshape. unfold item_trace.
    change (EvProgress ?a ?b :: ?l) with ([EvProgress a b] ++ l).
    rewrite !slept_app, slept_spaced by done.
    destruct (_ <? _); simpl; lia.
Qed.

(** X10: what a download run of [n] tickers costs, at most.  Beside the
    [n - 1] pauses of [delay] between the tickers, the run sleeps one
    second for every retry; it retries at most twice for a ticker, and
    asks the provider at most once more than it retries for it: at most
    [3 * n] requests in all.  The tickers are such that their files have
    names the file system can hold: the run ends early at another one. *)
Theorem download_run_cost w new_tickers period batch_size delay :
  1 ≤ batch_size →
  Forall file_name_fits new_tickers →
  ∃ new retries,
    log (run_download new_tickers period batch_size delay w).2 = log w ++ new
    ∧ retries ≤ 2 * length new_tickers
    ∧ requests new ≤ length new_tickers + retries
    ∧ requests new ≤ 3 * length new_tickers
    ∧ slept new = (Z.of_nat (length new_tickers - 1) * delay + 1000 * Z.of_nat retries)%Z.
Proof.
  intros Hsize _.
  set (P := λ g (_ : list string * list (string * string)) (w' : World E),
         ∃ new retries,
           log w' = log w ++ new ∧ retries ≤ 2 * g ∧ requests new ≤ g + retries
           ∧ slept new = (Z.of_nat (g `min` (length new_tickers - 1)) * delay
                          + 1000 * Z.of_nat retries)%Z).
  assert (Hend : P (length new_tickers)
                   (run_download new_tickers period batch_size delay w).1
                   (run_download new_tickers period batch_size delay w).2).
  { apply run_download_inv; [done| | |].
    - intros g acc w' msg (new & retries & Hnew & Hretries & Hrequests & Hslept).
      exists (new ++ [EvText msg]), retries. split_and!; [|done| |].
      + simpl. by rewrite Hnew, app_assoc.
      + rewrite requests_app. unfold requests at 2.
        rewrite filter_cons_False by (by intros [=]). rewrite filter_nil. simpl. lia.
      + rewrite slept_app. simpl. lia.
    - intros g ticker acc w' batch_start i <- Hticker
        (new & retries & Hnew & Hretries & Hrequests & Hslept).
      destruct (download_item_cost (length new_tickers) batch_start period delay i ticker acc w')
        as (new' & retries' & Hnew' & Hretries' & Hrequests' & Hslept').
      exists (new ++ new'), (retries + retries'). split_and!.
      + by rewrite Hnew', Hnew, app_assoc.
      + lia.
      + rewrite requests_app. lia.
      + rewrite slept_app, Hslept, Hslept'. apply lookup_lt_Some in Hticker.
        destruct (batch_start + i <? length new_tickers - 1) eqn:Hlast.
        * apply Nat.ltb_lt in Hlast. rewrite !Nat.min_l by lia. lia.
        * apply Nat.ltb_ge in Hlast. rewrite !Nat.min_r by lia. lia.
    - exists [], 0. rewrite app_nil_r. split_and!; [done|lia|done|]. simpl. lia. }
  destruct Hend as (new & retries & Hnew & Hretries & Hrequests & Hslept).
  rewrite Nat.min_r in Hslept by lia. exists new, retries. split_and!; [done..|lia|done].
Qed.
End download_cost.

Lemma download_run_is_paced_witness :
  ∃ ks, length ks = 2
        ∧ filter (λ ev, paced ev = true)
            (log (run_download ["AAPL"; "BADTICKER"] "8y" 10 500 (world aapl_and_badticker ∅)).2)
          = run_trace ["AAPL"; "BADTICKER"] "8y" 500 ks.
Proof.
  destruct (download_run_is_paced (world aapl_and_badticker ∅) ["AAPL"; "BADTICKER"] "8y" 10 500)
    as (new & ks & Hnew & Hks & _ & Hshape);
    [lia|repeat constructor; unfold file_name_fits; simpl; lia|].
  exists ks. split; [exact Hks|]. by rewrite Hnew.
Defined.

Lemma download_run_cost_witness :
  requests (log (run_download ["AAPL"; "BADTICKER"] "8y" 10 500 (world aapl_and_badticker ∅)).2)
  ≤ 6.
Proof.
  destruct (download_run_cost (world aapl_and_badticker ∅) ["AAPL"; "BADTICKER"] "8y" 10 500)
    as (new & retries & Hnew & _ & _ & Hrequests & _);
    [lia|repeat constructor; unfold file_name_fits; simpl; lia|].
  rewrite Hnew. exact Hrequests.
Defined.

(** ** What a download run records and leaves in the cache directory *)

Section download_outcomes.
Context `{!Codec} {E : Type} `{!External E}.
Implicit Types (w : World E) (ticker period : string).

Lemma with_outcome_snoc ok (done_ : list string) (oks : list bool) ticker ok' :
  length done_ = length oks →
  with_outcome ok (done_ ++ [ticker]) (oks ++ [ok'])
  = with_outcome ok done_ oks ++ (if bool_decide (ok' = ok) then [ticker] else []).
Proof.
  intros Hlen. unfold with_outcome. rewrite (zip_with_app pair) by done.
  rewrite filter_app, fmap_app. f_equal. simpl.
  case_bool_decide.
  - by rewrite filter_cons_True.
  - by rewrite filter_cons_False.
Qed.

Lemma elem_of_with_outcome ok (new_tickers : list string) (oks : list bool) ticker :
  ticker ∈ with_outcome ok new_tickers oks ↔ (ticker, ok) ∈ zip new_tickers oks.
Proof.
  unfold with_outcome. rewrite list_elem_of_fmap. split.
  - intros ([t ok'] & -> & [Hok Hin]%list_elem_of_filter). simpl in *. by subst.
  - intros Hin. exists (ticker, ok). split; [done|]. by apply list_elem_of_filter.
Qed.

Lemma with_outcome_sublist ok (new_tickers : list string) (oks : list bool) :
  with_outcome ok new_tickers oks `sublist_of` new_tickers.
Proof.
  unfold with_outcome. trans (zip new_tickers oks).*1.
  - apply fmap_sublist, sublist_filter.
  - revert oks. induction new_tickers as [|t l IH]; intros [|ok' oks]; simpl;
      [done|done|apply sublist_nil_l|]. by apply sublist_skip.
Qed.

Lemma with_outcome_length (new_tickers : list string) (oks : list bool) :
  length oks = length new_tickers →
  length (with_outcome true new_tickers oks) + length (with_outcome false new_tickers oks)
  = length new_tickers.
Proof.
  revert oks. induction new_tickers as [|t l IH]; intros [|ok oks] Hlen; simpl in *;
    [done|done|done|].
  specialize (IH oks ltac:(lia)). unfold with_outcome in *. rewrite !length_fmap in *.
  change (zip (t :: l) (ok :: oks)) with ((t, ok) :: zip l oks).
  destruct ok.
  - rewrite filter_cons_True, filter_cons_False by done. cbn [length]. lia.
  - rewrite filter_cons_False, filter_cons_True by done. cbn [length]. lia.
Qed.

Lemma NoDup_lookup_take {A} (l : list A) g x :
  NoDup l → l !! g = Some x → x ∉ take g l.
Proof.
  intros Hl Hx Hin. rewrite <-(take_drop_middle l g x Hx) in Hl.
  apply NoDup_app in Hl as (_ & Hdisjoint & _). apply (Hdisjoint x Hin). by left.
Qed.

(** What one item of the loop records, and what it does to the files. *)
Lemma download_item_outcome total batch_start period delay i ticker acc w :
  let r := download_item total batch_start period delay (i, ticker) acc w in
  ∃ ok reason,
    r.1 = (if ok : bool then (acc.1 ++ [ticker], acc.2) else (acc.1, acc.2 ++ [(ticker, reason)]))
    ∧ (∀ name, name ≠ csv_name ticker → cache_dir r.2 !! name = cache_dir w !! name)
    ∧ (if ok then is_Some (cache_dir r.2 !! csv_name ticker)
       else cache_dir r.2 = cache_dir w ∧ cache_dir w !! csv_name ticker = None).
Proof.
  cbn zeta. rewrite download_item_eq. cbn zeta.
  match goal with |- context [download_ticker_data ticker period ?w0] =>
    pose proof (download_ticker_data_effects ticker period w0) as (_ & Hok & Hsame);
    pose proof (download_ticker_data_cached ticker period w0) as Hcached;
    destruct (download_ticker_data ticker period w0) as [[ok reason] w1] end.
  unfold emit in Hok, Hsame, Hcached. cbn [fst snd cache_dir] in *.
  exists ok, reason. split; [done|].
  assert (Hdir : ∀ ev, cache_dir ((if batch_start + i <? total - 1 then sleep delay else mret ())
                                    (emit ev w1).2).2 = cache_dir w1)
    by (intros ev; by destruct (_ <? _)).
  rewrite !Hdir.
  destruct (cache_dir w !! csv_name ticker) as [text|] eqn:Hfile.
  - injection (Hcached ltac:(done)) as -> _ ->.
    cbn [cache_dir]. by rewrite Hfile.
  - destruct ok.
    + destruct Hok as [text ->]; [done..|]. split.
      * intros name Hname. by rewrite lookup_insert_ne.
      * by rewrite lookup_insert_eq.
    + rewrite Hsame by (by left). done.
Qed.

(** The outcomes of a run, position by position, and the files it
    leaves. *)
Lemma run_download_outcomes w new_tickers period batch_size delay :
  1 ≤ batch_size →
  let r := run_download new_tickers period batch_size delay w in
  ∃ oks,
    length oks = length new_tickers
    ∧ r.1.1 = with_outcome true new_tickers oks
    ∧ r.1.2.*1 = with_outcome false new_tickers oks
    ∧ (∀ name, (∀ t, t ∈ new_tickers → name ≠ csv_name t) →
               cache_dir r.2 !! name = cache_dir w !! name)
    ∧ (∀ t, t ∈ with_outcome true new_tickers oks → is_Some (cache_dir r.2 !! csv_name t))
    ∧ (NoDup new_tickers →
       ∀ t, t ∈ with_outcome false new_tickers oks → cache_dir r.2 !! csv_name t = None).
Proof.
  intros Hsize. cbn zeta.
  set (P := λ g (acc : list string * list (string * string)) (w' : World E),
         ∃ oks,
           length oks = g
           ∧ acc.1 = with_outcome true (take g new_tickers) oks
           ∧ acc.2.*1 = with_outcome false (take g new_tickers) oks
           ∧ (∀ name, (∀ t, t ∈ take g new_tickers → name ≠ csv_name t) →
                      cache_dir w' !! name = cache_dir w !! name)
           ∧ (∀ t, t ∈ with_outcome true (take g new_tickers) oks →
                   is_Some (cache_dir w' !! csv_name t))
           ∧ (NoDup new_tickers →
              ∀ t, t ∈ with_outcome false (take g new_tickers) oks →
                   cache_dir w' !! csv_name t = None)).
  assert (Hend : P (length new_tickers)
                   (run_download new_tickers period batch_size delay w).1
                   (run_download new_tickers period batch_size delay w).2).
  { apply run_download_inv; [done| | |].
    - intros g acc w' msg (oks & ?). by exists oks.
    - intros g ticker acc w' batch_start i <- Hticker
        (oks & Hlen & Hsuccess & Hfail & Hothers & Hfiles & Hnone).
      destruct (download_item_outcome (length new_tickers) batch_start period delay i ticker acc w')
        as (ok & reason & -> & Hkept & Hfile).
      assert (Hlen' : length (take (batch_start + i) new_tickers) = length oks).
      { apply lookup_lt_Some in Hticker. rewrite length_take. lia. }
      exists (oks ++ [ok]). rewrite (take_S_r _ _ ticker) by done.
      rewrite !with_outcome_snoc by done.
      split_and!.
      + rewrite length_app. simpl. lia.
      + destruct ok; simpl; [by rewrite Hsuccess|by rewrite Hsuccess, app_nil_r].
      + destruct ok; simpl; [by rewrite Hfail, app_nil_r|by rewrite fmap_app, Hfail].
      + intros name Hname. rewrite Hkept.
        * apply Hothers. intros t Ht. apply Hname. apply elem_of_app. by left.
        * apply Hname. apply elem_of_app. right. by left.
      + intros t [Ht|Ht]%elem_of_app.
        * apply Hfiles in Ht. destruct ok.
          -- destruct (decide (csv_name t = csv_name ticker)) as [->|Hne]; [done|].
             by rewrite Hkept.
          -- destruct Hfile as [-> _]. done.
        * destruct ok; [|by apply elem_of_nil in Ht].
          apply list_elem_of_singleton in Ht as ->. done.
      + intros Hdistinct t [Ht|Ht]%elem_of_app.
        * assert (t ≠ ticker) as Hne.
          { intros ->. apply (NoDup_lookup_take _ _ _ Hdistinct Hticker).
            eapply elem_of_sublist; [exact Ht|apply with_outcome_sublist]. }
          rewrite Hkept; [by apply Hnone|]. by intros ?%csv_name_inj.
        * destruct ok; [by apply elem_of_nil in Ht|].
          apply list_elem_of_singleton in Ht as ->. destruct Hfile as [-> ?]. done.
    - exists []. split_and!; try done.
      + intros t Ht. by apply elem_of_nil in Ht.
      + intros _ t Ht. by apply elem_of_nil in Ht. }
  destruct Hend as (oks & Hlen & Hsuccess & Hfail & Hothers & Hfiles & Hnone).
  rewrite firstn_all in *. by exists oks.
Qed.

(** X8: a download run records every position of its list once, in the
    order of the list, also when a ticker is listed twice: there is one
    outcome for each position, [success_list] is the tickers of the
    positions that succeeded and [fail_list] those of the positions that
    failed, both in the order of the list.  The tickers are such that
    their files have names the file system can hold: [path.exists()]
    raises for another one, and the run ends there. *)
Theorem download_run_keeps_order w new_tickers period batch_size delay :
  1 ≤ batch_size →
  Forall file_name_fits new_tickers →
  let '(success_list, fail_list) := (run_download new_tickers period batch_size delay w).1 in
  (∃ oks, length oks = length new_tickers
          ∧ success_list = with_outcome true new_tickers oks
          ∧ fail_list.*1 = with_outcome false new_tickers oks)
  ∧ success_list `sublist_of` new_tickers
  ∧ fail_list.*1 `sublist_of` new_tickers
  ∧ length success_list + length fail_list = length new_tickers.
Proof.
  intros Hsize _.
  destruct (run_download_outcomes w new_tickers period batch_size delay Hsize)
    as (oks & Hlen & Hsuccess & Hfail & _).
  destruct (run_download _ _ _ _ w).1 as [success_list fail_list]. cbn [fst snd] in *.
  split_and!.
  - by exists oks.
  - rewrite Hsuccess. apply with_outcome_sublist.
  - rewrite Hfail. apply with_outcome_sublist.
  - rewrite <-(length_fmap fst fail_list), Hsuccess, Hfail. by apply with_outcome_length.
Qed.

(** X11: the files a download run leaves, for tickers that each name a
    file of their own (a name, no [/], upper case) that the file system
    can hold.  Every ticker of [success_list] has its file in the cache
    directory when the run is over; no ticker of [fail_list] has one,
    when no ticker is listed twice; a file that is not the file of a
    listed ticker is left as it was. *)
Theorem download_run_leaves_the_successes w new_tickers period batch_size delay :
  1 ≤ batch_size →
  Forall plain_ticker new_tickers →
  Forall file_name_fits new_tickers →
  let r := run_download new_tickers period batch_size delay w in
  (∀ t, t ∈ r.1.1 → is_Some (cache_dir r.2 !! csv_name t))
  ∧ (NoDup new_tickers → ∀ t, t ∈ r.1.2.*1 → cache_dir r.2 !! csv_name t = None)
  ∧ (∀ name, (∀ t, t ∈ new_tickers → name ≠ csv_name t) →
             cache_dir r.2 !! name = cache_dir w !! name).
Proof.
  intros Hsize _ _.
  destruct (run_download_outcomes w new_tickers period batch_size delay Hsize)
    as (oks & _ & Hsuccess & Hfail & Hothers & Hfiles & Hnone).
  cbn zeta. rewrite Hsuccess, Hfail. split_and!; [done| |done].
  intros Hdistinct. by apply Hnone.
Qed.
End download_outcomes.

Lemma download_run_keeps_order_witness :
  let '(success_list, fail_list) :=
    (run_download ["AAPL"; "BADTICKER"] "8y" 10 500 (world aapl_and_badticker ∅)).1 in
  success_list `sublist_of` ["AAPL"; "BADTICKER"]
  ∧ fail_list.*1 `sublist_of` ["AAPL"; "BADTICKER"].
Proof.
  assert (Hfit : Forall file_name_fits ["AAPL"; "BADTICKER"]).
  { repeat constructor; unfold file_name_fits; simpl; lia. }
  pose proof (download_run_keeps_order (world aapl_and_badticker ∅) ["AAPL"; "BADTICKER"]
                "8y" 10 500%Z ltac:(lia) Hfit) as Horder.
  destruct (run_download _ _ _ _ _).1 as [success_list fail_list].
  by destruct Horder as (_ & ? & ? & _).
Defined.

Lemma download_run_leaves_the_successes_witness :
  let r := run_download ["AAPL"; "BADTICKER"] "8y" 10 500 (world aapl_and_badticker ∅) in
  is_Some (cache_dir r.2 !! csv_name "AAPL")
  ∧ cache_dir r.2 !! csv_name "BADTICKER" = None.
Proof.
  intros r.
  assert (Hplain : Forall plain_ticker ["AAPL"; "BADTICKER"]).
  { repeat constructor; done. }
  assert (Hfit : Forall file_name_fits ["AAPL"; "BADTICKER"]).
  { repeat constructor; unfold file_name_fits; simpl; lia. }
  pose proof (download_run_leaves_the_successes (world aapl_and_badticker ∅)
                ["AAPL"; "BADTICKER"] "8y" 10 500%Z ltac:(lia) Hplain Hfit)
    as (Hfiles & Hnone & _).
  assert (Hdistinct : NoDup ["AAPL"; "BADTICKER"]) by (by apply (bool_decide_unpack _)).
  split.
  - refine (Hfiles "AAPL" _). exact (list_elem_of_here "AAPL" []).
  - refine (Hnone Hdistinct "BADTICKER" _). exact (list_elem_of_here "BADTICKER" []).
Defined.

(** ** The ticker file *)

Section ticker_file.
Implicit Types (c : ascii) (s line content : string).

Lemma upper_upper c : upper (upper c) = upper c.
Proof. by destruct c as [[] [] [] [] [] [] [] []]. Qed.

Lemma is_space_upper c : is_space (upper c) = is_space c.
Proof. by destruct c as [[] [] [] [] [] [] [] []]. Qed.

Lemma upper_LF c : bool_decide (LF = upper c) = bool_decide (LF = c).
Proof. by destruct c as [[] [] [] [] [] [] [] []]. Qed.

Lemma upper_all_upper_all s : upper_all (upper_all s) = upper_all s.
Proof. induction s as [|c s IH]; [done|]. simpl. by rewrite upper_upper, IH. Qed.

Lemma upper_all_empty s : upper_all s = "" ↔ s = "".
Proof. by destruct s. Qed.

Lemma lstrip_upper_all s : lstrip (upper_all s) = upper_all (lstrip s).
Proof.
  induction s as [|c s IH]; [done|]. simpl. rewrite is_space_upper.
  by destruct (is_space c).
Qed.

Lemma rstrip_upper_all s : rstrip (upper_all s) = upper_all (rstrip s).
Proof.
  induction s as [|c s IH]; [done|]. simpl. rewrite IH, is_space_upper.
  destruct (rstrip s) as [|c' kept]; simpl; [|done]. by destruct (is_space c).
Qed.

Lemma strip_upper_all s : strip (upper_all s) = upper_all (strip s).
Proof. unfold strip. by rewrite lstrip_upper_all, rstrip_upper_all. Qed.

Lemma rstrip_rstrip s : rstrip (rstrip s) = rstrip s.
Proof.
  induction s as [|c s IH]; [done|]. simpl.
  destruct (rstrip s) as [|c' kept] eqn:Hkept.
  - destruct (is_space c) eqn:Hc; [done|]. simpl. by rewrite Hc.
  - simpl. simpl in IH. by rewrite IH.
Qed.

(** What [lstrip] leaves does not start with white space. *)
Lemma lstrip_head s : lstrip s = "" ∨ ∃ c s', lstrip s = String c s' ∧ is_space c = false.
Proof.
  induction s as [|c s IH]; [by left|]. simpl.
  destruct (is_space c) eqn:Hc; [done|]. right. by exists c, s.
Qed.

Lemma lstrip_rstrip_lstrip s : lstrip (rstrip (lstrip s)) = rstrip (lstrip s).
Proof.
  destruct (lstrip_head s) as [->|(c & s' & -> & Hc)]; [done|]. simpl.
  destruct (rstrip s') as [|c' kept]; rewrite ?Hc; simpl; by rewrite Hc.
Qed.

Lemma strip_strip s : strip (strip s) = strip s.
Proof. unfold strip. by rewrite lstrip_rstrip_lstrip, rstrip_rstrip. Qed.

Lemma contains_lstrip c s : contains_char c (lstrip s) = true → contains_char c s = true.
Proof.
  induction s as [|c' s IH]; [done|]. simpl. destruct (is_space c'); [|done].
  intros ->%IH. apply orb_true_r.
Qed.

Lemma contains_rstrip c s : contains_char c (rstrip s) = true → contains_char c s = true.
Proof.
  induction s as [|c' s IH]; [done|]. simpl.
  destruct (rstrip s) as [|c'' kept].
  - destruct (is_space c'); [done|]. simpl. rewrite orb_false_r. intros ->. done.
  - simpl in *. intros [->|Hin]%orb_true_iff; [done|]. rewrite IH by done. apply orb_true_r.
Qed.

Lemma contains_LF_upper_all s : contains_char LF (upper_all s) = contains_char LF s.
Proof. induction s as [|c s IH]; [done|]. simpl. by rewrite upper_LF, IH. Qed.

(** No field of [s.split(sep)] holds the separator. *)
Lemma str_split_fields sep s :
  Forall (λ field, contains_char sep field = false) (str_split sep s).
Proof.
  induction s as [|c s IH]; [by repeat constructor|]. simpl.
  case_bool_decide as Hc.
  - by constructor.
  - assert (Hsep : bool_decide (sep = c) = false) by (apply bool_decide_eq_false; by intros ->).
    destruct (str_split sep s) as [|field fields].
    + apply Forall_singleton. simpl. by rewrite Hsep.
    + apply Forall_cons in IH as [Hfield Hfields]. constructor; [|done].
      simpl. by rewrite Hfield, Hsep.
Qed.

Lemma str_split_field sep s : contains_char sep s = false → str_split sep s = [s].
Proof.
  induction s as [|c s IH]; [done|]. simpl.
  intros [Hc%bool_decide_eq_false Hs]%orb_false_iff.
  rewrite bool_decide_eq_false_2 by (by intros ->). by rewrite IH.
Qed.

Lemma str_split_app sep s rest :
  contains_char sep s = false →
  str_split sep (s +:+ String sep rest) = s :: str_split sep rest.
Proof.
  induction s as [|c s IH]; intros Hs.
  - rewrite append_nil_l. simpl. by rewrite bool_decide_eq_true_2.
  - rewrite append_cons. simpl in *. apply orb_false_iff in Hs as [Hc%bool_decide_eq_false Hs].
    rewrite bool_decide_eq_false_2 by (by intros ->). by rewrite IH.
Qed.

(** [sep.join(fields).split(sep)] gives the fields back. *)
Lemma str_split_concat sep (fields : list string) :
  fields ≠ [] → Forall (λ field, contains_char sep field = false) fields →
  str_split sep (String.concat (String sep "") fields) = fields.
Proof.
  intros Hne Hfields. induction Hfields as [|field fields Hfield Hfields IH]; [done|].
  destruct fields as [|field' fields].
  - simpl. by apply str_split_field.
  - change (String.concat (String sep "") (field :: field' :: fields))
      with (field +:+ String sep "" +:+ String.concat (String sep "") (field' :: fields)).
    rewrite append_cons, append_nil_l, str_split_app by done. by rewrite IH.
Qed.

Lemma load_tickers_clean content : Forall clean_ticker (load_tickers content).
Proof.
  unfold load_tickers. apply Forall_fmap, Forall_forall.
  intros line [Hline Hin]%list_elem_of_filter. unfold clean_ticker. cbn beta. split_and!.
  - by rewrite upper_all_empty.
  - by rewrite strip_upper_all, strip_strip.
  - apply upper_all_upper_all.
  - rewrite contains_LF_upper_all.
    pose proof (str_split_fields LF content) as Hfields.
    rewrite Forall_forall in Hfields. specialize (Hfields line Hin).
    destruct (contains_char LF (strip line)) eqn:Hstrip; [|done].
    apply contains_rstrip, contains_lstrip in Hstrip. congruence.
Qed.

Lemma filter_all {A} (P : A → Prop) `{!∀ x, Decision (P x)} (l : list A) :
  Forall P l → filter P l = l.
Proof.
  induction 1 as [|x l Hx _ IH]; [done|]. by rewrite filter_cons_True, IH.
Qed.

Lemma filter_none {A} (P : A → Prop) `{!∀ x, Decision (P x)} (l : list A) :
  Forall (λ x, ¬ P x) l → filter P l = [].
Proof.
  induction 1 as [|x l Hx _ IH]; [done|]. by rewrite filter_cons_False, IH.
Qed.

Lemma blank_lstrip s : blank s = true → lstrip s = "".
Proof.
  induction s as [|c s IH]; [done|]. simpl. intros [-> ?]%andb_true_iff. by apply IH.
Qed.

Lemma blank_fields sep s :
  blank s = true → Forall (λ field, blank field = true) (str_split sep s).
Proof.
  induction s as [|c s IH]; [by repeat constructor|]. simpl.
  intros [Hc Hs]%andb_true_iff. specialize (IH Hs). case_bool_decide.
  - by constructor.
  - destruct (str_split sep s) as [|field fields].
    + apply Forall_singleton. simpl. by rewrite Hc.
    + apply Forall_cons in IH as [Hfield Hfields]. constructor; [|done].
      simpl. by rewrite Hc, Hfield.
Qed.

(** X4: the tickers [main] reads from the uploaded file.  Every one of
    them is a line of the file with the white space around it taken off
    and its letters in upper case: it is not empty, has no white space at
    either end, no lower-case letter and no line feed; a file of white
    space only, blank lines included, gives no ticker at all. *)
Theorem loaded_tickers_are_clean content :
  is_ascii content = true →
  Forall clean_ticker (load_tickers content)
  ∧ (∀ t, t ∈ load_tickers content →
          ∃ line, line ∈ str_split LF content ∧ t = upper_all (strip line))
  ∧ (blank content = true → load_tickers content = []).
Proof.
  intros _. split_and!.
  - apply load_tickers_clean.
  - unfold load_tickers.
    intros t (line & -> & [_ Hline]%list_elem_of_filter)%list_elem_of_fmap. by exists line.
  - intros Hblank. unfold load_tickers. rewrite filter_none; [done|].
    eapply Forall_impl; [exact (blank_fields LF content Hblank)|].
    intros line Hline Hstrip. apply Hstrip. unfold strip. by rewrite blank_lstrip.
Qed.

(** X5: the list of tickers survives a round trip through a file: the
    tickers read from a file, written one to a line and read again, are
    the same tickers in the same order. *)
Theorem loaded_tickers_round_trip content :
  is_ascii content = true →
  load_tickers (String.concat (String LF "") (load_tickers content)) = load_tickers content.
Proof.
  intros _. pose proof (load_tickers_clean content) as Hclean.
  destruct (load_tickers content) as [|t tickers]; [done|].
  unfold load_tickers at 1. rewrite str_split_concat; [|done|].
  - rewrite filter_all.
    + rewrite <-(list_fmap_id (t :: tickers)) at 2. apply Forall_fmap_ext_1.
      eapply Forall_impl; [exact Hclean|]. intros t' (_ & -> & -> & _). done.
    + eapply Forall_impl; [exact Hclean|]. intros t' (? & -> & _). done.
  - eapply Forall_impl; [exact Hclean|]. by intros t' (_ & _ & _ & ?).
Qed.
End ticker_file.

Lemma loaded_tickers_are_clean_witness :
  load_tickers ("aapl" +:+ String LF (" msft " +:+ String (ascii_of_nat 13) (String LF (String LF "Brk.b"))))
  = ["AAPL"; "MSFT"; "BRK.B"]
  ∧ Forall clean_ticker ["AAPL"; "MSFT"; "BRK.B"].
Proof.
  split; [reflexivity|].
  exact (proj1 (loaded_tickers_are_clean
                  ("aapl" +:+ String LF (" msft " +:+ String (ascii_of_nat 13)
                                           (String LF (String LF "Brk.b")))) eq_refl)).
Defined.

Lemma loaded_tickers_round_trip_witness :
  load_tickers (String.concat (String LF "") (load_tickers (" aapl " +:+ String LF "msft")))
  = ["AAPL"; "MSFT"].
Proof. exact (loaded_tickers_round_trip (" aapl " +:+ String LF "msft") eq_refl). Defined.

(** ** Which tickers [main] selects *)

Section selection.
Context `{!Codec} {E : Type} `{!External E}.
Implicit Types (w : World E) (all_tickers : list string) (mode : DownloadMode).

Lemma substring_split (s : string) (n : nat) :
  n ≤ String.length s →
  s = String.substring 0 n s +:+ String.substring n (String.length s - n) s.
Proof.
  revert n. induction s as [|c s IH]; intros [|n] Hn; simpl in *; try lia.
  - done.
  - by rewrite append_nil_l, substring_all.
  - rewrite append_cons. f_equal. apply IH. lia.
Qed.

(** A file that [glob("*.csv")] lists is named after its stem. *)
Lemma is_csv_csv_name_stem (name : string) :
  is_csv name = true → name = ".csv" ∨ name = csv_name (stem name).
Proof.
  unfold is_csv, endswith. intros [[Hend%bool_decide_eq_true Hlen%Nat.leb_le]%andb_true_iff _]%andb_true_iff.
  pose proof (substring_split name (String.length name - String.length ".csv") ltac:(lia)) as Hname.
  replace (String.length name - (String.length name - String.length ".csv"))
    with (String.length ".csv") in Hname by lia.
  rewrite <-Hend in Hname.
  destruct (String.substring 0 (String.length name - String.length ".csv") name) as [|c p] eqn:Hp.
  - left. by rewrite Hname.
  - right. rewrite Hname. fold (csv_name (String c p)). by rewrite stem_csv_name.
Qed.

Lemma elem_of_existing_tickers w (t : string) :
  plain_ticker t → t ∈ existing_tickers w ↔ is_Some (cache_dir w !! csv_name t).
Proof.
  intros (Hname & Hslash & Hupper). unfold existing_tickers. rewrite list_elem_of_fmap. split.
  - intros (name & -> & [Hfile Hcsv]%elem_of_glob_csv).
    destruct (is_csv_csv_name_stem name Hcsv) as [->|<-]; [|done].
    by compute in Hupper.
  - intros Hfile. exists (csv_name t). split; [by rewrite stem_csv_name|].
    apply elem_of_glob_csv. split; [done|by apply is_csv_csv_name].
Qed.

Lemma filter_sublist_mono {A} (P : A → Prop) `{!∀ x, Decision (P x)} (l1 l2 : list A) :
  l1 `sublist_of` l2 → filter P l1 `sublist_of` filter P l2.
Proof.
  induction 1 as [|x l1 l2 _ IH|x l1 l2 _ IH]; [done| |].
  - destruct (decide (P x)).
    + rewrite !filter_cons_True by done. by apply sublist_skip.
    + by rewrite !filter_cons_False.
  - destruct (decide (P x)).
    + rewrite filter_cons_True by done. by apply sublist_cons.
    + by rewrite filter_cons_False.
Qed.

Lemma new_tickers_everything all_tickers w :
  new_tickers Everything all_tickers w = filter (λ t, t ∉ existing_tickers w) all_tickers.
Proof. done. Qed.

(** X6: which tickers the five download ranges select.  "Remaining only"
    and "everything" select the same tickers: the listed ones without a
    file, in the order of the list.  The three counted ranges select
    those of them that are among the first 5, 20 or 50 tickers of the
    list, so at most that many, and none when these first tickers all
    have their file, however many of the others are left. *)
Theorem download_ranges w all_tickers :
  new_tickers Remaining all_tickers w = new_tickers Everything all_tickers w
  ∧ (∀ mode k, (mode, k) ∈ [(Test5, 5); (Some20, 20); (Half50, 50)] →
       new_tickers mode all_tickers w = new_tickers Everything (take k all_tickers) w
       ∧ length (new_tickers mode all_tickers w) ≤ k
       ∧ (Forall (λ t, t ∈ existing_tickers w) (take k all_tickers) →
          new_tickers mode all_tickers w = []))
  ∧ (∀ mode, new_tickers mode all_tickers w `sublist_of` new_tickers Everything all_tickers w
             ∧ new_tickers mode all_tickers w `sublist_of` all_tickers
             ∧ ∀ t, t ∈ new_tickers mode all_tickers w → t ∉ existing_tickers w).
Proof.
  assert (Hsame : new_tickers Remaining all_tickers w = new_tickers Everything all_tickers w).
  { unfold new_tickers, selected_tickers. rewrite list_filter_filter.
    apply list_filter_iff. tauto. }
  assert (Hcounted : ∀ mode k, (mode, k) ∈ [(Test5, 5); (Some20, 20); (Half50, 50)] →
            new_tickers mode all_tickers w = new_tickers Everything (take k all_tickers) w).
  { intros mode k Hmode. repeat (apply elem_of_cons in Hmode as [[= -> ->]|Hmode]; [done|]).
    by apply elem_of_nil in Hmode. }
  split_and!; [done| |].
  - intros mode k Hmode. rewrite (Hcounted mode k Hmode), new_tickers_everything. split_and!.
    + done.
    + etrans; [apply length_filter|]. rewrite length_take. lia.
    + intros Hcached. apply filter_none. eapply Forall_impl; [exact Hcached|]. tauto.
  - intros mode.
    assert (Hsub : new_tickers mode all_tickers w
                   `sublist_of` new_tickers Everything all_tickers w).
    { assert (Htake : ∀ k, new_tickers Everything (take k all_tickers) w
                           `sublist_of` new_tickers Everything all_tickers w).
      { intros k. rewrite !new_tickers_everything. apply filter_sublist_mono, sublist_take. }
      destruct mode; [by rewrite Hsame| | | |done].
      - rewrite (Hcounted Test5 5) by (by left). apply Htake.
      - rewrite (Hcounted Some20 20) by (right; by left). apply Htake.
      - rewrite (Hcounted Half50 50) by (right; right; by left). apply Htake. }
    split_and!; [done| |].
    + etrans; [exact Hsub|]. rewrite new_tickers_everything. apply sublist_filter.
    + intros t Ht. eapply elem_of_sublist in Ht; [|exact Hsub].
      rewrite new_tickers_everything in Ht. by apply list_elem_of_filter in Ht as [? _].
Qed.
End selection.

(** ** The metric of the tickers left, and the next run *)

Section next_run.
Context `{!Codec} {E : Type} `{!External E}.
Implicit Types (w : World E) (all_tickers : list string).

Lemma length_filter_split {A} (P : A → Prop) `{!∀ x, Decision (P x)} (l : list A) :
  length (filter P l) + length (filter (λ x, ¬ P x) l) = length l.
Proof.
  induction l as [|x l IH]; [done|]. destruct (decide (P x)).
  - rewrite filter_cons_True, (filter_cons_False (λ x, ¬ P x)) by tauto. simpl. lia.
  - rewrite filter_cons_False, (filter_cons_True (λ x, ¬ P x)) by tauto. simpl. lia.
Qed.

(** X7: the metric of the tickers left, [len(all_tickers) -
    len(existing_files)], never exceeds the number of tickers the range
    "everything" selects, when no ticker is listed twice: a file that
    belongs to no listed ticker makes it too small, and it can be
    negative.  It is that number exactly when the stems of the files are
    distinct listed tickers. *)
Theorem remaining_metric_bound w all_tickers :
  NoDup all_tickers →
  (remaining_metric all_tickers w
   ≤ Z.of_nat (length (new_tickers Everything all_tickers w)))%Z
  ∧ (NoDup (existing_tickers w) →
     (∀ t, t ∈ existing_tickers w → t ∈ all_tickers) →
     remaining_metric all_tickers w
     = Z.of_nat (length (new_tickers Everything all_tickers w))).
Proof.
  intros Hdistinct. unfold remaining_metric. rewrite new_tickers_everything.
  pose proof (length_filter_split (λ t, t ∈ existing_tickers w) all_tickers) as Hsplit.
  assert (Hfiles : length (existing_tickers w) = length (glob_csv (cache_dir w)))
    by (unfold existing_tickers; by rewrite length_fmap).
  assert (Hcached : filter (λ t, t ∈ existing_tickers w) all_tickers ⊆+ existing_tickers w).
  { apply NoDup_submseteq; [by apply NoDup_filter|].
    by intros t [? _]%list_elem_of_filter. }
  split.
  - apply submseteq_length in Hcached. lia.
  - intros Hstems Hlisted.
    assert (Hall : existing_tickers w ⊆+ filter (λ t, t ∈ existing_tickers w) all_tickers).
    { apply NoDup_submseteq; [done|]. intros t Ht. apply list_elem_of_filter. auto. }
    apply submseteq_length in Hcached, Hall. lia.
Qed.

#[local] Existing Instance skips_cached_preorder.

Lemma filter_elem_of_sublist (l k : list string) :
  NoDup l → k `sublist_of` l → filter (λ t, t ∈ k) l = k.
Proof.
  intros Hl Hk. induction Hk as [|x k l Hk IH|x k l Hk IH].
  - done.
  - apply NoDup_cons in Hl as [Hx Hl]. rewrite filter_cons_True by (by left). f_equal.
    trans (filter (λ t, t ∈ k) l); [|by apply IH].
    apply filter_ext_Forall, Forall_forall. intros t Ht.
    split; [|by right]. intros [->|?]%elem_of_cons; [done|done].
  - apply NoDup_cons in Hl as [Hx Hl]. rewrite filter_cons_False; [by apply IH|].
    intros Hin. apply Hx. by eapply elem_of_sublist.
Qed.

(** X12: the next run retries the failed tickers, and only them.  After a
    run over the tickers the range "everything" selects, the same range,
    and "remaining only", select exactly the tickers of [fail_list], in
    their order, when the listed tickers are distinct and each names a
    file of its own that the file system can hold: at another one
    [path.exists()] raises and the run ends, its later tickers left for
    the next run with the failed ones. *)
Theorem next_run_retries_the_failed w all_tickers period batch_size delay :
  1 ≤ batch_size → NoDup all_tickers → Forall plain_ticker all_tickers →
  Forall file_name_fits all_tickers →
  let r := run_download (new_tickers Everything all_tickers w) period batch_size delay w in
  new_tickers Everything all_tickers r.2 = r.1.2.*1
  ∧ new_tickers Remaining all_tickers r.2 = r.1.2.*1.
Proof.
  intros Hsize Hdistinct Hplain _. cbn zeta.
  set (first := new_tickers Everything all_tickers w).
  assert (Hfirst : first `sublist_of` all_tickers).
  { unfold first. rewrite new_tickers_everything. apply sublist_filter. }
  destruct (run_download_outcomes w first period batch_size delay Hsize)
    as (oks & Hlen & Hsuccess & Hfail & _ & Hfiles & Hnone).
  specialize (Hnone (sublist_NoDup _ _ Hdistinct Hfirst)).
  destruct (run_download_skips_cached first period batch_size delay w) as [Hkept _].
  set (r := run_download first period batch_size delay w) in *.
  rewrite Forall_forall in Hplain.
  assert (Hnext : new_tickers Everything all_tickers r.2 = r.1.2.*1).
  { rewrite new_tickers_everything, Hfail.
    rewrite <-(filter_elem_of_sublist all_tickers (with_outcome false first oks)); [|done|].
    2:{ etrans; [apply with_outcome_sublist|done]. }
    apply filter_ext_Forall, Forall_forall. intros t Ht.
    rewrite (elem_of_existing_tickers r.2 t (Hplain t Ht)). split.
    - intros Hnofile.
      assert (Hselected : t ∈ first).
      { unfold first. rewrite new_tickers_everything. apply list_elem_of_filter.
        split; [|done]. rewrite (elem_of_existing_tickers w t (Hplain t Ht)).
        intros Hfile. by apply Hnofile, Hkept. }
      apply list_elem_of_lookup in Hselected as [g Hg].
      destruct (lookup_lt_is_Some_2 oks g) as [ok Hok].
      { apply lookup_lt_Some in Hg. lia. }
      assert (Hitem : (t, ok) ∈ zip first oks).
      { apply list_elem_of_lookup. exists g. apply lookup_zip_with_Some. by exists t, ok. }
      destruct ok; [|by apply elem_of_with_outcome].
      exfalso. apply Hnofile, Hfiles. by apply elem_of_with_outcome.
    - intros Hfailed Hfile. apply Hnone in Hfailed. rewrite Hfailed in Hfile.
      by destruct Hfile. }
  split; [done|]. rewrite <-Hnext. unfold new_tickers, selected_tickers.
  rewrite list_filter_filter. apply list_filter_iff. tauto.
Qed.
End next_run.

Lemma remaining_metric_bound_witness :
  (remaining_metric ["AAPL"; "MSFT"] (world aapl_and_badticker {[ "OLD.csv" := "Date" ]})
   ≤ 2)%Z.
Proof.
  assert (Hdistinct : NoDup ["AAPL"; "MSFT"]) by (by apply (bool_decide_unpack _)).
  exact (proj1 (remaining_metric_bound
                  (world aapl_and_badticker {[ "OLD.csv" := "Date" ]}) ["AAPL"; "MSFT"] Hdistinct)).
Defined.

Lemma next_run_retries_the_failed_witness :
  let r := run_download ["AAPL"; "BADTICKER"] "8y" 10 500 (world aapl_and_badticker ∅) in
  new_tickers Everything ["AAPL"; "BADTICKER"] r.2 = ["BADTICKER"].
Proof.
  assert (Hdistinct : NoDup ["AAPL"; "BADTICKER"]) by (by apply (bool_decide_unpack _)).
  assert (Hplain : Forall plain_ticker ["AAPL"; "BADTICKER"]) by (by repeat constructor).
  assert (Hfit : Forall file_name_fits ["AAPL"; "BADTICKER"]).
  { repeat constructor; unfold file_name_fits; simpl; lia. }
  exact (proj1 (next_run_retries_the_failed (world aapl_and_badticker ∅) ["AAPL"; "BADTICKER"]
                  "8y" 10 500%Z ltac:(lia) Hdistinct Hplain Hfit)).
Defined.

(** ** The reset button *)

Section reset.
Context `{!Codec} {E : Type} `{!External E} `{!Removal E}.
Implicit Types (w : World E) (names : list string).

Lemma unlink_all_effects names : ∀ w,
  let r := unlink_all names w in
  (∀ name, name ∉ names → cache_dir r.2 !! name = cache_dir w !! name)
  ∧ (∀ name, is_Some (cache_dir r.2 !! name) → is_Some (cache_dir w !! name))
  ∧ (is_ok r.1 = true → ∀ name, name ∈ names → cache_dir r.2 !! name = None)
  ∧ log r.2 = log w.
Proof.
  induction names as [|name names IH]; intros w; cbn zeta.
  - split_and!; [done|done| |done]. intros _ name Hin. by apply elem_of_nil in Hin.
  - cbn [unlink_all]. unfold mbind, Try_bind, unlink.
    destruct (disk_unlink name (env w)) as [[[]|msg] e1]; cbn [is_ok].
    + match goal with |- context [unlink_all names ?w1] =>
        destruct (IH w1) as (Hothers & Hadded & Hgone & Hlog) end.
      cbn [cache_dir log] in *. split_and!; [| | |done].
      * intros name' Hname'. rewrite Hothers by (intros ?; apply Hname'; by right).
        apply lookup_delete_ne. intros ->. apply Hname'. by left.
      * intros name' Hfile%Hadded. destruct (decide (name = name')) as [->|Hne].
        -- rewrite lookup_delete_eq in Hfile. by destruct Hfile.
        -- by rewrite lookup_delete_ne in Hfile.
      * intros Hok name' Hin. destruct (decide (name' ∈ names)) as [Hrest|Hrest].
        -- by apply Hgone.
        -- rewrite Hothers by done. apply elem_of_cons in Hin as [->|?]; [|done].
           apply lookup_delete_eq.
    + cbn [snd fst cache_dir log]. split_and!; done.
Qed.

(** X13: the reset button removes the files the archive would hold, and
    no other file.  Whether or not a removal raises, no file appears and
    a file that is not a [.csv] file of the cache directory stays as it
    is.  When no removal raises, no [.csv] file is left: no archive is
    offered then, no ticker counts as downloaded, and the next run
    selects every listed ticker again. *)
Theorem reset_removes_the_downloads w :
  let r := clear_cache w in
  (∀ name, is_csv name = false → cache_dir r.2 !! name = cache_dir w !! name)
  ∧ (∀ name, is_Some (cache_dir r.2 !! name) → is_Some (cache_dir w !! name))
  ∧ (is_ok r.1 = true →
     glob_csv (cache_dir r.2) = []
     ∧ (DownloadData.create_download_zip r.2).1 = None
     ∧ existing_tickers r.2 = []
     ∧ ∀ all_tickers, new_tickers Everything all_tickers r.2 = all_tickers).
Proof.
  cbn zeta. unfold clear_cache.
  destruct (unlink_all_effects (glob_csv (cache_dir w)) w) as (Hothers & Hadded & Hgone & _).
  cbn zeta in *. split_and!.
  - intros name Hname. apply Hothers. intros [_ Hcsv]%elem_of_glob_csv. congruence.
  - done.
  - intros Hok. specialize (Hgone Hok).
    assert (Hnone : glob_csv (cache_dir (unlink_all (glob_csv (cache_dir w)) w).2) = []).
    { apply elem_of_nil_inv. intros name [Hfile Hcsv]%elem_of_glob_csv.
      rewrite Hgone in Hfile; [by destruct Hfile|].
      apply elem_of_glob_csv. split; [by apply Hadded|done]. }
    split_and!; [done| | |].
    + unfold DownloadData.create_download_zip. by rewrite Hnone.
    + unfold existing_tickers. by rewrite Hnone.
    + intros all_tickers. unfold new_tickers, existing_tickers. rewrite Hnone. simpl.
      apply filter_all, Forall_forall. intros t _. apply not_elem_of_nil.
Qed.
End reset.

Lemma reset_removes_the_downloads_witness :
  let w := world aapl_and_badticker {[ "AAPL.csv" := "Date"; "notes.txt" := "keep" ]} in
  cache_dir (clear_cache w).2 !! "notes.txt" = Some "keep"
  ∧ glob_csv (cache_dir (clear_cache w).2) = [].
Proof.
  intros w. pose proof (reset_removes_the_downloads w) as (Hothers & _ & Hcleared).
  split.
  - refine (eq_trans (Hothers "notes.txt" eq_refl) _). reflexivity.
  - refine (proj1 (Hcleared _)). reflexivity.
Defined.

(** ** The frame [fetch_stock_data] returns *)

Section stock_frame.
Context `{!Codec} {E : Type} `{!External E}.
Implicit Types (w : World E) (df : DataFrame) (r : gmap string cell) (c old new : string).

Lemma rename_present df old new :
  old ∈ columns df →
  rename df old new
  = {| index_name := index_name df;
       columns := (λ c, if bool_decide (c = old) then new else c) <$> columns df;
       rows := rename_row old new <$> rows df |}.
Proof. intros Hold. unfold rename. by rewrite bool_decide_eq_true_2. Qed.

Lemma elem_of_renamed_new (cols : list string) old new :
  old ∈ cols → new ∈ (λ c, if bool_decide (c = old) then new else c) <$> cols.
Proof.
  intros Hold. apply list_elem_of_fmap. exists old. by rewrite bool_decide_eq_true_2.
Qed.

Lemma elem_of_renamed_other (cols : list string) old new c :
  c ≠ old → c ∈ cols → c ∈ (λ c, if bool_decide (c = old) then new else c) <$> cols.
Proof.
  intros Hne Hc. apply list_elem_of_fmap. exists c. by rewrite bool_decide_eq_false_2.
Qed.

Lemma at_rename_row_same r c : at_ (rename_row c c r) c = at_ r c.
Proof.
  unfold rename_row, at_. destruct (r !! c) as [v|] eqn:Hc.
  - by rewrite lookup_insert_eq.
  - by rewrite Hc.
Qed.

Lemma dt_strftime_dates (s : list cell) :
  Forall is_date s → dt_strftime s = Ok (ymd <$> s).
Proof.
  induction 1 as [|c s Hc _ IH]; [done|]. simpl. rewrite IH.
  by destruct c.
Qed.

(** The row [fetch_stock_data] makes of a row of the provider. *)
Lemma stock_row_cells r :
  r !! "date" = None → r !! "open" = None → r !! "high" = None →
  r !! "low" = None → r !! "close" = None →
  let r' := project stock_keys
              (rename_row "Volume" "Volume" (rename_row "Close" "close"
                (rename_row "Low" "low" (rename_row "High" "high"
                  (rename_row "Open" "open" (<["date" := ymd (at_ r "Date")]> r)))))) in
  at_ r' "date" = ymd (at_ r "Date")
  ∧ at_ r' "open" = at_ r "Open"
  ∧ at_ r' "high" = at_ r "High"
  ∧ at_ r' "low" = at_ r "Low"
  ∧ at_ r' "close" = at_ r "Close"
  ∧ at_ r' "Volume" = at_ r "Volume".
Proof.
  intros Hdate Hopen Hhigh Hlow Hclose. cbn zeta.
  assert (Hproject : ∀ x c, c ∈ stock_keys → at_ (project stock_keys x) c = at_ x c).
  { intros x c Hc. unfold at_. rewrite lookup_project. by rewrite bool_decide_eq_true_2. }
  assert (Hkeys : Forall (λ c, c ∈ stock_keys) stock_keys) by (by apply Forall_forall).
  unfold stock_keys in Hkeys at 2.
  repeat (apply Forall_cons in Hkeys as [? Hkeys]).
  assert (Hnone : ∀ x old new c, c ≠ new → x !! c = None → rename_row old new x !! c = None).
  { intros x old new c Hne Hx. unfold rename_row. destruct (x !! old) as [v|] eqn:Hold; [|done].
    rewrite lookup_insert_ne by done. destruct (decide (old = c)) as [->|?].
    - apply lookup_delete_eq.
    - by rewrite lookup_delete_ne. }
  rewrite !Hproject by done. split_and!.
  - rewrite !at_rename_row_ne by done. apply at_insert_eq.
  - rewrite !(at_rename_row_ne _ _ _ "open") by done.
    rewrite at_rename_row_new by (by rewrite lookup_insert_ne). by rewrite at_insert_ne.
  - rewrite !(at_rename_row_ne _ _ _ "high") by done.
    rewrite at_rename_row_new.
    + rewrite at_rename_row_ne by done. by rewrite at_insert_ne.
    + apply Hnone; [done|]. by rewrite lookup_insert_ne.
  - rewrite !(at_rename_row_ne _ _ _ "low") by done.
    rewrite at_rename_row_new.
    + rewrite !at_rename_row_ne by done. by rewrite at_insert_ne.
    + do 2 (apply Hnone; [done|]). by rewrite lookup_insert_ne.
  - rewrite !(at_rename_row_ne _ _ _ "close") by done.
    rewrite at_rename_row_new.
    + rewrite !at_rename_row_ne by done. by rewrite at_insert_ne.
    + do 3 (apply Hnone; [done|]). by rewrite lookup_insert_ne.
  - rewrite at_rename_row_same. rewrite !at_rename_row_ne by done. by rewrite at_insert_ne.
Qed.

(** X14: the frame [fetch_stock_data] returns.  For a non-empty answer of
    the provider indexed by [Date], with the five price columns and
    dates in its index, the result has the default index, exactly the
    columns [date], [open], [high], [low], [close], [Volume] in this
    order, and one row for each row of the answer, in the same order:
    its [date] is the date printed as [%Y%m%d], its other cells are the
    cells of the answer, whose other columns are dropped.  An answer
    with neither an index nor a column named [Date] gives [None]. *)
Theorem fetched_stock_frame w symbol start_date end_date df e1 :
  yf_history symbol (Between start_date end_date) (env w) = (Ok df, e1) →
  df_empty df = false →
  (index_name df ≠ Some "Date" → "Date" ∉ columns df →
   (fetch_stock_data symbol start_date end_date w).1 = None)
  ∧ (index_name df = Some "Date" → well_formed df →
     Forall (λ c, c ∈ columns df) ["Open"; "High"; "Low"; "Close"; "Volume"] →
     Forall (λ c, c ∉ columns df) ["Date"; "date"; "open"; "high"; "low"; "close"] →
     Forall (λ r, is_date (at_ r "Date")) (rows df) →
     ∃ out,
       (fetch_stock_data symbol start_date end_date w).1 = Some out
       ∧ index_name out = None
       ∧ columns out = stock_keys
       ∧ Forall2 (λ r r', at_ r' "date" = ymd (at_ r "Date")
                          ∧ at_ r' "open" = at_ r "Open"
                          ∧ at_ r' "high" = at_ r "High"
                          ∧ at_ r' "low" = at_ r "Low"
                          ∧ at_ r' "close" = at_ r "Close"
                          ∧ at_ r' "Volume" = at_ r "Volume")
                 (rows df) (rows out)).
Proof.
  intros Hfetch Hdata. split.
  - intros Hindex Hcolumn.
    unfold fetch_stock_data, catch, mbind, Try_bind, history, lift. rewrite Hfetch, Hdata.
    unfold reset_index.
    set (name := default "index" (index_name df)).
    assert (Hname : name ≠ "Date").
    { unfold name. destruct (index_name df) as [i|]; [|done]. simpl. congruence. }
    case_bool_decide; [done|]. cbn beta iota. unfold getitem. cbn [columns].
    rewrite bool_decide_eq_false_2; [done|].
    intros [?|?]%elem_of_cons; [done|done].
  - intros Hindex Hformed Hprices Hfree Hdates.
    apply Forall_cons in Hprices as [Hopen Hprices].
    apply Forall_cons in Hprices as [Hhigh Hprices].
    apply Forall_cons in Hprices as [Hlow Hprices].
    apply Forall_cons in Hprices as [Hclose Hprices].
    apply Forall_cons in Hprices as [Hvolume _].
    apply Forall_cons in Hfree as [HDate Hfree].
    apply Forall_cons in Hfree as [Hdate Hfree].
    apply Forall_cons in Hfree as [Hopen' Hfree].
    apply Forall_cons in Hfree as [Hhigh' Hfree].
    apply Forall_cons in Hfree as [Hlow' Hfree].
    apply Forall_cons in Hfree as [Hclose' _].
    set (row := λ r : gmap string cell,
           project stock_keys
             (rename_row "Volume" "Volume" (rename_row "Close" "close"
               (rename_row "Low" "low" (rename_row "High" "high"
                 (rename_row "Open" "open" (<["date" := ymd (at_ r "Date")]> r))))))).
    exists {| index_name := None; columns := stock_keys; rows := row <$> rows df |}.
    split_and!; [|done|done|].
    + unfold fetch_stock_data, catch, mbind, Try_bind, history, lift. rewrite Hfetch, Hdata.
      unfold reset_index. rewrite Hindex. cbn [default].
      rewrite bool_decide_eq_false_2 by done. cbn beta iota.
      unfold getitem at 1. cbn [columns rows].
      rewrite bool_decide_eq_true_2 by (by left). cbn beta iota.
      rewrite dt_strftime_dates by (by apply Forall_fmap). cbn beta iota.
      unfold setitem_series. cbn [columns rows index_name].
      rewrite bool_decide_eq_false_2 by (intros [?|?]%elem_of_cons; done).
      rewrite <-list_fmap_compose, zip_with_fmap_r.
      set (cols := "Date" :: columns df ++ ["date"]).
      assert (Hin : ∀ c, c ∈ columns df → c ∈ cols).
      { intros c Hc. right. apply elem_of_app. by left. }
      rewrite (rename_present _ "Open" "open") by (by apply Hin). cbn [columns rows index_name].
      rewrite (rename_present _ "High" "high")
        by (cbn [columns]; by apply elem_of_renamed_other, Hin).
      cbn [columns rows index_name].
      rewrite (rename_present _ "Low" "low")
        by (cbn [columns]; by do 2 (apply elem_of_renamed_other; [done|]); apply Hin).
      cbn [columns rows index_name].
      rewrite (rename_present _ "Close" "close")
        by (cbn [columns]; by do 3 (apply elem_of_renamed_other; [done|]); apply Hin).
      cbn [columns rows index_name].
      rewrite (rename_present _ "Volume" "Volume")
        by (cbn [columns]; by do 4 (apply elem_of_renamed_other; [done|]); apply Hin).
      cbn [columns rows index_name].
      unfold getitem_list. cbn [columns rows index_name].
      match goal with |- context [list_find ?P ?cs] =>
        assert (Hfind : list_find P cs = None) end.
      { apply list_find_None. fold stock_keys.
        assert (Hlast : "date" ∈ cols) by (right; apply elem_of_app; right; by left).
        repeat constructor; intros Hmissing; apply Hmissing.
        - by do 5 (apply elem_of_renamed_other; [done|]).
        - do 4 (apply elem_of_renamed_other; [done|]). by apply elem_of_renamed_new, Hin.
        - do 3 (apply elem_of_renamed_other; [done|]). apply elem_of_renamed_new.
          by apply elem_of_renamed_other, Hin.
        - do 2 (apply elem_of_renamed_other; [done|]). apply elem_of_renamed_new.
          by do 2 (apply elem_of_renamed_other; [done|]); apply Hin.
        - apply elem_of_renamed_other; [done|]. apply elem_of_renamed_new.
          by do 3 (apply elem_of_renamed_other; [done|]); apply Hin.
        - apply elem_of_renamed_new.
          by do 4 (apply elem_of_renamed_other; [done|]); apply Hin. }
      rewrite Hfind. cbn beta iota. fold stock_keys.
      rewrite <-!list_fmap_compose. done.
    + cbn [rows]. apply Forall2_fmap_r, Forall_Forall2_diag.
      eapply Forall_impl; [exact Hformed|]. intros r Hr.
      assert (Hnone : ∀ c, c ∉ columns df → c ≠ "Date" → r !! c = None).
      { intros c Hc Hne. destruct (r !! c) eqn:Hrc; [|done].
        destruct (Hr c) as [?|Hi]; [by rewrite Hrc|done|]. rewrite Hindex in Hi. congruence. }
      apply stock_row_cells; by apply Hnone.
Qed.
End stock_frame.

Lemma fetched_stock_frame_witness :
  ∃ out, (fetch_stock_data "AAPL" 0 365 (world aapl_and_badticker ∅)).1 = Some out
         ∧ columns out = stock_keys
         ∧ length (rows out) = 250.
Proof.
  assert (Hfetch : ∃ e1, yf_history "AAPL" (Between 0 365) (env (world aapl_and_badticker ∅))
                         = (Ok (prices 250), e1)) by (eexists; reflexivity).
  destruct Hfetch as [e1 Hfetch].
  destruct (fetched_stock_frame (world aapl_and_badticker ∅) "AAPL" 0 365 (prices 250) e1
              Hfetch eq_refl) as [_ Hframe].
  destruct Hframe as (out & Hout & _ & Hcolumns & Hrows).
  - reflexivity.
  - apply Forall_forall. intros r (d & -> & _)%list_elem_of_fmap c [v Hc].
    destruct (decide (c = "Date")) as [->|Hindex]; [by right|left].
    unfold day in Hc. rewrite lookup_insert_ne in Hc by done.
    repeat (rewrite lookup_insert in Hc; case_decide;
            [subst c; by apply (bool_decide_unpack _)|]).
    by rewrite ?lookup_empty in Hc.
  - repeat constructor; by apply (bool_decide_unpack _).
  - repeat constructor; by apply (bool_decide_unpack _).
  - apply Forall_forall. intros r (d & -> & _)%list_elem_of_fmap.
    unfold day. by rewrite at_insert_eq.
  - exists out. split_and!; [exact Hout|exact Hcolumns|].
    apply Forall2_length in Hrows. rewrite <-Hrows. reflexivity.
Defined.

(** ** The download loop of the third tab *)

Section stock_loop.
Context `{!Codec} {E : Type} `{!External E}.
Implicit Types (w : World E) (symbol : string).

(** Whatever it returns, [fetch_stock_data] asks the provider once. *)
Lemma fetch_stock_data_log symbol start_date end_date w :
  log (fetch_stock_data symbol start_date end_date w).2
  = log w ++ [EvHistory symbol (Between start_date end_date)].
Proof.
  unfold fetch_stock_data, catch, mbind, Try_bind, history, lift.
  destruct (yf_history _ _ _) as [[df|msg] e1]; [|done].
  destruct (df_empty df); [done|].
  repeat match goal with
         | |- context [match ?r with Ok _ => _ | Exc _ => _ end] => destruct r
         end; done.
Qed.

Lemma pauses_sum (i : nat) :
  (100 * Z.of_nat (S i) + 900 * Z.of_nat (S i / 10)
   = 100 * Z.of_nat i + 900 * Z.of_nat (i / 10) + pause_after i)%Z.
Proof.
  unfold pause_after. replace (i + 1) with (S i) by lia.
  pose proof (Nat.div_mod_eq i 10). pose proof (Nat.mod_upper_bound i 10).
  pose proof (Nat.div_mod_eq (S i) 10). pose proof (Nat.mod_upper_bound (S i) 10).
  destruct (Nat.eqb_spec (S i mod 10) 0); lia.
Qed.

(** One item of the loop: what it records and what it logs. *)
Lemma download_stock_eq total start_date end_date i symbol acc w :
  let fetched := fetch_stock_data symbol start_date end_date w in
  download_stock total start_date end_date (i, symbol) acc w
  = (match fetched.1 with
     | Some df => (dict_set symbol df acc.1, acc.2)
     | None => (acc.1, acc.2 ++ [symbol])
     end,
     {| env := elapse (pause_after i) (env fetched.2);
        cache_dir := cache_dir fetched.2;
        log := log fetched.2
               ++ [match fetched.1 with
                   | Some df => EvSuccess ("✓ " +:+ symbol +:+ ": " +:+ pretty (df_len df) +:+ "행")
                   | None => EvError ("✗ " +:+ symbol +:+ ": 실패")
                   end;
                   EvProgress (i + 1) total;
                   EvText (symbol +:+ " 처리 중... (" +:+ pretty (i + 1) +:+ "/"
                           +:+ pretty total +:+ ")");
                   EvSleep (pause_after i)] |}).
Proof.
  cbn zeta. unfold download_stock, mbind, M_bind, mret, M_ret, emit, sleep, pause_after.
  destruct (fetch_stock_data symbol start_date end_date w) as [[df|] w1]; cbn beta iota;
    destruct (_ =? _); cbn [env cache_dir log fst snd]; by rewrite <-!app_assoc.
Qed.

(** X16: the pace of the download of the third tab.  For every selected
    symbol, in the order of the selection, the loop asks the provider
    exactly once, for the chosen dates, whether the answer is a frame,
    empty or an exception: there is no retry; it then displays the
    progress [(i + 1, n)] and pauses, for a second after every tenth
    symbol and a tenth of a second after the others, also after the
    last one.  It sleeps [100 * n + 900 * (n / 10)] milliseconds in
    all. *)
Theorem stock_download_is_paced w selected_symbols start_date end_date :
  ∃ new,
    log (download_stocks selected_symbols start_date end_date w).2 = log w ++ new
    ∧ filter (λ ev, paced ev = true) new = stock_trace selected_symbols start_date end_date
    ∧ requests new = length selected_symbols
    ∧ slept new = (100 * Z.of_nat (length selected_symbols)
                   + 900 * Z.of_nat (length selected_symbols / 10))%Z.
Proof.
  set (n := length selected_symbols).
  set (P := λ i (_ : list (string * DataFrame) * list string) (w' : World E),
         ∃ new,
           log w' = log w ++ new
           ∧ filter (λ ev, paced ev = true) new
             = concat (imap (λ i symbol, [EvHistory symbol (Between start_date end_date);
                                          EvProgress (i + 1) n; EvSleep (pause_after i)])
                            (take i selected_symbols))
           ∧ requests new = i
           ∧ slept new = (100 * Z.of_nat i + 900 * Z.of_nat (i / 10))%Z).
  assert (Hloop : P n
            (for_each (download_stock n start_date end_date)
               (enumerate selected_symbols) ([], []) w).1
            (for_each (download_stock n start_date end_date)
               (enumerate selected_symbols) ([], []) w).2).
  { apply (for_each_enumerate_inv _ P).
    - intros i symbol acc w' Hsymbol (new & Hnew & Hshape & Hrequests & Hslept).
      rewrite download_stock_eq. cbn zeta. cbn [fst snd log].
      rewrite fetch_stock_data_log.
      set (report := match (fetch_stock_data symbol start_date end_date w').1 with
                     | Some df => EvSuccess _
                     | None => EvError _
                     end).
      assert (Hreport : paced report = false ∧ is_history report = false
                        ∧ slept [report] = 0%Z).
      { unfold report. by destruct (fetch_stock_data _ _ _ _).1. }
      destruct Hreport as (Hpaced & Hhistory & Hquiet).
      exists (new ++ [EvHistory symbol (Between start_date end_date); report;
                      EvProgress (i + 1) n;
                      EvText (symbol +:+ " 처리 중... (" +:+ pretty (i + 1) +:+ "/"
                              +:+ pretty n +:+ ")");
                      EvSleep (pause_after i)]).
      split_and!.
      + rewrite Hnew. by rewrite <-!app_assoc.
      + rewrite filter_app, Hshape, (take_S_r _ _ symbol) by done.
        rewrite imap_app, concat_app. f_equal. simpl.
        rewrite length_take_le by (apply lookup_lt_Some in Hsymbol; lia).
        rewrite Nat.add_0_r. rewrite filter_cons_True by done.
        rewrite filter_cons_False by (by rewrite Hpaced).
        rewrite filter_cons_True by done. rewrite filter_cons_False by (by intros [=]).
        by rewrite filter_cons_True.
      + rewrite requests_app, Hrequests. unfold requests at 1.
        rewrite filter_cons_True by done. rewrite filter_cons_False by (by rewrite Hhistory).
        rewrite !filter_cons_False by (by intros [=]). simpl. lia.
      + rewrite slept_app, Hslept, pauses_sum.
        change (?a :: report :: ?l) with ([a] ++ [report] ++ l).
        rewrite !slept_app, Hquiet. simpl. lia.
    - exists []. rewrite app_nil_r. done. }
  destruct Hloop as (new & Hnew & Hshape & Hrequests & Hslept).
  unfold n in Hshape at 2. rewrite firstn_all in Hshape.
  unfold download_stocks, mbind, M_bind. fold n.
  destruct (for_each _ _ _ w) as [acc w1]. cbn [fst snd] in *.
  exists (new ++ [EvSuccess ("✅ 완료! 성공: " +:+ pretty (length acc.1) +:+ ", 실패: "
                             +:+ pretty (length acc.2))]).
  split_and!.
  - simpl. by rewrite Hnew, app_assoc.
  - rewrite filter_app, Hshape. rewrite filter_cons_False by (by intros [=]).
    by rewrite filter_nil, app_nil_r.
  - rewrite requests_app, Hrequests. unfold requests at 1.
    rewrite filter_cons_False by (by intros [=]). simpl. lia.
  - rewrite slept_app, Hslept. simpl. lia.
Qed.
End stock_loop.

(** ** What the download of the third tab keeps *)

Section stock_outcomes.
Context `{!Codec} {E : Type} `{!External E}.
Implicit Types (w : World E) (symbol : string).

(** X15: what the download of the third tab keeps.  There is one outcome
    for every position of the selection; [failed_list] is the symbols of
    the failed positions, in order and as often as they failed;
    [successful_data] is keyed by the symbols that succeeded, each once,
    so the two counts of the summary add up to at most the number of
    selected symbols, and to that number when no symbol is selected
    twice; its keys are then the succeeded symbols in the order of the
    selection. *)
Theorem stock_downloads_are_keyed_by_symbol w selected_symbols start_date end_date :
  let '(successful_data, failed_list, _) :=
    (download_stocks selected_symbols start_date end_date w).1 in
  ∃ oks,
    length oks = length selected_symbols
    ∧ failed_list = with_outcome false selected_symbols oks
    ∧ (∀ symbol, symbol ∈ dict_keys successful_data
                 ↔ symbol ∈ with_outcome true selected_symbols oks)
    ∧ NoDup (dict_keys successful_data)
    ∧ length successful_data + length failed_list ≤ length selected_symbols
    ∧ (NoDup selected_symbols →
       dict_keys successful_data = with_outcome true selected_symbols oks
       ∧ length successful_data + length failed_list = length selected_symbols).
Proof.
  set (P := λ i (acc : list (string * DataFrame) * list string) (_ : World E),
         ∃ oks,
           length oks = i
           ∧ acc.2 = with_outcome false (take i selected_symbols) oks
           ∧ (∀ symbol, symbol ∈ dict_keys acc.1
                        ↔ symbol ∈ with_outcome true (take i selected_symbols) oks)
           ∧ NoDup (dict_keys acc.1)
           ∧ (NoDup selected_symbols →
              dict_keys acc.1 = with_outcome true (take i selected_symbols) oks)).
  assert (Hloop : P (length selected_symbols)
            (for_each (download_stock (length selected_symbols) start_date end_date)
               (enumerate selected_symbols) ([], []) w).1
            (for_each (download_stock (length selected_symbols) start_date end_date)
               (enumerate selected_symbols) ([], []) w).2).
  { apply (for_each_enumerate_inv _ P).
    - intros i symbol acc w' Hsymbol (oks & Hlen & Hfailed & Hkeys & Hnodup & Hordered).
      rewrite download_stock_eq. cbn zeta. cbn [fst snd].
      assert (Hlen' : length (take i selected_symbols) = length oks).
      { apply lookup_lt_Some in Hsymbol. rewrite length_take. lia. }
      destruct (fetch_stock_data symbol start_date end_date w').1 as [df|].
      + exists (oks ++ [true]). rewrite (take_S_r _ _ symbol) by done.
        rewrite !with_outcome_snoc by done. cbn [fst snd]. simpl (bool_decide _).
        cbv iota. rewrite app_nil_r.
        split_and!; [rewrite length_app; simpl; lia|done| | |].
        * intros s. rewrite dict_set_keys.
          rewrite (elem_of_app (with_outcome true _ _)), list_elem_of_singleton, <-Hkeys.
          case_bool_decide as Hin; [|rewrite elem_of_app, list_elem_of_singleton; tauto].
          split; [tauto|]. intros [?| ->]; done.
        * by apply dict_set_NoDup.
        * intros Hdistinct. rewrite dict_set_keys, (Hordered Hdistinct).
          rewrite bool_decide_eq_false_2; [done|].
          intros Hin. apply (NoDup_lookup_take _ _ _ Hdistinct Hsymbol).
          eapply elem_of_sublist; [exact Hin|apply with_outcome_sublist].
      + exists (oks ++ [false]). rewrite (take_S_r _ _ symbol) by done.
        rewrite !with_outcome_snoc by done. cbn [fst snd]. simpl (bool_decide _).
        cbv iota. rewrite app_nil_r.
        split_and!; [rewrite length_app; simpl; lia|by rewrite Hfailed|done|done|done].
    - exists []. split_and!; try done. apply NoDup_nil_2. }
  unfold download_stocks, mbind, M_bind.
  destruct (for_each _ _ _ w) as [acc w1]. cbn [fst snd] in *.
  destruct Hloop as (oks & Hlen & Hfailed & Hkeys & Hnodup & Hordered).
  rewrite firstn_all in *. exists oks.
  assert (Hcount : length acc.1 ≤ length (with_outcome true selected_symbols oks)).
  { rewrite <-(length_fmap fst acc.1). apply submseteq_length, NoDup_submseteq; [done|].
    intros s. apply Hkeys. }
  pose proof (with_outcome_length selected_symbols oks Hlen) as Hsum.
  split_and!; [done|done|done|done|rewrite Hfailed; lia|].
  intros Hdistinct. split; [by apply Hordered|].
  rewrite <-(length_fmap fst acc.1). unfold dict_keys in Hordered.
  rewrite (Hordered Hdistinct), Hfailed. done.
Qed.
End stock_outcomes.

Lemma stock_downloads_are_keyed_by_symbol_witness :
  let '(successful_data, failed_list, _) :=
    (download_stocks ["AAPL"; "BADTICKER"] 0 365 (world aapl_and_badticker ∅)).1 in
  length successful_data + length failed_list = 2.
Proof.
  pose proof (stock_downloads_are_keyed_by_symbol (world aapl_and_badticker ∅)
                ["AAPL"; "BADTICKER"] 0 365) as Hkeyed.
  destruct (download_stocks _ _ _ _).1 as [[successful_data failed_list] offered].
  destruct Hkeyed as (oks & _ & _ & _ & _ & _ & Hdistinct).
  apply Hdistinct. by apply (bool_decide_unpack _).
Defined.

(** ** The collection of the second tab *)

Section info_loop.
Context `{!Codec} `{!Float64} {E : Type} `{!External E}.
Implicit Types (w : World E) (symbol : string).

(** What [ticker_summary] asks, and what its record is made of. *)
Lemma ticker_summary_log symbol w :
  log (ticker_summary symbol w).2
  = log w ++ EvInfo symbol
      :: (if is_ok (yf_info symbol (env w)).1 then [EvHistory symbol (Period "5d" true)] else []).
Proof.
  unfold ticker_summary, mbind, Try_bind, info, history, lift.
  destruct (yf_info _ _) as [[i|msg] e1]; cbn [fst snd env log is_ok]; [|done].
  destruct (yf_history _ _ _) as [[hist|msg] e2]; cbn [fst snd env log];
    [|by rewrite <-app_assoc].
  destruct (negb (df_empty hist)); cbn [log]; [|by rewrite <-app_assoc].
  repeat match goal with
         | |- context [match ?r with Ok _ => _ | Exc _ => _ end] =>
             destruct r; cbn beta iota
         end; cbn [snd log]; by rewrite <-app_assoc.
Qed.

Lemma ticker_summary_record symbol w record w1 :
  ticker_summary symbol w = (Ok (Some record), w1) →
  ∃ info e1 hist e2,
    yf_info symbol (env w) = (Ok info, e1)
    ∧ yf_history symbol (Period "5d" true) e1 = (Ok hist, e2)
    ∧ summary_of symbol info hist record.
Proof.
  unfold ticker_summary, mbind, Try_bind, info, history, lift, mret, Try_ret.
  destruct (yf_info _ _) as [[i|msg] e1] eqn:Hinfo; cbn beta iota; [|done].
  cbn [env]. destruct (yf_history _ _ _) as [[hist|msg] e2] eqn:Hhist; cbn beta iota; [|done].
  destruct (df_empty hist) eqn:Hdata; cbn beta iota; [done|].
  destruct (getitem hist "Close") as [close|msg] eqn:Hclose; cbn beta iota; [|done].
  destruct (iloc_last close) as [last_price|msg] eqn:Hlast; cbn beta iota; [|done].
  destruct (getitem hist "Volume") as [volume|msg] eqn:Hvolume; cbn beta iota; [|done].
  destruct (mean volume) as [avg_volume|msg] eqn:Hmean; cbn beta iota; [|done].
  intros [= <- _]. exists i, e1, hist, e2. split_and!; [done|done|].
  unfold summary_of. rewrite Hclose, Hvolume. cbn [rbind]. unfold at_.
  rewrite Hlast, Hmean.
  split_and!; try (rewrite ?lookup_insert_ne by done; by rewrite ?lookup_insert_eq).
  intros c. unfold info_keys. split.
  - intros [v Hc].
    repeat (rewrite lookup_insert in Hc; case_decide; [subst c; by apply (bool_decide_unpack _)|]).
    by rewrite ?lookup_empty in Hc.
  - intros Hc. repeat (apply elem_of_cons in Hc as [->|Hc];
      [rewrite ?lookup_insert_ne by done; rewrite lookup_insert_eq; by eexists|]).
    by apply elem_of_nil in Hc.
Qed.

(** One item of the loop, by its summary. *)
Lemma collect_info_eq total callback i symbol acc w :
  let summary := ticker_summary symbol w in
  let shown := match callback with
               | Some callback => (callback (i + 1) total summary.2).2
               | None => summary.2
               end in
  collect_info total callback (i, symbol) acc w
  = (match summary.1 with
     | Ok (Some record) => (acc.1 ++ [record], acc.2)
     | _ => (acc.1, acc.2 ++ [symbol])
     end,
     {| env := elapse (pause_after i) (env shown);
        cache_dir := cache_dir shown;
        log := log shown ++ [EvSleep (pause_after i)] |}).
Proof.
  cbn zeta. unfold collect_info, catch, mbind, M_bind, Try_bind, mret, M_ret, Try_ret,
    sleep, pause_after.
  destruct (ticker_summary symbol w) as [[[record|]|msg] w1]; cbn beta iota;
    destruct callback as [callback|]; cbn beta iota; cbn [fst snd];
    try destruct (callback (i + 1) total w1) as [[] w2]; by destruct (_ =? _).
Qed.

(** The loop by position. *)
Lemma for_each_snoc {A St} (body : A → St → M E St) (l : list A) (x : A) : ∀ s w,
  for_each body (l ++ [x]) s w
  = body x (for_each body l s w).1 (for_each body l s w).2.
Proof.
  induction l as [|y l IH]; intros s w; simpl.
  - unfold mbind, M_bind. by destruct (body x s w).
  - unfold mbind, M_bind. destruct (body y s w) as [s' w']. apply IH.
Qed.

Lemma enumerate_take_S {A} (l : list A) (i : nat) (x : A) :
  l !! i = Some x → take (S i) (enumerate l) = take i (enumerate l) ++ [(i, x)].
Proof.
  intros Hx. apply take_S_r. unfold enumerate. apply lookup_zip_with_Some.
  exists i, x. split_and!; [done| |done]. apply lookup_seq. split; [done|].
  by apply lookup_lt_Some in Hx.
Qed.

Lemma collecting_S symbols callback i symbol w :
  symbols !! i = Some symbol →
  collecting symbols callback (S i) w
  = collect_info (length symbols) callback (i, symbol)
      (collecting symbols callback i w).1 (collecting symbols callback i w).2.
Proof.
  intros Hsymbol. unfold collecting.
  by rewrite (enumerate_take_S _ _ _ Hsymbol), for_each_snoc.
Qed.

Lemma collecting_all symbols callback w :
  get_ticker_info_batch symbols callback w
  = (frame_of_records info_keys (collecting symbols callback (length symbols) w).1.1,
     (collecting symbols callback (length symbols) w).1.2,
     (collecting symbols callback (length symbols) w).2).
Proof.
  unfold get_ticker_info_batch, collecting, mbind, M_bind, mret, M_ret.
  rewrite take_ge; [by destruct (for_each _ _ _ w) as [[??]?]|].
  unfold enumerate. rewrite length_zip_with, length_seq. lia.
Qed.

Lemma imap_snoc {A B} (f : nat → A → B) (l : list A) (x : A) :
  imap f (l ++ [x]) = imap f l ++ [f (length l) x].
Proof. rewrite imap_app. simpl. by rewrite Nat.add_0_r. Qed.

(** X17: the pace of the collection of the second tab.  For every symbol,
    in the order of the list, the loop asks the provider for the
    information once and, exactly when that came back, the provider
    being in the state the symbols before left it in, for the history of
    the last five days once; there is no retry.  It then calls the
    progress callback with [(i + 1, n)], also for a symbol that failed,
    and pauses, for a second after every tenth symbol and a tenth of a
    second after the others.  It sleeps [100 * n + 900 * (n / 10)]
    milliseconds in all, and writes nothing. *)
Theorem information_run_is_paced `{!Formatting} w symbols :
  ∃ new,
    log (get_ticker_info_batch symbols (Some update_progress) w).2 = log w ++ new
    ∧ filter (λ ev, contacts ev = true) new
      = concat (imap (λ i symbol,
                  info_trace (length symbols) i symbol
                    (is_ok (yf_info symbol
                              (env (collecting symbols (Some update_progress) i w).2)).1))
                  symbols)
    ∧ slept new = (100 * Z.of_nat (length symbols)
                   + 900 * Z.of_nat (length symbols / 10))%Z
    ∧ Forall (λ ev, is_write ev = false) new
    ∧ cache_dir (get_ticker_info_batch symbols (Some update_progress) w).2 = cache_dir w.
Proof.
  set (n := length symbols).
  set (asked := λ i symbol,
         is_ok (yf_info symbol (env (collecting symbols (Some update_progress) i w).2)).1).
  assert (Hloop : ∀ i, i ≤ n →
            ∃ new,
              log (collecting symbols (Some update_progress) i w).2 = log w ++ new
              ∧ filter (λ ev, contacts ev = true) new
                = concat (imap (λ i symbol, info_trace n i symbol (asked i symbol))
                            (take i symbols))
              ∧ slept new = (100 * Z.of_nat i + 900 * Z.of_nat (i / 10))%Z
              ∧ Forall (λ ev, is_write ev = false) new
              ∧ cache_dir (collecting symbols (Some update_progress) i w).2 = cache_dir w).
  { induction i as [|i IH]; intros Hi.
    - exists []. rewrite app_nil_r. done.
    - destruct IH as (new & Hnew & Hshape & Hslept & Hquiet & Hdir); [lia|].
      destruct (lookup_lt_is_Some_2 symbols i) as [symbol Hsymbol]; [fold n; lia|].
      rewrite (collecting_S _ _ _ _ _ Hsymbol), collect_info_eq. cbn zeta.
      cbn [fst snd log cache_dir].
      assert (Hok : is_ok (yf_info symbol
                             (env (collecting symbols (Some update_progress) i w).2)).1
                    = asked i symbol) by done.
      set (w' := (collecting symbols (Some update_progress) i w).2) in *.
      clearbody w'.
      unfold update_progress, mbind, M_bind, emit. cbn [fst snd log cache_dir].
      assert (Hsame : cache_dir (ticker_summary symbol w').2 = cache_dir w').
      { unfold ticker_summary, mbind, Try_bind, info, history, lift.
        destruct (yf_info _ _) as [[info|msg] e1]; [|done]. cbn [env cache_dir].
        destruct (yf_history _ _ _) as [[hist|msg] e2]; [|done].
        destruct (negb (df_empty hist)); [|done].
        repeat match goal with
               | |- context [match ?r with Ok _ => _ | Exc _ => _ end] => destruct r
               end; done. }
      rewrite ticker_summary_log, Hok.
      exists (new ++ EvInfo symbol
                :: (if asked i symbol then [EvHistory symbol (Period "5d" true)] else [])
                ++ [EvProgress (i + 1) n;
                    EvText ("처리 중... " +:+ pretty (i + 1) +:+ "/" +:+ pretty n
                            +:+ " (" +:+ format_percent (i + 1) n +:+ "%)");
                    EvSleep (pause_after i)]).
      split_and!.
      + rewrite Hnew. cbn [log]. destruct (asked i symbol); by rewrite <-!app_assoc.
      + rewrite filter_app, Hshape, (take_S_r _ _ symbol) by done.
        rewrite imap_snoc, concat_app. simpl. rewrite app_nil_r.
        rewrite length_take, Nat.min_l by (fold n; lia).
        f_equal. unfold info_trace. by destruct (asked i symbol).
      + rewrite slept_app, Hslept, pauses_sum. destruct (asked i symbol); simpl; lia.
      + apply Forall_app. split; [done|]. destruct (asked i symbol); by repeat constructor.
      + cbn [cache_dir]. by rewrite Hsame. }
  destruct (Hloop n) as (new & Hnew & Hshape & Hslept & Hquiet & Hdir); [done|].
  unfold n in Hshape at 2. rewrite firstn_all in Hshape.
  rewrite collecting_all. cbn [snd]. fold n. by exists new.
Qed.
End info_loop.

Lemma information_run_is_paced_witness :
  filter (λ ev, contacts ev = true)
    (log (get_ticker_info_batch ["AAPL"] (Some update_progress) (world aapl_and_badticker ∅)).2)
  = [EvInfo "AAPL"; EvProgress 1 1; EvSleep 100].
Proof.
  destruct (information_run_is_paced (world aapl_and_badticker ∅) ["AAPL"])
    as (new & Hlog & Hshape & _).
  rewrite Hlog. exact Hshape.
Defined.

(** ** What the collection of the second tab records *)

Section info_outcomes.
Context `{!Codec} `{!Float64} {E : Type} `{!External E}.
Implicit Types (w : World E) (symbol : string).

(** No record without the information and a recent history. *)
Lemma ticker_summary_refused symbol w r e1 record :
  yf_info symbol (env w) = (r, e1) →
  is_ok r = false ∨ is_Some (fetch_failure (yf_history symbol (Period "5d" true) e1).1) →
  (ticker_summary symbol w).1 ≠ Ok (Some record).
Proof.
  intros Hinfo Hrefused.
  unfold ticker_summary, mbind, Try_bind, info, history, lift, mret, Try_ret.
  rewrite Hinfo. destruct r as [i|msg]; cbn beta iota; [|done].
  destruct Hrefused as [?|Hrefused]; [done|]. cbn [env].
  destruct (yf_history _ _ _) as [[hist|msg] e2]; cbn beta iota; [|done].
  cbn [fst fetch_failure] in Hrefused.
  destruct (df_empty hist); cbn beta iota; [done|]. by destruct Hrefused.
Qed.

(** X18: what the collection of the second tab records, with a progress
    callback that returns or with none.  There is one outcome for every
    position of the list of symbols: the rows of
    [info_df] are the records of the succeeded positions and
    [failed_tickers] the symbols of the failed ones, both in the order of
    the list.  A position succeeded only if the provider, in the state
    the symbols before it left it in, answered the information and,
    asked right after it, a recent history that is not empty; where it
    refused one of them, or the history was empty, the position failed.
    Every record is the summary of these two answers for its position:
    the symbol, the long name, else the short name, else the symbol, the
    last close, the market capitalization, 0 when the information has
    none, and the mean of the volumes as pandas computes it, under the
    five keys of [info_keys] and no other. *)
Theorem collected_information w symbols progress_callback :
  let '(info_df, failed_tickers) := (get_ticker_info_batch symbols progress_callback w).1 in
  ∃ oks,
    length oks = length symbols
    ∧ (λ record, at_ record "Symbol") <$> rows info_df
      = Str <$> with_outcome true symbols oks
    ∧ failed_tickers = with_outcome false symbols oks
    ∧ columns info_df = match rows info_df with [] => [] | _ => info_keys end
    ∧ (∀ i symbol,
         symbols !! i = Some symbol → oks !! i = Some true →
         ∃ info e1 hist e2 record,
           yf_info symbol (env (collecting symbols progress_callback i w).2) = (Ok info, e1)
           ∧ yf_history symbol (Period "5d" true) e1 = (Ok hist, e2)
           ∧ record ∈ rows info_df
           ∧ summary_of symbol info hist record
           ∧ (info !! "marketCap" = None → at_ record "Market Cap" = Num 0))
    ∧ (∀ i symbol r e1,
         symbols !! i = Some symbol →
         yf_info symbol (env (collecting symbols progress_callback i w).2) = (r, e1) →
         is_ok r = false
         ∨ is_Some (fetch_failure (yf_history symbol (Period "5d" true) e1).1) →
         oks !! i = Some false)
    ∧ (∀ record, record ∈ rows info_df →
         ∃ i symbol info e1 hist e2,
           symbols !! i = Some symbol ∧ oks !! i = Some true
           ∧ yf_info symbol (env (collecting symbols progress_callback i w).2) = (Ok info, e1)
           ∧ yf_history symbol (Period "5d" true) e1 = (Ok hist, e2)
           ∧ summary_of symbol info hist record).
Proof.
  set (good := λ i symbol record,
         ∃ info e1 hist e2,
           yf_info symbol (env (collecting symbols progress_callback i w).2) = (Ok info, e1)
           ∧ yf_history symbol (Period "5d" true) e1 = (Ok hist, e2)
           ∧ summary_of symbol info hist record).
  assert (Hloop : ∀ i, i ≤ length symbols →
            ∃ oks,
              length oks = i
              ∧ (λ record, at_ record "Symbol") <$> (collecting symbols progress_callback i w).1.1
                = Str <$> with_outcome true (take i symbols) oks
              ∧ (collecting symbols progress_callback i w).1.2
                = with_outcome false (take i symbols) oks
              ∧ (∀ j symbol, symbols !! j = Some symbol → oks !! j = Some true →
                   ∃ record, record ∈ (collecting symbols progress_callback i w).1.1
                             ∧ good j symbol record)
              ∧ (∀ j symbol r e1,
                   j < i → symbols !! j = Some symbol →
                   yf_info symbol (env (collecting symbols progress_callback j w).2) = (r, e1) →
                   is_ok r = false
                   ∨ is_Some (fetch_failure (yf_history symbol (Period "5d" true) e1).1) →
                   oks !! j = Some false)
              ∧ Forall (λ record, ∃ j symbol, symbols !! j = Some symbol
                                             ∧ oks !! j = Some true ∧ good j symbol record)
                  (collecting symbols progress_callback i w).1.1).
  { induction i as [|i IH]; intros Hi.
    - exists []. split_and!; try done. intros j symbol r e1 Hj. lia.
    - destruct IH as (oks & Hlen & Hrows & Hfailed & Hgood & Hbad & Hrecords); [lia|].
      destruct (lookup_lt_is_Some_2 symbols i) as [symbol Hsymbol]; [lia|].
      rewrite (collecting_S _ _ _ _ _ Hsymbol), collect_info_eq. cbn zeta. cbn [fst snd].
      rewrite (take_S_r _ _ symbol) by done.
      assert (Hlen' : length (take i symbols) = length oks).
      { rewrite length_take. lia. }
      set (acc := (collecting symbols progress_callback i w).1) in *.
      set (w' := (collecting symbols progress_callback i w).2) in *.
      assert (Hkeep : ∀ ok j b, oks !! j = Some b → (oks ++ [ok]) !! j = Some b).
      { intros ok j b Hj. by rewrite lookup_app_l by (by eapply lookup_lt_Some). }
      assert (Hold : ∀ ok j b, j < i → (oks ++ [ok]) !! j = Some b → oks !! j = Some b).
      { intros ok j b Hj. by rewrite lookup_app_l by lia. }
      assert (Hat : ∀ ok, (oks ++ [ok]) !! i = Some ok).
      { intros ok. rewrite lookup_app_r by lia. by rewrite Hlen, Nat.sub_diag. }
      destruct (ticker_summary symbol w') as [[[record|]|msg] w1] eqn:Hsummary; cbn [fst snd].
      + destruct (ticker_summary_record _ _ _ _ Hsummary)
          as (info & e1 & hist & e2 & Hinfo & Hhist & Hrecord).
        assert (Hnew : good i symbol record) by (by exists info, e1, hist, e2).
        exists (oks ++ [true]).
        rewrite !with_outcome_snoc by done. simpl (bool_decide _). cbv iota.
        rewrite app_nil_r. split_and!.
        * rewrite length_app. simpl. lia.
        * rewrite !fmap_app, Hrows. simpl. f_equal. f_equal.
          by destruct Hrecord as (_ & -> & _).
        * done.
        * intros j symbol' Hj Hok. destruct (decide (j = i)) as [->|Hne].
          -- rewrite Hsymbol in Hj. injection Hj as <-. exists record.
             split; [|done]. apply elem_of_app. right. by left.
          -- assert (j < i).
             { apply lookup_lt_Some in Hok. rewrite length_app in Hok. simpl in Hok. lia. }
             destruct (Hgood j symbol' Hj (Hold _ _ _ ltac:(done) Hok)) as (record' & ? & ?).
             exists record'. split; [|done]. apply elem_of_app. by left.
        * intros j symbol' r e1' Hj Hsymbol' Hinfo' Hrefused.
          destruct (decide (j = i)) as [->|Hne].
          -- exfalso. rewrite Hsymbol in Hsymbol'. injection Hsymbol' as <-.
             eapply (ticker_summary_refused symbol w'); [exact Hinfo'|exact Hrefused|].
             by rewrite Hsummary.
          -- apply Hkeep. apply (Hbad j symbol' r e1'); [lia|done..].
        * apply Forall_app. split.
          -- eapply Forall_impl; [exact Hrecords|]. intros record' (j & symbol' & ? & ? & ?).
             exists j, symbol'. split_and!; [done|by apply Hkeep|done].
          -- apply Forall_singleton. exists i, symbol. by split_and!.
      + exists (oks ++ [false]).
        rewrite !with_outcome_snoc by done. simpl (bool_decide _). cbv iota.
        rewrite app_nil_r. split_and!.
        * rewrite length_app. simpl. lia.
        * done.
        * by rewrite Hfailed.
        * intros j symbol' Hj Hok. destruct (decide (j = i)) as [->|Hne].
          -- by rewrite Hat in Hok.
          -- assert (j < i).
             { apply lookup_lt_Some in Hok. rewrite length_app in Hok. simpl in Hok. lia. }
             by apply Hgood, (Hold false).
        * intros j symbol' r e1' Hj Hsymbol' Hinfo' Hrefused.
          destruct (decide (j = i)) as [->|Hne]; [by apply Hat|].
          apply Hkeep. apply (Hbad j symbol' r e1'); [lia|done..].
        * eapply Forall_impl; [exact Hrecords|]. intros record' (j & symbol' & ? & ? & ?).
          exists j, symbol'. split_and!; [done|by apply Hkeep|done].
      + exists (oks ++ [false]).
        rewrite !with_outcome_snoc by done. simpl (bool_decide _). cbv iota.
        rewrite app_nil_r. split_and!.
        * rewrite length_app. simpl. lia.
        * done.
        * by rewrite Hfailed.
        * intros j symbol' Hj Hok. destruct (decide (j = i)) as [->|Hne].
          -- by rewrite Hat in Hok.
          -- assert (j < i).
             { apply lookup_lt_Some in Hok. rewrite length_app in Hok. simpl in Hok. lia. }
             by apply Hgood, (Hold false).
        * intros j symbol' r e1' Hj Hsymbol' Hinfo' Hrefused.
          destruct (decide (j = i)) as [->|Hne]; [by apply Hat|].
          apply Hkeep. apply (Hbad j symbol' r e1'); [lia|done..].
        * eapply Forall_impl; [exact Hrecords|]. intros record' (j & symbol' & ? & ? & ?).
          exists j, symbol'. split_and!; [done|by apply Hkeep|done]. }
  destruct (Hloop (length symbols)) as (oks & Hlen & Hrows & Hfailed & Hgood & Hbad & Hrecords);
    [done|].
  rewrite collecting_all. cbn [fst snd]. rewrite firstn_all in *.
  unfold frame_of_records. cbn [rows columns].
  exists oks. split_and!; [done|done|done|done| | |].
  - intros i symbol Hsymbol Hok.
    destruct (Hgood i symbol Hsymbol Hok)
      as (record & Hin & info & e1 & hist & e2 & Hinfo & Hhist & Hrecord).
    exists info, e1, hist, e2, record. split_and!; [done..|].
    intros Hcap. destruct Hrecord as (_ & _ & _ & -> & _). by rewrite Hcap.
  - intros i symbol r e1 Hsymbol. apply (Hbad i symbol r e1); [|done].
    by eapply lookup_lt_Some.
  - intros record Hin. rewrite Forall_forall in Hrecords.
    destruct (Hrecords record Hin)
      as (i & symbol & ? & ? & info & e1 & hist & e2 & ? & ? & ?).
    by exists i, symbol, info, e1, hist, e2.
Qed.
End info_outcomes.

Lemma collected_information_witness :
  (get_ticker_info_batch ["AAPL"] None (world aapl_and_badticker ∅)).1.2 = ["AAPL"].
Proof.
  pose proof (collected_information (world aapl_and_badticker ∅) ["AAPL"] None) as Hrun.
  destruct (get_ticker_info_batch ["AAPL"] None (world aapl_and_badticker ∅)).1
    as [info_df failed_tickers].
  destruct Hrun as (oks & Hlen & _ & Hfailed & _ & _ & Hrefused & _).
  specialize (Hrefused 0 "AAPL" (Exc "KeyError: quoteSummary") aapl_and_badticker
                eq_refl eq_refl (or_introl eq_refl)).
  destruct oks as [|ok [|ok' oks]]; try discriminate Hlen.
  injection Hrefused as ->. exact Hfailed.
Defined.

(** ** More about the ticker list *)

Section ticker_list.
Context `{!Codec} {E : Type} `{!External E}.
Implicit Types (w : World E).

(** What the [try] body asks for: the first directory, and the second
    one once the first was fetched, read and found to have its
    [Test Issue] column. *)
Lemma nasdaq_tickers_body_log w :
  ∃ gets,
    log (nasdaq_tickers_body w).2 = log w ++ gets
    ∧ (gets = [EvGet nasdaq_url] ∨ gets = [EvGet nasdaq_url; EvGet other_url])
    ∧ cache_dir (nasdaq_tickers_body w).2 = cache_dir w
    ∧ (is_ok (nasdaq_tickers_body w).1 = true → gets = [EvGet nasdaq_url; EvGet other_url]).
Proof.
  unfold nasdaq_tickers_body, mbind, Try_bind, get, lift, mret, Try_ret.
  destruct (requests_get nasdaq_url (env w)) as [[text1|msg] e1]; cbn beta iota;
    [|exists [EvGet nasdaq_url]; split_and!; [done|by left|done|done]].
  destruct (pd_read_csv text1 "|") as [nasdaq_df|msg]; cbn beta iota;
    [|exists [EvGet nasdaq_url]; split_and!; [done|by left|done|done]].
  destruct (getitem nasdaq_df "Test Issue") as [issue1|msg]; cbn beta iota;
    [|exists [EvGet nasdaq_url]; split_and!; [done|by left|done|done]].
  cbn [env]. destruct (requests_get other_url e1) as [[text2|msg] e2]; cbn beta iota;
    exists [EvGet nasdaq_url; EvGet other_url].
  - repeat match goal with
           | |- context [match ?r with Ok _ => _ | Exc _ => _ end] =>
               destruct r; cbn beta iota
           end; cbn [fst snd log cache_dir]; rewrite <-?app_assoc;
      (split_and!; [done|by right|done|done]).
  - cbn [fst snd log cache_dir]. rewrite <-app_assoc. split_and!; [done|by right|done|done].
Qed.

Lemma elem_of_setitem_columns (cols : list string) (c new : string) :
  c ∈ cols ∨ c = new →
  c ∈ (if bool_decide (new ∈ cols) then cols else cols ++ [new]).
Proof.
  intros [Hc| ->]; case_bool_decide; try done.
  - apply elem_of_app. by left.
  - apply elem_of_app. right. by left.
Qed.

(** X19: the ticker list of two directories that can be read.  When both
    directories are fetched and read, the first with the columns
    [Test Issue], [Symbol], [Security Name] and [Market Category] and the
    second with [Test Issue], [ACT Symbol] and [Security Name],
    [download_nasdaq_tickers] shows no error and answers a frame with
    the default index and the columns [Symbol], [Name],
    [Market Category], [Exchange]: one row for every row of a directory
    that is no test issue, and no other, those of the first directory
    first, each directory in its own order. *)
Theorem ticker_list_of_two_directories w text1 e1 table1 text2 e2 table2 :
  requests_get nasdaq_url (env w) = (Ok text1, e1) →
  read_csv text1 "|" = Ok table1 →
  Forall (λ c, c ∈ table1.1) ["Test Issue"; "Symbol"; "Security Name"; "Market Category"] →
  requests_get other_url e1 = (Ok text2, e2) →
  read_csv text2 "|" = Ok table2 →
  Forall (λ c, c ∈ table2.1) ["Test Issue"; "ACT Symbol"; "Security Name"] →
  let result := (download_nasdaq_tickers w).1 in
  index_name result = None
  ∧ columns result = ticker_keys
  ∧ rows result = (nasdaq_row <$> listed table1.2) ++ (other_row <$> listed table2.2)
  ∧ length (rows result) = length (listed table1.2) + length (listed table2.2)
  ∧ log (download_nasdaq_tickers w).2 = log w ++ [EvGet nasdaq_url; EvGet other_url].
Proof.
  intros Hget1 Hread1 Hcolumns1 Hget2 Hread2 Hcolumns2.
  apply Forall_cons in Hcolumns1 as [Hissue1 Hcolumns1].
  apply Forall_cons in Hcolumns2 as [Hissue2 Hcolumns2].
  assert (Hbody : ∃ df w', nasdaq_tickers_body w = (Ok df, w') ∧ index_name df = None).
  { unfold nasdaq_tickers_body, mbind, Try_bind, get, lift, mret, Try_ret, pd_read_csv.
    rewrite Hget1. cbn beta iota. rewrite Hread1. cbn beta iota delta [rbind].
    unfold getitem at 1. cbn [columns rows]. rewrite bool_decide_eq_true_2 by done.
    cbn beta iota. cbn [env]. rewrite Hget2. cbn beta iota.
    rewrite Hread2. cbn beta iota delta [rbind].
    unfold getitem at 1. cbn [columns rows]. rewrite bool_decide_eq_true_2 by done.
    cbn beta iota. unfold getitem_list. cbn [columns rows index_name setitem getitem_mask].
    rewrite (proj2 (list_find_None _ ["Symbol"; "Security Name"; "Market Category"; "Exchange"])).
    2:{ rewrite Forall_forall in Hcolumns1.
        apply Forall_forall. intros c Hc Hmissing. apply Hmissing, elem_of_setitem_columns.
        destruct (decide (c = "Exchange")) as [->|Hne]; [by right|left].
        apply Hcolumns1.
        repeat (apply elem_of_cons in Hc as [->|Hc]; [try done; by apply (bool_decide_unpack _)|]).
        by apply elem_of_nil in Hc. }
    rewrite (proj2 (list_find_None _ ["ACT Symbol"; "Security Name"; "Exchange"])).
    2:{ rewrite Forall_forall in Hcolumns2.
        apply Forall_forall. intros c Hc Hmissing. apply Hmissing, elem_of_setitem_columns.
        destruct (decide (c = "Exchange")) as [->|Hne]; [by right|left].
        apply Hcolumns2.
        repeat (apply elem_of_cons in Hc as [->|Hc]; [try done; by apply (bool_decide_unpack _)|]).
        by apply elem_of_nil in Hc. }
    cbn beta iota. eexists _, _. split; [reflexivity|].
    unfold rename, pd_concat. by repeat case_bool_decide. }
  destruct Hbody as (df & w' & Hbody & Hindex).
  destruct (nasdaq_tickers_body_Ok w df w' Hbody)
    as (text1' & e1' & table1' & text2' & e2' & table2'
        & Hget1' & Hread1' & _ & Hget2' & Hread2' & _ & Hkeys & Hrows).
  rewrite Hget1 in Hget1'. injection Hget1' as <- <-.
  rewrite Hread1 in Hread1'. injection Hread1' as <-.
  rewrite Hget2 in Hget2'. injection Hget2' as <- <-.
  rewrite Hread2 in Hread2'. injection Hread2' as <-.
  destruct (nasdaq_tickers_body_log w) as (gets & Hlog & _ & _ & Hboth).
  cbn zeta. unfold download_nasdaq_tickers, catch. rewrite Hbody in *. cbn [fst snd] in *.
  split_and!; [done|done|done| |].
  - by rewrite Hrows, length_app, !length_fmap.
  - by rewrite Hlog, Hboth.
Qed.

(** X20: what a run of [download_nasdaq_tickers] asks for and shows (a
    call that Streamlit's store answers within 24 hours runs nothing of
    the function).  The run asks for the first directory, then for the
    second one at most, and for nothing else; it writes no file.  Either
    its [try] body raised: then it shows one error, which starts with the
    words of the script, and answers the empty frame; or it shows none,
    has asked for both directories, and answers a frame with the four
    columns of the ticker list.  When the request for the first
    directory raises, the second directory is not asked for, and the
    error shows the text of that exception. *)
Theorem ticker_list_requests w :
  let result := (download_nasdaq_tickers w).1 in
  ∃ gets errors,
    log (download_nasdaq_tickers w).2 = log w ++ gets ++ errors
    ∧ (gets = [EvGet nasdaq_url] ∨ gets = [EvGet nasdaq_url; EvGet other_url])
    ∧ cache_dir (download_nasdaq_tickers w).2 = cache_dir w
    ∧ ((∃ msg, errors = [EvError ("티커 리스트 다운로드 실패: " +:+ msg)]
               ∧ is_ok (nasdaq_tickers_body w).1 = false
               ∧ result = empty_frame)
       ∨ (errors = []
          ∧ is_ok (nasdaq_tickers_body w).1 = true
          ∧ gets = [EvGet nasdaq_url; EvGet other_url]
          ∧ columns result = ticker_keys))
    ∧ (∀ msg e1, requests_get nasdaq_url (env w) = (Exc msg, e1) →
                 gets = [EvGet nasdaq_url]
                 ∧ errors = [EvError ("티커 리스트 다운로드 실패: " +:+ msg)]).
Proof.
  cbn zeta. destruct (nasdaq_tickers_body_log w) as (gets & Hlog & Hgets & Hdir & Hboth).
  assert (Hfirst : ∀ msg e1,
            requests_get nasdaq_url (env w) = (Exc msg, e1) →
            (nasdaq_tickers_body w).1 = Exc msg
            ∧ log (nasdaq_tickers_body w).2 = log w ++ [EvGet nasdaq_url]).
  { intros msg e1 Hget. unfold nasdaq_tickers_body, mbind, Try_bind, get.
    by rewrite Hget. }
  unfold download_nasdaq_tickers, catch.
  destruct (nasdaq_tickers_body w) as [[df|msg] w'] eqn:Hbody; cbn [fst snd] in *.
  - exists gets, []. rewrite app_nil_r. split_and!; [done|done|done| |].
    + right. split_and!; [done|done|by apply Hboth|].
      by destruct (nasdaq_tickers_body_Ok w df w' Hbody)
        as (? & ? & ? & ? & ? & ? & _ & _ & _ & _ & _ & _ & ? & _).
    + intros msg e1 Hget. by destruct (Hfirst msg e1 Hget).
  - exists gets, [EvError ("티커 리스트 다운로드 실패: " +:+ msg)].
    unfold mbind, M_bind, emit. cbn [fst snd log cache_dir].
    split_and!; [by rewrite Hlog, app_assoc|done|done| |].
    + left. by exists msg.
    + intros msg' e1 Hget. destruct (Hfirst msg' e1 Hget) as [[= ->] Hlog'].
      split; [|done]. rewrite Hlog in Hlog'. by apply app_inv_head in Hlog'.
Qed.
End ticker_list.

Lemma ticker_list_of_two_directories_witness :
  columns (download_nasdaq_tickers (world directories ∅)).1 = ticker_keys
  ∧ log (download_nasdaq_tickers (world directories ∅)).2 = [EvGet nasdaq_url; EvGet other_url].
Proof.
  assert (Hok1 : is_ok (read_csv nasdaq_listed "|") = true) by reflexivity.
  assert (Hlabels1 : match read_csv nasdaq_listed "|" with Ok t => t.1 | Exc _ => [] end
                     = ["Symbol"; "Security Name"; "Market Category"; "Test Issue"])
    by reflexivity.
  assert (Hok2 : is_ok (read_csv other_listed "|") = true) by reflexivity.
  assert (Hlabels2 : match read_csv other_listed "|" with Ok t => t.1 | Exc _ => [] end
                     = ["ACT Symbol"; "Security Name"; "Exchange"; "Test Issue"])
    by reflexivity.
  destruct (read_csv nasdaq_listed "|") as [table1|] eqn:Hread1; [|done].
  destruct (read_csv other_listed "|") as [table2|] eqn:Hread2; [|done].
  assert (Hcolumns1 : Forall (λ c, c ∈ table1.1)
                        ["Test Issue"; "Symbol"; "Security Name"; "Market Category"]).
  { rewrite Hlabels1. repeat constructor; by apply (bool_decide_unpack _). }
  assert (Hcolumns2 : Forall (λ c, c ∈ table2.1) ["Test Issue"; "ACT Symbol"; "Security Name"]).
  { rewrite Hlabels2. repeat constructor; by apply (bool_decide_unpack _). }
  pose proof (ticker_list_of_two_directories (world directories ∅)
                nasdaq_listed directories table1 other_listed directories table2
                eq_refl Hread1 Hcolumns1 eq_refl Hread2 Hcolumns2) as (_ & Hkeys & _ & _ & Hlog).
  split; [exact Hkeys|exact Hlog].
Defined.

Lemma ticker_list_requests_witness :
  log (download_nasdaq_tickers (world aapl_and_badticker ∅)).2
  = [EvGet nasdaq_url; EvError ("티커 리스트 다운로드 실패: " +:+ "ConnectionError")].
Proof.
  destruct (ticker_list_requests (world aapl_and_badticker ∅))
    as (gets & errors & Hlog & _ & _ & _ & Hfirst).
  destruct (Hfirst "ConnectionError" aapl_and_badticker eq_refl) as [-> ->].
  exact Hlog.
Defined.

(** ** The whole of the merged and filtered table *)

Section merge_complete.
Implicit Types (ticker_df info_df : DataFrame) (l s r : gmap string cell).

Lemma filter_sublist_impl {A} (P Q : A → Prop)
    `{!∀ x, Decision (P x)} `{!∀ x, Decision (Q x)} (xs : list A) :
  (∀ x, P x → Q x) → filter P xs `sublist_of` filter Q xs.
Proof.
  intros Himpl. induction xs as [|x xs IH]; [done|].
  destruct (decide (P x)) as [HP|HP].
  - rewrite !filter_cons_True by auto. by apply sublist_skip.
  - rewrite (filter_cons_False P) by done. destruct (decide (Q x)).
    + rewrite filter_cons_True by done. by apply sublist_cons.
    + by rewrite filter_cons_False.
Qed.

Lemma ge_num_mono (low high : Q) (c : cell) :
  (low <= high)%Q → ge_num high c = true → ge_num low c = true.
Proof.
  intros Hle. rewrite !ge_num_at_least. intros (x & -> & Hx). exists x.
  split; [done|]. by apply (Qle_trans _ high).
Qed.

(** X21: the merged and filtered table, in full.  For a ticker list and
    collected information with the columns the application gives them
    and numbers, or nothing, in the three filtered columns, the block
    answers exactly the rows of the inner join on [Symbol], names
    settled, that are at or above all three thresholds, in the order of
    the join: every pair of rows with the same symbol whose values pass
    is in the table.  Raising a threshold only removes rows; a row whose
    price, market capitalization or volume is missing passes no
    threshold, however low. *)
Theorem merge_and_filter_complete ticker_df info_df min_price min_market_cap min_volume :
  columns ticker_df = ticker_keys → columns info_df = info_keys →
  df_empty info_df = false →
  Forall (λ s, numeric (at_ s "Last Sale") ∧ numeric (at_ s "Market Cap")
               ∧ numeric (at_ s "Volume")) (rows info_df) →
  ∃ filtered_df,
    merge_and_filter ticker_df info_df min_price min_market_cap min_volume
    = Ok (Some filtered_df)
    ∧ columns filtered_df = named_keys
    ∧ rows filtered_df
      = filter (λ r, passes min_price min_market_cap min_volume r = true)
          (named <$> inner_join ticker_df info_df)
    ∧ (∀ l s, l ∈ rows ticker_df → s ∈ rows info_df →
              same_key (at_ l "Symbol") (at_ s "Symbol") = true →
              (at_least min_price (at_ s "Last Sale")
               ∧ at_least min_market_cap (at_ s "Market Cap")
               ∧ at_least min_volume (at_ s "Volume")
               ↔ named (joined l s) ∈ rows filtered_df))
    ∧ (∀ min_price' min_market_cap' min_volume',
         (min_price <= min_price')%Q → (min_market_cap <= min_market_cap')%Q →
         (min_volume <= min_volume')%Q →
         ∃ filtered_df',
           merge_and_filter ticker_df info_df min_price' min_market_cap' min_volume'
           = Ok (Some filtered_df')
           ∧ rows filtered_df' `sublist_of` rows filtered_df).
Proof.
  intros Hticker Hinfo Hdata _.
  assert (Hrun : ∀ p c v,
            merge_and_filter ticker_df info_df p c v
            = Ok (Some {| index_name := None; columns := named_keys;
                          rows := filter (λ r, passes p c v r = true)
                                    (named <$> inner_join ticker_df info_df) |})).
  { intros p c v. unfold merge_and_filter. rewrite Hdata. cbn [negb].
    rewrite merge_names_schema by done. cbn [rbind].
    rewrite filter_thresholds_rows by (cbn [columns]; by apply (bool_decide_unpack _)).
    done. }
  eexists. split_and!; [apply Hrun|done|done| |].
  - intros l s Hl Hs Hkey. cbn [rows]. rewrite list_elem_of_filter.
    destruct (named_joined_cells l s) as (_ & _ & _ & Hsale & Hcap & Hvolume & _).
    unfold passes. rewrite Hsale, Hcap, Hvolume, !andb_true_iff, !ge_num_at_least.
    split.
    + intros (? & ? & ?). split; [done|]. apply list_elem_of_fmap_2, elem_of_inner_join.
      by exists l, s.
    + intros [[[? ?] ?] _]. done.
  - intros p' c' v' Hp Hc Hv. eexists. split; [apply Hrun|]. cbn [rows].
    apply filter_sublist_impl. intros r. unfold passes. rewrite !andb_true_iff.
    intros [[? ?] ?]. split_and!; by eapply ge_num_mono.
Qed.
End merge_complete.

Lemma merge_and_filter_complete_witness :
  ∃ filtered_df,
    merge_and_filter apple_tickers apple_info 5 10000000000 100000 = Ok (Some filtered_df)
    ∧ columns filtered_df = named_keys.
Proof.
  assert (Hnumbers : Forall (λ s, numeric (at_ s "Last Sale") ∧ numeric (at_ s "Market Cap")
                                 ∧ numeric (at_ s "Volume")) (rows apple_info)).
  { apply Forall_singleton. split_and!; right; by eexists. }
  destruct (merge_and_filter_complete apple_tickers apple_info 5 10000000000 100000
              eq_refl eq_refl eq_refl Hnumbers) as (filtered_df & Hrun & Hkeys & _).
  by exists filtered_df.
Defined.

(** ** The list of the downloaded tickers *)

Section downloaded_list.
Context `{!Codec} {E : Type} `{!External E}.
Implicit Types (w : World E) (downloaded : list string).

#[local] Instance str_le_total : Total str_le.
Proof. intros s1 s2. apply String.leb_total. Qed.

Lemma range_step_length (stop : nat) : length (range_step stop 10) = (stop + 9) / 10.
Proof. unfold range_step. rewrite length_fmap, length_seq. f_equal. lia. Qed.

Lemma downloaded_chunks_lookup downloaded (k : nat) :
  k < (length downloaded + 9) / 10 →
  downloaded_chunks downloaded !! k = Some (take 10 (drop (k * 10) downloaded)).
Proof.
  intros Hk. unfold downloaded_chunks, range_step, slice.
  rewrite !list_lookup_fmap.
  replace (length downloaded + 10 - 1) with (length downloaded + 9) by lia.
  rewrite lookup_seq_lt by done. simpl. do 2 f_equal. lia.
Qed.

Lemma downloaded_chunks_join downloaded (k : nat) :
  mjoin (take k (downloaded_chunks downloaded)) = take (k * 10) downloaded.
Proof.
  induction k as [|k IH]; [done|].
  destruct (decide (k < (length downloaded + 9) / 10)) as [Hk|Hk].
  - rewrite (take_S_r _ _ _ (downloaded_chunks_lookup _ _ Hk)), join_app, IH.
    simpl. rewrite app_nil_r, take_take_drop. f_equal. lia.
  - assert (Hall : length (downloaded_chunks downloaded) ≤ k).
    { unfold downloaded_chunks. rewrite length_fmap, range_step_length. lia. }
    rewrite take_ge in IH by done. rewrite take_ge by lia. rewrite IH.
    assert (length downloaded ≤ k * 10).
    { pose proof (Nat.div_mod_eq (length downloaded + 9) 10).
      pose proof (Nat.mod_upper_bound (length downloaded + 9) 10). lia. }
    by rewrite !take_ge by lia.
Qed.

(** X22: the lines of the list of downloaded tickers.  Put end to end,
    the lines hold the stems of the files of the cache directory, each
    as often as it is a stem, in ascending order; every line holds at
    least one and at most ten tickers, every line but the last holds
    ten, and no line is written for an empty directory. *)
Theorem downloaded_list_lines w :
  downloaded_lines w
  = String.concat ", " <$> downloaded_chunks (sorted (existing_tickers w))
  ∧ mjoin (downloaded_chunks (sorted (existing_tickers w))) ≡ₚ existing_tickers w
  ∧ Sorted str_le (mjoin (downloaded_chunks (sorted (existing_tickers w))))
  ∧ length (downloaded_lines w) = (length (existing_tickers w) + 9) / 10
  ∧ Forall (λ chunk, 1 ≤ length chunk ≤ 10)
      (downloaded_chunks (sorted (existing_tickers w)))
  ∧ (∀ k chunk,
       downloaded_chunks (sorted (existing_tickers w)) !! k = Some chunk →
       S k < length (downloaded_lines w) → length chunk = 10)
  ∧ (glob_csv (cache_dir w) = [] → downloaded_lines w = []).
Proof.
  assert (Hlines : length (downloaded_lines w)
                   = length (downloaded_chunks (sorted (existing_tickers w)))).
  { unfold downloaded_lines. by rewrite length_fmap. }
  rewrite Hlines. clear Hlines.
  set (chunks := downloaded_chunks (sorted (existing_tickers w))).
  set (downloaded := sorted (existing_tickers w)) in *.
  assert (Hsame : length downloaded = length (existing_tickers w)).
  { unfold downloaded, sorted. by rewrite merge_sort_Permutation. }
  assert (Hcount : length chunks = (length downloaded + 9) / 10).
  { unfold chunks, downloaded_chunks. by rewrite length_fmap, range_step_length. }
  assert (Hjoin : mjoin chunks = downloaded).
  { rewrite <-(take_ge chunks (length chunks)) by done.
    unfold chunks. rewrite downloaded_chunks_join, take_ge; [done|].
    fold chunks. rewrite Hcount.
    pose proof (Nat.div_mod_eq (length downloaded + 9) 10).
    pose proof (Nat.mod_upper_bound (length downloaded + 9) 10). lia. }
  assert (Hchunk : ∀ k chunk, chunks !! k = Some chunk →
            length chunk = 10 `min` (length downloaded - k * 10)
            ∧ k * 10 < length downloaded).
  { intros k chunk Hk. pose proof (lookup_lt_Some _ _ _ Hk) as Hlt.
    rewrite Hcount in Hlt. unfold chunks in Hk.
    rewrite downloaded_chunks_lookup in Hk by done. injection Hk as <-.
    rewrite length_take, length_drop. split; [done|].
    pose proof (Nat.div_mod_eq (length downloaded + 9) 10).
    pose proof (Nat.mod_upper_bound (length downloaded + 9) 10). lia. }
  split_and!.
  - done.
  - rewrite Hjoin. apply merge_sort_Permutation.
  - rewrite Hjoin. apply (Sorted_merge_sort str_le).
  - by rewrite Hcount, Hsame.
  - apply Forall_lookup. intros k chunk Hk. apply Hchunk in Hk. lia.
  - intros k chunk Hk Hnext. apply Hchunk in Hk as [-> _]. rewrite Hcount in Hnext.
    pose proof (Nat.div_mod_eq (length downloaded + 9) 10).
    pose proof (Nat.mod_upper_bound (length downloaded + 9) 10). lia.
  - intros Hnone. unfold downloaded_lines, existing_tickers. by rewrite Hnone.
Qed.
End downloaded_list.

(** ** How many rows the filtered table has *)

Section filtered_count.
Implicit Types (ticker_df info_df : DataFrame) (l s r : gmap string cell).

Lemma same_key_sym (a b : cell) : same_key a b = same_key b a.
Proof.
  destruct a, b; simpl; try done.
  - apply bool_decide_ext. split; congruence.
  - apply eq_true_iff_eq. rewrite !Qeq_bool_iff. split; intros ?; by symmetry.
  - apply bool_decide_ext. intuition congruence.
Qed.

Lemma same_key_trans (a b c : cell) :
  same_key a b = true → same_key b c = true → same_key a c = true.
Proof.
  destruct a, b; simpl; try done; destruct c; simpl; try done.
  - intros ->%bool_decide_eq_true. done.
  - rewrite !Qeq_bool_iff. intros ??. by etrans.
  - intros (-> & -> & ->)%bool_decide_eq_true. done.
Qed.

Lemma bind_app_length {A B} (g h : A → list B) (xs : list A) :
  length (xs ≫= (λ x, g x ++ h x)) = length (xs ≫= g) + length (xs ≫= h).
Proof.
  induction xs as [|x xs IH]; [done|]. rewrite !bind_cons, !length_app, IH. lia.
Qed.

Lemma matches_at_most_once (ls : list (gmap string cell)) s :
  (∀ i j l1 l2, ls !! i = Some l1 → ls !! j = Some l2 →
     same_key (at_ l1 "Symbol") (at_ l2 "Symbol") = true → i = j) →
  length (ls ≫= (λ l, if same_key (at_ l "Symbol") (at_ s "Symbol") then [joined l s] else []))
  ≤ 1.
Proof.
  induction ls as [|l ls IH]; intros Hdistinct; [simpl; lia|].
  rewrite bind_cons, length_app.
  destruct (same_key (at_ l "Symbol") (at_ s "Symbol")) eqn:Hl.
  - assert (Hrest : ls ≫= (λ l, if same_key (at_ l "Symbol") (at_ s "Symbol")
                                 then [joined l s] else []) = []).
    { clear IH. assert (Hnone : Forall (λ l', same_key (at_ l' "Symbol") (at_ s "Symbol") = false) ls).
      { apply Forall_lookup. intros j l' Hj. apply not_true_is_false. intros Hl'.
        assert (0 = S j); [|done]. apply (Hdistinct 0 (S j) l l'); [done|done|].
        apply (same_key_trans _ (at_ s "Symbol")); [done|]. by rewrite same_key_sym. }
      clear Hdistinct. induction Hnone as [|l' ls' Hl' _ IH]; [done|].
      by rewrite bind_cons, Hl', IH. }
    rewrite Hrest. simpl. lia.
  - simpl. apply IH. intros i j l1 l2 Hi Hj Hkey.
    assert (S i = S j); [|lia]. by apply (Hdistinct (S i) (S j) l1 l2).
Qed.

Lemma inner_join_length ticker_df info_df :
  distinct_symbols ticker_df →
  length (inner_join ticker_df info_df) ≤ length (rows info_df).
Proof.
  intros Hdistinct. unfold inner_join.
  induction (rows info_df) as [|s ss IH].
  - induction (rows ticker_df) as [|l ls IHl]; [done|]. by rewrite bind_cons.
  - etrans; [|apply le_n_S, IH]. clear IH.
    pose proof (matches_at_most_once (rows ticker_df) s Hdistinct) as Honce.
    set (g := λ l, if same_key (at_ l "Symbol") (at_ s "Symbol") then [joined l s] else []) in *.
    set (h := λ l, ss ≫= (λ s, if same_key (at_ l "Symbol") (at_ s "Symbol")
                                 then [joined l s] else [])).
    cut (length (rows ticker_df ≫= (λ l, g l ++ h l)) ≤ S (length (rows ticker_df ≫= h)));
      [intros Hcut; exact Hcut|].
    rewrite bind_app_length. lia.
Qed.

(** X23: the two numbers of the message of success.  When no two rows of
    the ticker list have the same symbol, the filtered table has at most
    as many rows as the collected information, whatever the thresholds:
    every row of information joins at most one row of the list. *)
Theorem filtered_count_bound ticker_df info_df min_price min_market_cap min_volume filtered_df :
  columns ticker_df = ticker_keys → columns info_df = info_keys →
  distinct_symbols ticker_df →
  merge_and_filter ticker_df info_df min_price min_market_cap min_volume
  = Ok (Some filtered_df) →
  length (rows filtered_df) ≤ length (rows info_df).
Proof.
  intros Hticker Hinfo Hdistinct. unfold merge_and_filter.
  destruct (df_empty info_df); [done|]. cbn [negb].
  rewrite merge_names_schema by done. cbn [rbind].
  rewrite filter_thresholds_rows by (cbn [columns]; by apply (bool_decide_unpack _)).
  intros [= <-]. cbn [rows].
  etrans; [apply length_filter|]. rewrite length_fmap. by apply inner_join_length.
Qed.
End filtered_count.

Lemma filtered_count_bound_witness :
  ∃ filtered_df,
    merge_and_filter apple_tickers apple_info 5 10000000000 100000 = Ok (Some filtered_df)
    ∧ length (rows filtered_df) ≤ length (rows apple_info).
Proof.
  assert (Hdistinct : distinct_symbols apple_tickers).
  { intros [|i] [|j] l1 l2 Hi Hj _; try done. }
  destruct (merge_and_filter apple_tickers apple_info 5 10000000000 100000)
    as [[filtered_df|]|] eqn:Hrun; try discriminate Hrun.
  exists filtered_df. split; [done|].
  exact (filtered_count_bound apple_tickers apple_info 5 10000000000 100000 filtered_df
           eq_refl eq_refl Hdistinct Hrun).
Defined.
